(** * EESync toolbox: device timebases, synchronizer and CSV export sink

    A shallow embedding of the modules of the acquisition pipeline and the
    properties stated about them:

    - [ShimmerTimebase]: acquisition/shimmer_timebase.py
    - [Sync]:            processing/sync_controller.py
    - [Exporter]:        export/export_sink.py
    - [Producer]:        processing/sync_controller.py ([enqueue_packet])
    - [UnicornTimebase]: acquisition/unicorn_lsl_timebase.py
    - [Helpers]:         utils/helpers.py
    - [RtFilter]:        processing/rt_filter.py ([_parse_spec])
    - [ShimmerGsr]:      acquisition/handlers/handler_shimmer_gsr.py
                         (the decoding of a sample)

    [SinkFacts] and [SyncFacts] hold the vocabulary of the properties of
    the sink and of the synchronizer.

    Conventions of the embedding.

    - Python [int] is [Z]; [dict] is stdpp's [gmap]; [str] is [string].
    - A finite Python [float] is represented by its exact value, a rational
      ([Q]).  The quantizer of the synchronizer and the constructor of the
      sink compute as the code does, in binary64: every operation is the
      exact one followed by the rounding to the nearest double, ties to even
      ([PyFloat.b64]); the overflow to [inf] is not modelled.  Differences of
      clock readings, the anchors and the device timebases are computed
      exactly.  Where the special values matter (formatting of CSV cells) a
      float is a [pyfloat], which adds the non-finite values and the negative
      zero to the rationals.
    - Readings of [time.monotonic()] are inputs of the operations.
    - A method that mutates [self] is a function from the state before to the
      state after; a method that can raise returns an [outcome] next to the
      state reached when the exception leaves the method. *)

From Stdlib Require Import ZArith QArith Qround Qpower Qabs Ascii String List Sorted Lia Lqa.
From stdpp Require Import gmap strings list fin_maps sorting.

Local Open Scope Z_scope.

(* ===================================================================== *)
(** * acquisition/shimmer_timebase.py *)
(* ===================================================================== *)

Module ShimmerTimebase.

(** [_TICK_RATE_HZ = 32768.0], [_COUNTER_MOD = 65536]. *)
Definition _TICK_RATE_HZ : positive := 32768%positive.
Definition _COUNTER_MOD : Z := 65536.

(** [class _StateEntry(TypedDict)]: [start], [last] are [Optional[int]]. *)
Record _StateEntry := mkEntry {
  start : option Z;
  last : option Z;
  offset : Z
}.

(** The module global [_STATE: Dict[str, _StateEntry]]. *)
Abbreviation STATE := (gmap string _StateEntry).

Definition fresh_entry : _StateEntry :=
  {| start := None; last := None; offset := 0 |}.

(** [reset(key)]. *)
Definition reset (key : string) (st : STATE) : STATE :=
  <[key := fresh_entry]> st.

(** [float(total_ticks) / _TICK_RATE_HZ]: the division by a power of two is
    exact, so the quotient is the rational [total_ticks / 32768]. *)
Definition seconds_of_ticks (total_ticks : Z) : Q := total_ticks # _TICK_RATE_HZ.

(** The body of [device_time_s] under the lock, on the entry [st] that
    [_STATE.setdefault(key, ...)] returned: the total tick count and the
    entry as it is left. *)
Definition step_entry (ts_raw : Z) (st : _StateEntry) : Z * _StateEntry :=
  match start st with
  | None =>
      (* Anchor on first packet *)
      (0 + (ts_raw - ts_raw),
       {| start := Some ts_raw; last := Some ts_raw; offset := 0 |})
  | Some start0 =>
      let offset' :=
        match last st with
        | Some last0 =>
            if ts_raw <? last0 then offset st + _COUNTER_MOD else offset st
        | None => offset st
        end in
      (offset' + (ts_raw - start0),
       {| start := Some start0; last := Some ts_raw; offset := offset' |})
  end.

(** [device_time_s(pkt, key)], with [ts_raw = int(pkt[TIMESTAMP])]. *)
Definition device_time_s (ts_raw : Z) (key : string) (S : STATE) : Q * STATE :=
  let st := default fresh_entry (S !! key) in
  let '(total_ticks, st') := step_entry ts_raw st in
  (seconds_of_ticks total_ticks, <[key := st']> S).

(** A sequence of calls [(key, ts_raw)], possibly for several devices, and
    the seconds each call returned. *)
Fixpoint run (calls : list (string * Z)) (S : STATE) : list (string * Q) * STATE :=
  match calls with
  | [] => ([], S)
  | (key, ts_raw) :: rest =>
      let '(t_s, S') := device_time_s ts_raw key S in
      let '(out, S'') := run rest S' in
      ((key, t_s) :: out, S'')
  end.

(** The results returned for one key, in call order. *)
Definition results_for (key : string) (out : list (string * Q)) : list Q :=
  map snd (filter (fun r => fst r = key) out).

Definition in_counter_range (ts_raw : Z) : Prop := 0 <= ts_raw < _COUNTER_MOD.


(** The scenario of the specification: one key, raw ticks 65530, 65535, 3,
    10 on a fresh timebase. *)
Definition rollover_scenario : list Q :=
  results_for "default"
    (fst (run [("default", 65530); ("default", 65535);
               ("default", 3); ("default", 10)]%string ∅)).

End ShimmerTimebase.

(* ===================================================================== *)
(** * Values shared by the synchronizer and the sinks *)
(* ===================================================================== *)

(** A Python [float]: the finite values are rationals; the negative zero and
    the non-finite values are kept apart because formatting tells them
    apart.  [FFin 0] is the positive zero. *)
Inductive pyfloat :=
  | FFin (q : Q)
  | FNegZero
  | FInf (negative : bool)
  | FNaN.

(** A channel value, [Optional[Union[float, int]]]; an [int] sample is
    represented by the float it converts to. *)
Abbreviation value := (option pyfloat).

(** The tagged payloads sent to the sinks:
      ("sample", k, t_q, device, ((ch,val), ...))
      ("event",  k, t_q, label, source, current_event_after)
      ("spike",  k, t_q, label, source)
    [t_q] is the finite float [_quantize] computed. *)
Inductive payload :=
  | Sample (k : Z) (t_q : Q) (device : string) (pairs : list (string * value))
  | Event (k : Z) (t_q : Q) (label source current_event_after : string)
  | Spike (k : Z) (t_q : Q) (label source : string).

(** The part of [utils.config.CONFIG] the two modules read.  A key read with
    [.get(key, default)] holds that default when it is missing; a key whose
    absence the code tests ([None]) is an [option].  [EVENT_KEYMAP] is an
    ordered dict. *)
Record Config := mkConfig {
  EVENT_KEYMAP : list (string * string);
  PLOT_DECIMATE_HZ : Q;
  PRINT_K : bool;
  LOOKAHEAD_STEPS : option Z;
  LOOKAHEAD_SEC : option Q;
  FLUSH_PERIOD_SEC : Q;
  FLUSH_ROWS : option Z;
  IDLE_WATERMARK_SEC : Q;
  CSV_SIGNAL_ENABLE : bool;
  CSV_MARKER_ENABLE : bool
}.

(** [str(next(iter(ev_map.values())))], and [""] on [StopIteration]. *)
Definition first_keymap_value (cfg : Config) : string :=
  match EVENT_KEYMAP cfg with
  | (_, v) :: _ => v
  | [] => ""
  end.

(** Exceptions, and how a call ends. *)
Inductive exn := ValueError | RuntimeError | TypeError.

Inductive outcome (A : Type) :=
  | Returned (a : A)
  | Raised (e : exn).
Arguments Returned {A} a.
Arguments Raised {A} e.

(** Float helpers. *)
Module PyFloat.

Definition ltb (x y : Q) : bool := negb (Qle_bool y x).
Definition leb (x y : Q) : bool := Qle_bool x y.

(** [int(x)] on a float truncates toward zero. *)
Definition py_int (x : Q) : Z := Z.quot (Qnum x) (Z.pos (Qden x)).

(** [math.floor], [math.ceil]. *)
Definition floor (x : Q) : Z := Qfloor x.
Definition ceil (x : Q) : Z := Qceiling x.

(** [round(x)] on a float: to the nearest integer, ties to even. *)
Definition py_round (x : Q) : Z :=
  let f := Qfloor x in
  let r := (x - inject_Z f)%Q in
  match (r ?= 1 # 2)%Q with
  | Lt => f
  | Gt => f + 1
  | Eq => if Z.even f then f else f + 1
  end.

(** Binary64.  A double has 53 significant bits and the least positive one
    is [2^-1074]: around [x > 0] the doubles are the multiples of
    [2^ulp_exp x].  The exponent has no upper bound here: the values of the
    code (seconds, rates, row counts) are far below [2^1024]. *)

(** [floor(log2 x)] for [x > 0]. *)
Definition ilog2 (x : Q) : Z :=
  let e := Z.log2 (Qnum x) - Z.log2 (Z.pos (Qden x)) in
  if Qle_bool (2 ^ e) x then e else e - 1.

Definition ulp_exp (x : Q) : Z := Z.max (ilog2 x - 52) (-1074).

(** The double nearest to [x > 0], ties to the even significand. *)
Definition b64_pos (x : Q) : Q :=
  let u := (2 ^ ulp_exp x)%Q in
  (inject_Z (py_round (x / u)) * u)%Q.

(** The double nearest to [x]: rounding is on the magnitude. *)
Definition b64 (x : Q) : Q :=
  match Qnum x with
  | Z0 => 0
  | Z.pos _ => b64_pos x
  | Z.neg _ => - b64_pos (- x)
  end.

(** [x + y], [x - y], [x * y], [x / y] on floats, and [float(n)] on an
    [int]. *)
Definition fadd (x y : Q) : Q := b64 (x + y).
Definition fsub (x y : Q) : Q := b64 (x - y).
Definition fmul (x y : Q) : Q := b64 (x * y).
Definition fdiv (x y : Q) : Q := b64 (x / y).
Definition of_int (n : Z) : Q := b64 (inject_Z n).

(** The least [n >= 0] with [y <= x * 10^n], searched upward. *)
Fixpoint pow10_steps (fuel : nat) (x y : Z) : Z :=
  match fuel with
  | O => 0
  | S fuel' => if y <=? x then 0 else 1 + pow10_steps fuel' (10 * x) y
  end.

Definition pow10_fuel (y : Z) : nat := S (Z.to_nat (Z.log2 y)).

(** [math.ceil(-math.log10(delta))] for [delta > 0]: the least integer [n]
    with [10^(-n) <= delta].  The logarithm itself is irrational, so the two
    calls are modelled together. *)
Definition ceil_neg_log10 (delta : Q) : Z :=
  let a := Qnum delta in
  let b := Z.pos (Qden delta) in
  if a <? b then pow10_steps (pow10_fuel b) a b
  else 1 - pow10_steps (pow10_fuel (a + 1)) b (a + 1).

(** Decimal digits. *)
Definition digit_char (d : Z) : ascii := ascii_of_nat (48 + Z.to_nat d).

(** [n] on exactly [w] digits, zero padded (the low [w] digits of [n]). *)
Fixpoint digits_fixed (w : nat) (n : Z) : list ascii :=
  match w with
  | O => []
  | S w' => digits_fixed w' (n / 10) ++ [digit_char (n mod 10)]
  end.

Fixpoint digits_var (fuel : nat) (n : Z) : list ascii :=
  match fuel with
  | O => []
  | S fuel' =>
      if n <? 10 then [digit_char n]
      else digits_var fuel' (n / 10) ++ [digit_char (n mod 10)]
  end.

(** The digits of [str(n)] for [n >= 0], and [str(z)] for any [int]. *)
Definition str_nat (n : Z) : list ascii := digits_var (S (Z.to_nat (Z.log2 n))) n.
Definition str_int (z : Z) : string :=
  string_of_list_ascii
    (if z <? 0 then "-"%char :: str_nat (- z) else str_nat z).

(** [f"{x:.6f}"] on a finite float: the exact value rounded to six decimals,
    ties to even; the sign is printed even when the digits are all zero. *)
Definition fixed6_sign (q : Q) : list ascii :=
  if ltb q 0 then ["-"%char] else [].
Definition fixed6_scaled (q : Q) : Z := py_round (Qabs q * inject_Z 1000000)%Q.
Definition fixed6_chars (q : Q) : list ascii :=
  let r := fixed6_scaled q in
  fixed6_sign q ++ str_nat (r / 1000000) ++ "."%char :: digits_fixed 6 (r mod 1000000).
Definition fixed6 (q : Q) : string := string_of_list_ascii (fixed6_chars q).

(** Reading digits back: what a cell denotes. *)
Definition is_digit (c : ascii) : Prop := (48 <= nat_of_ascii c <= 57)%nat.
Definition digits_value (l : list ascii) : Z :=
  fold_left (fun acc c => 10 * acc + (Z.of_nat (nat_of_ascii c) - 48)) l 0.

(** [f"{float(v):.6f}"] on any float. *)
Definition format_6f (x : pyfloat) : string :=
  match x with
  | FFin q => fixed6 q
  | FNegZero => "-0.000000"
  | FInf false => "inf"
  | FInf true => "-inf"
  | FNaN => "nan"
  end.

End PyFloat.

(* ===================================================================== *)
(** * processing/sync_controller.py *)
(* ===================================================================== *)

Module Sync.

Import PyFloat.

(** [@dataclass DeviceAnchor]. *)
Record DeviceAnchor := mkAnchor {
  dev_ts0 : Q;
  host_t0 : Q;
  epoch : Z;
  scale : Q
}.

(** A sink's [queue.Queue]: [maxsize = 0] is unbounded. *)
Record Queue := mkQueue {
  maxsize : nat;
  items : list payload
}.

(** [q.put_nowait(x)]; [None] is [queue.Full]. *)
Definition put_nowait (x : payload) (q : Queue) : option Queue :=
  if (0 <? maxsize q)%nat && (maxsize q <=? length (items q))%nat then None
  else Some {| maxsize := maxsize q; items := items q ++ [x] |}.

(** The fields of [SyncManager], and the queue objects its sink lists refer
    to: [_sinks] and [_plot_sinks] hold references (here: addresses in
    [queues]) to queues owned by the sinks. *)
Record SyncManager := mkSync {
  _started : bool;
  _session_t0 : option Q;
  _delta : option Q;
  _tq_decimals : Z;
  _anchors : gmap string DeviceAnchor;
  _default_event : string;
  _current_event : string;
  _sinks : list nat;
  _plot_sinks : list nat;
  _plot_decimate_dt : option Q;
  _plot_last_bin : gmap string Z;
  queues : gmap nat Queue
}.

(** A method: the outcome and the state of [self] when it is left. *)
Definition M (A : Type) : Type := SyncManager -> outcome A * SyncManager.

Definition ret {A} (a : A) : M A := fun s => (Returned a, s).
Definition raise {A} (e : exn) : M A := fun s => (Raised e, s).
Definition bind {A B} (m : M A) (k : A -> M B) : M B :=
  fun s => match m s with
           | (Returned a, s') => k a s'
           | (Raised e, s') => (Raised e, s')
           end.
Definition get : M SyncManager := fun s => (Returned s, s).
Definition put (s' : SyncManager) : M unit := fun _ => (Returned tt, s').
Definition modify (f : SyncManager -> SyncManager) : M unit :=
  fun s => (Returned tt, f s).

#[global] Instance M_ret : MRet M := @ret.
#[global] Instance M_bind : MBind M := fun A B k m => bind m k.

(** Field updates. *)
Definition set_current_event (ev : string) (s : SyncManager) : SyncManager :=
  mkSync (_started s) (_session_t0 s) (_delta s) (_tq_decimals s) (_anchors s)
         (_default_event s) ev (_sinks s) (_plot_sinks s)
         (_plot_decimate_dt s) (_plot_last_bin s) (queues s).
Definition set_anchors (a : gmap string DeviceAnchor) (s : SyncManager) : SyncManager :=
  mkSync (_started s) (_session_t0 s) (_delta s) (_tq_decimals s) a
         (_default_event s) (_current_event s) (_sinks s) (_plot_sinks s)
         (_plot_decimate_dt s) (_plot_last_bin s) (queues s).
Definition set_sinks (l : list nat) (s : SyncManager) : SyncManager :=
  mkSync (_started s) (_session_t0 s) (_delta s) (_tq_decimals s) (_anchors s)
         (_default_event s) (_current_event s) l (_plot_sinks s)
         (_plot_decimate_dt s) (_plot_last_bin s) (queues s).
Definition set_plot_sinks (l : list nat) (s : SyncManager) : SyncManager :=
  mkSync (_started s) (_session_t0 s) (_delta s) (_tq_decimals s) (_anchors s)
         (_default_event s) (_current_event s) (_sinks s) l
         (_plot_decimate_dt s) (_plot_last_bin s) (queues s).
Definition set_plot_last_bin (b : gmap string Z) (s : SyncManager) : SyncManager :=
  mkSync (_started s) (_session_t0 s) (_delta s) (_tq_decimals s) (_anchors s)
         (_default_event s) (_current_event s) (_sinks s) (_plot_sinks s)
         (_plot_decimate_dt s) b (queues s).
Definition set_queues (qs : gmap nat Queue) (s : SyncManager) : SyncManager :=
  mkSync (_started s) (_session_t0 s) (_delta s) (_tq_decimals s) (_anchors s)
         (_default_event s) (_current_event s) (_sinks s) (_plot_sinks s)
         (_plot_decimate_dt s) (_plot_last_bin s) qs.

(** [SyncManager.__init__]; [heap] holds the queues the sinks created. *)
Definition __init__ (heap : gmap nat Queue) : SyncManager :=
  {| _started := false; _session_t0 := None; _delta := None;
     _tq_decimals := 6; _anchors := ∅;
     _default_event := ""; _current_event := "";
     _sinks := []; _plot_sinks := [];
     _plot_decimate_dt := None; _plot_last_bin := ∅;
     queues := heap |}.

(** [add_sink_queue], [add_plot_sink_queue], [remove_sink_queue]. *)
Definition add_sink_queue (q : nat) (s : SyncManager) : SyncManager :=
  if bool_decide (q ∈ _sinks s) then s else set_sinks (_sinks s ++ [q]) s.

Definition add_plot_sink_queue (q : nat) (s : SyncManager) : SyncManager :=
  if bool_decide (q ∈ _plot_sinks s) then s
  else set_plot_sinks (_plot_sinks s ++ [q]) s.

Fixpoint list_remove_first (q : nat) (l : list nat) : list nat :=
  match l with
  | [] => []
  | x :: l' => if bool_decide (x = q) then l' else x :: list_remove_first q l'
  end.

Definition remove_sink_queue (q : nat) (s : SyncManager) : SyncManager :=
  set_sinks (list_remove_first q (_sinks s)) s.

(** [_decimals_from_delta]. *)
Definition _decimals_from_delta (delta : Q) : Z :=
  if negb (ltb 0 delta) then 6
  else
    let d_ceil := ceil_neg_log10 delta in
    Z.max 0 (Z.min 9 (d_ceil + 2)).

(** [_floor_to_decimals]: [float(math.floor(x))], or with
    [p = 10.0 ** decimals], [math.floor(x * p) / p]. *)
Definition _floor_to_decimals (x : Q) (decimals : Z) : Q :=
  if decimals <=? 0 then of_int (floor x)
  else
    let p := b64 (10 ^ decimals) in
    fdiv (of_int (floor (fmul x p))) p.

(** [start_session(delta)]; [now] is the reading of [time.monotonic()]. *)
Definition start_session (cfg : Config) (delta : Q) (now : Q) : M unit :=
  fun s =>
  if _started s then (Returned tt, s)
  else if negb (ltb 0 delta) then (Raised ValueError, s)
  else
    let default_event := first_keymap_value cfg in
    let plot_hz := PLOT_DECIMATE_HZ cfg in
    (Returned tt,
     {| _started := true;
        _session_t0 := Some now;
        _delta := Some delta;
        _tq_decimals := _decimals_from_delta delta;
        _anchors := ∅;
        _default_event := default_event;
        _current_event := default_event;
        _sinks := _sinks s;
        _plot_sinks := _plot_sinks s;
        _plot_decimate_dt := if ltb 0 plot_hz then Some (1 / plot_hz)%Q else None;
        _plot_last_bin := ∅;
        queues := queues s |}).

(** [stop_session()]. *)
Definition stop_session (s : SyncManager) : SyncManager :=
  if negb (_started s) then s
  else
    {| _started := false;
       _session_t0 := None;
       _delta := None;
       _tq_decimals := _tq_decimals s;
       _anchors := ∅;
       _default_event := _default_event s;
       _current_event := _current_event s;
       _sinks := [];
       _plot_sinks := [];
       _plot_decimate_dt := None;
       _plot_last_bin := ∅;
       queues := queues s |}.

(** [get_current_event]. *)
Definition get_current_event (s : SyncManager) : string := _current_event s.

(** [_host_rel_now]. *)
Definition _host_rel_now (now : Q) : M Q :=
  fun s => match _session_t0 s with
           | None => (Raised RuntimeError, s)
           | Some t0 => (Returned (now - t0)%Q, s)
           end.

(** [_quantize]. *)
Definition _quantize (t_host_est : Q) : M (Z * Q) :=
  fun s => match _delta s with
           | None => (Raised RuntimeError, s)
           | Some delta =>
               let k := py_int (fadd (fdiv t_host_est delta) (1 # 2)) in
               let t_q := fmul (of_int k) delta in
               let t_q := _floor_to_decimals t_q (_tq_decimals s) in
               (Returned (k, t_q), s)
           end.

(** [for s in sinks: try: s.put_nowait(payload) except Exception: pass]. *)
Definition put_all (p : payload) (sinks : list nat) (qs : gmap nat Queue)
  : gmap nat Queue :=
  foldl (fun qs a =>
           match qs !! a with
           | Some q => match put_nowait p q with
                       | Some q' => <[a := q']> qs
                       | None => qs
                       end
           | None => qs
           end) qs sinks.

(** The filter loop of [_emit_to_plot_sinks] over the channel pairs. *)
Fixpoint decimate (dev : string) (bin_idx : Z) (pairs : list (string * value))
  (last_bin : gmap string Z) : list (string * value) * gmap string Z :=
  match pairs with
  | [] => ([], last_bin)
  | (ch_name, ch_val) :: rest =>
      let key := (dev ++ "_" ++ ch_name)%string in
      if bool_decide (last_bin !! key = Some bin_idx) then
        decimate dev bin_idx rest last_bin
      else
        let '(filtered, last_bin') :=
          decimate dev bin_idx rest (<[key := bin_idx]> last_bin) in
        ((ch_name, ch_val) :: filtered, last_bin')
  end.

(** [_emit_to_plot_sinks]. *)
Definition _emit_to_plot_sinks (p : payload) (s : SyncManager) : SyncManager :=
  let forward s := set_queues (put_all p (_plot_sinks s) (queues s)) s in
  match p, _plot_decimate_dt s with
  | Event _ _ _ _ _, _ | Spike _ _ _ _, _ | _, None => forward s
  | Sample k t_q dev pairs, Some dt =>
      if negb (ltb 0 dt) then forward s
      else
        let bin_idx := py_int (t_q / dt)%Q in
        let '(filtered, last_bin') :=
          decimate dev bin_idx pairs (_plot_last_bin s) in
        let s := set_plot_last_bin last_bin' s in
        match filtered with
        | [] => s
        | _ :: _ =>
            let decimated := Sample k t_q dev filtered in
            set_queues (put_all decimated (_plot_sinks s) (queues s)) s
        end
  end.

(** [_emit_to_sinks]. *)
Definition _emit_to_sinks (p : payload) : M unit :=
  fun s =>
  let s := set_queues (put_all p (_sinks s) (queues s)) s in
  match _plot_sinks s with
  | [] => (Returned tt, s)
  | _ :: _ => (Returned tt, _emit_to_plot_sinks p s)
  end.

(** [set_event(label, source)]. *)
Definition set_event (label source : string) (now : Q) : M payload :=
  if bool_decide (source = "") then raise ValueError
  else
    t_now ← _host_rel_now now;
    '(k, t_q) ← _quantize t_now;
    let target := label in
    modify (fun s =>
      if bool_decide (target = _current_event s) then
        if bool_decide (_current_event s <> _default_event s)
        then set_current_event (_default_event s) s
        else s
      else set_current_event target s);;
    s ← get;
    let p := Event k t_q (_current_event s) source (_current_event s) in
    _emit_to_sinks p;;
    ret p.

(** [trigger_spike(label, source)]. *)
Definition trigger_spike (label source : string) (now : Q) : M payload :=
  if bool_decide (source = "") then raise ValueError
  else
    t_now ← _host_rel_now now;
    '(k, t_q) ← _quantize t_now;
    let p := Spike k t_q label source in
    _emit_to_sinks p;;
    ret p.

(** [_map_to_host]. *)
Definition _map_to_host (dev : string) (device_ts : Q) (now : Q) : M Q :=
  fun s =>
  match _session_t0 s with
  | None => (Raised RuntimeError, s)
  | Some t0 =>
      let host_rel := (now - t0)%Q in
      let anchor :=
        match _anchors s !! dev with
        | None => mkAnchor device_ts host_rel 0 1
        | Some anchor =>
            if ltb (device_ts + (1 # 1000000000000))%Q (dev_ts0 anchor)
            then mkAnchor device_ts host_rel (epoch anchor + 1) (scale anchor)
            else anchor
        end in
      let t_host_est :=
        (scale anchor * (device_ts - dev_ts0 anchor) + host_t0 anchor)%Q in
      (Returned (if leb 0 t_host_est then t_host_est else 0%Q),
       set_anchors (<[dev := anchor]> (_anchors s)) s)
  end.

(** [_handle_sample_packet] on a well-typed packet
    [(device_ts, device_name, pairs)]. *)
Definition _handle_sample_packet (device_ts : Q) (device_name : string)
  (pairs : list (string * value)) (now : Q) : M unit :=
  t_host_est ← _map_to_host device_name device_ts now;
  '(k, t_q) ← _quantize t_host_est;
  _emit_to_sinks (Sample k t_q device_name pairs).

(** One pass of [_consume_loop] on a packet: an exception of the handler is
    logged and the loop goes on. *)
Definition consume (device_ts : Q) (device_name : string)
  (pairs : list (string * value)) (now : Q) (s : SyncManager) : SyncManager :=
  snd (_handle_sample_packet device_ts device_name pairs now s).

(** The states a manager goes through: the public API called in any order,
    and the consumer handling packets in between. *)
Inductive reachable : SyncManager -> Prop :=
  | r_init heap : reachable (__init__ heap)
  | r_add_sink q s : reachable s -> reachable (add_sink_queue q s)
  | r_add_plot_sink q s : reachable s -> reachable (add_plot_sink_queue q s)
  | r_remove_sink q s : reachable s -> reachable (remove_sink_queue q s)
  | r_start cfg delta now s :
      reachable s -> reachable (snd (start_session cfg delta now s))
  | r_stop s : reachable s -> reachable (stop_session s)
  | r_set_event label source now s :
      reachable s -> reachable (snd (set_event label source now s))
  | r_trigger_spike label source now s :
      reachable s -> reachable (snd (trigger_spike label source now s))
  | r_consume ts dev pairs now s :
      reachable s -> reachable (consume ts dev pairs now s).

(** The formulas of the specification, in its words. *)
Definition spec_k (t delta : Q) : Z := Qfloor (t / delta + (1 # 2))%Q.
Definition spec_t_q (k : Z) (delta : Q) (D : Z) : Q :=
  (inject_Z (Qfloor (inject_Z k * delta * 10 ^ D)) / 10 ^ D)%Q.
Definition clamp (x lo hi : Z) : Z := Z.max lo (Z.min hi x).
(** [n = ceil(-log10 delta)]: [n - 1 < -log10 delta <= n]. *)
Definition is_ceil_neg_log10 (delta : Q) (n : Z) : Prop :=
  (10 ^ (- n) <= delta)%Q /\ (delta < 10 ^ (1 - n))%Q.

(** The fields that tell whether a session is running. *)
Definition session_fields (s : SyncManager) : bool * option Q * option Q :=
  (_started s, _session_t0 s, _delta s).

(** An event or a spike goes to the plot sinks unchanged, after the
    full-rate sinks. *)
Definition is_marker (p : payload) : bool :=
  match p with Sample _ _ _ _ => false | _ => true end.

(** The sticky event after [set_event(label, ...)], by the code's rule. *)
Definition toggled (s : SyncManager) (label : string) : string :=
  if bool_decide (label = _current_event s) then
    if bool_decide (_current_event s <> _default_event s)
    then _default_event s else _current_event s
  else label.

(** A running session has its time origin and its step; an idle manager has
    no time origin. *)
Definition session_inv (s : SyncManager) : Prop :=
  if _started s then is_Some (_session_t0 s) /\ is_Some (_delta s)
  else _session_t0 s = None.

End Sync.

(* ===================================================================== *)
(** * export/export_sink.py *)
(* ===================================================================== *)

Module Exporter.

Import PyFloat.

(** One [writerow] call on one of the two CSV writers.  The two files are
    kept in one chronological log, so that the order of writes across the
    files can be stated; a data row and a marker row carry the frame index
    they were written for (the file holds it only under [PRINT_K]). *)
Inductive write :=
  | SyncedHeader (row : list string)
  | SyncedRow (k : Z) (row : list string)
  | MarkersHeader (row : list string)
  | MarkersRow (k : Z) (row : list string).

(** The fields of [ExportSink]; [_thr], [_synced_writer] and
    [_markers_writer] are kept as "is not None". *)
Record ExportSink := mkSink {
  _thr : bool;
  _delta : Q;
  _k_seen_max : Z;
  _print_k : bool;
  _L : Z;
  _flush_period : Q;
  _flush_rows_threshold : Z;
  _idle_watermark_sec : Q;
  _last_activity_monotonic : Q;
  _csv_signal_enabled : bool;
  _csv_marker_enabled : bool;
  _channels : list string;
  _header_frozen : bool;
  _default_event : string;
  _sticky_event : string;
  _open_rows : gmap Z (gmap string string);
  _tq_by_k : gmap Z Q;
  _event_changes : gmap Z string;
  _pending_committed : Z;
  _last_flush_time : Q;
  _initial_marker_emitted : bool;
  _synced_writer : bool;
  _markers_writer : bool;
  written : list write
}.

(** Field updates. *)
Definition set_k_seen_max (v : Z) (s : ExportSink) : ExportSink :=
  mkSink (_thr s) (_delta s) v (_print_k s) (_L s) (_flush_period s)
    (_flush_rows_threshold s) (_idle_watermark_sec s) (_last_activity_monotonic s)
    (_csv_signal_enabled s) (_csv_marker_enabled s) (_channels s) (_header_frozen s)
    (_default_event s) (_sticky_event s) (_open_rows s) (_tq_by_k s)
    (_event_changes s) (_pending_committed s) (_last_flush_time s)
    (_initial_marker_emitted s) (_synced_writer s) (_markers_writer s) (written s).
Definition set_last_activity (v : Q) (s : ExportSink) : ExportSink :=
  mkSink (_thr s) (_delta s) (_k_seen_max s) (_print_k s) (_L s) (_flush_period s)
    (_flush_rows_threshold s) (_idle_watermark_sec s) v
    (_csv_signal_enabled s) (_csv_marker_enabled s) (_channels s) (_header_frozen s)
    (_default_event s) (_sticky_event s) (_open_rows s) (_tq_by_k s)
    (_event_changes s) (_pending_committed s) (_last_flush_time s)
    (_initial_marker_emitted s) (_synced_writer s) (_markers_writer s) (written s).
Definition set_header_frozen (v : bool) (s : ExportSink) : ExportSink :=
  mkSink (_thr s) (_delta s) (_k_seen_max s) (_print_k s) (_L s) (_flush_period s)
    (_flush_rows_threshold s) (_idle_watermark_sec s) (_last_activity_monotonic s)
    (_csv_signal_enabled s) (_csv_marker_enabled s) (_channels s) v
    (_default_event s) (_sticky_event s) (_open_rows s) (_tq_by_k s)
    (_event_changes s) (_pending_committed s) (_last_flush_time s)
    (_initial_marker_emitted s) (_synced_writer s) (_markers_writer s) (written s).
Definition set_sticky_event (v : string) (s : ExportSink) : ExportSink :=
  mkSink (_thr s) (_delta s) (_k_seen_max s) (_print_k s) (_L s) (_flush_period s)
    (_flush_rows_threshold s) (_idle_watermark_sec s) (_last_activity_monotonic s)
    (_csv_signal_enabled s) (_csv_marker_enabled s) (_channels s) (_header_frozen s)
    (_default_event s) v (_open_rows s) (_tq_by_k s)
    (_event_changes s) (_pending_committed s) (_last_flush_time s)
    (_initial_marker_emitted s) (_synced_writer s) (_markers_writer s) (written s).
Definition set_open_rows (v : gmap Z (gmap string string)) (s : ExportSink) : ExportSink :=
  mkSink (_thr s) (_delta s) (_k_seen_max s) (_print_k s) (_L s) (_flush_period s)
    (_flush_rows_threshold s) (_idle_watermark_sec s) (_last_activity_monotonic s)
    (_csv_signal_enabled s) (_csv_marker_enabled s) (_channels s) (_header_frozen s)
    (_default_event s) (_sticky_event s) v (_tq_by_k s)
    (_event_changes s) (_pending_committed s) (_last_flush_time s)
    (_initial_marker_emitted s) (_synced_writer s) (_markers_writer s) (written s).
Definition set_tq_by_k (v : gmap Z Q) (s : ExportSink) : ExportSink :=
  mkSink (_thr s) (_delta s) (_k_seen_max s) (_print_k s) (_L s) (_flush_period s)
    (_flush_rows_threshold s) (_idle_watermark_sec s) (_last_activity_monotonic s)
    (_csv_signal_enabled s) (_csv_marker_enabled s) (_channels s) (_header_frozen s)
    (_default_event s) (_sticky_event s) (_open_rows s) v
    (_event_changes s) (_pending_committed s) (_last_flush_time s)
    (_initial_marker_emitted s) (_synced_writer s) (_markers_writer s) (written s).
Definition set_event_changes (v : gmap Z string) (s : ExportSink) : ExportSink :=
  mkSink (_thr s) (_delta s) (_k_seen_max s) (_print_k s) (_L s) (_flush_period s)
    (_flush_rows_threshold s) (_idle_watermark_sec s) (_last_activity_monotonic s)
    (_csv_signal_enabled s) (_csv_marker_enabled s) (_channels s) (_header_frozen s)
    (_default_event s) (_sticky_event s) (_open_rows s) (_tq_by_k s)
    v (_pending_committed s) (_last_flush_time s)
    (_initial_marker_emitted s) (_synced_writer s) (_markers_writer s) (written s).
Definition set_pending_committed (v : Z) (s : ExportSink) : ExportSink :=
  mkSink (_thr s) (_delta s) (_k_seen_max s) (_print_k s) (_L s) (_flush_period s)
    (_flush_rows_threshold s) (_idle_watermark_sec s) (_last_activity_monotonic s)
    (_csv_signal_enabled s) (_csv_marker_enabled s) (_channels s) (_header_frozen s)
    (_default_event s) (_sticky_event s) (_open_rows s) (_tq_by_k s)
    (_event_changes s) v (_last_flush_time s)
    (_initial_marker_emitted s) (_synced_writer s) (_markers_writer s) (written s).
Definition set_last_flush_time (v : Q) (s : ExportSink) : ExportSink :=
  mkSink (_thr s) (_delta s) (_k_seen_max s) (_print_k s) (_L s) (_flush_period s)
    (_flush_rows_threshold s) (_idle_watermark_sec s) (_last_activity_monotonic s)
    (_csv_signal_enabled s) (_csv_marker_enabled s) (_channels s) (_header_frozen s)
    (_default_event s) (_sticky_event s) (_open_rows s) (_tq_by_k s)
    (_event_changes s) (_pending_committed s) v
    (_initial_marker_emitted s) (_synced_writer s) (_markers_writer s) (written s).
Definition set_initial_marker_emitted (v : bool) (s : ExportSink) : ExportSink :=
  mkSink (_thr s) (_delta s) (_k_seen_max s) (_print_k s) (_L s) (_flush_period s)
    (_flush_rows_threshold s) (_idle_watermark_sec s) (_last_activity_monotonic s)
    (_csv_signal_enabled s) (_csv_marker_enabled s) (_channels s) (_header_frozen s)
    (_default_event s) (_sticky_event s) (_open_rows s) (_tq_by_k s)
    (_event_changes s) (_pending_committed s) (_last_flush_time s)
    v (_synced_writer s) (_markers_writer s) (written s).
Definition set_io (thr synced_writer markers_writer : bool) (s : ExportSink) : ExportSink :=
  mkSink thr (_delta s) (_k_seen_max s) (_print_k s) (_L s) (_flush_period s)
    (_flush_rows_threshold s) (_idle_watermark_sec s) (_last_activity_monotonic s)
    (_csv_signal_enabled s) (_csv_marker_enabled s) (_channels s) (_header_frozen s)
    (_default_event s) (_sticky_event s) (_open_rows s) (_tq_by_k s)
    (_event_changes s) (_pending_committed s) (_last_flush_time s)
    (_initial_marker_emitted s) synced_writer markers_writer (written s).
Definition emit (w : write) (s : ExportSink) : ExportSink :=
  mkSink (_thr s) (_delta s) (_k_seen_max s) (_print_k s) (_L s) (_flush_period s)
    (_flush_rows_threshold s) (_idle_watermark_sec s) (_last_activity_monotonic s)
    (_csv_signal_enabled s) (_csv_marker_enabled s) (_channels s) (_header_frozen s)
    (_default_event s) (_sticky_event s) (_open_rows s) (_tq_by_k s)
    (_event_changes s) (_pending_committed s) (_last_flush_time s)
    (_initial_marker_emitted s) (_synced_writer s) (_markers_writer s)
    (written s ++ [w]).

(** [ExportSink.__init__]; [now] is the reading of [time.monotonic()]. *)
Definition __init__ (cfg : Config) (delta : Q)
  (known_channels : option (list string))
  (lookahead_steps : option Z) (flush_period_sec : option Q)
  (flush_rows_threshold : option Z) (lookahead_sec : option Q)
  (idle_watermark_sec : option Q) (now : Q) : ExportSink :=
  let steps_of_sec (sec : Q) :=
    let fs_max := fdiv 1 delta in ceil (fmul sec fs_max) in
  let L :=
    match lookahead_steps, lookahead_sec, LOOKAHEAD_SEC cfg with
    | Some n, _, _ => n
    | None, Some sec, _ => steps_of_sec sec
    | None, None, Some sec => steps_of_sec sec
    | None, None, None => default 3 (LOOKAHEAD_STEPS cfg)
    end in
  let flush_period := default (FLUSH_PERIOD_SEC cfg) flush_period_sec in
  let '(raw_rows, use_auto) :=
    match flush_rows_threshold, FLUSH_ROWS cfg with
    | Some n, _ => (n, n <=? 0)
    | None, None => (0, true)
    | None, Some n => (n, n <=? 0)
    end in
  let rows :=
    if use_auto then
      let fs_max := fdiv 1 delta in
      let est_rows := py_round (fmul fs_max flush_period) in
      Z.min 2048 (Z.max 64 est_rows)
    else raw_rows in
  let channels := default [] known_channels in
  let default_event := first_keymap_value cfg in
  {| _thr := false;
     _delta := delta;
     _k_seen_max := -1;
     _print_k := PRINT_K cfg;
     _L := L;
     _flush_period := flush_period;
     _flush_rows_threshold := rows;
     _idle_watermark_sec := default (IDLE_WATERMARK_SEC cfg) idle_watermark_sec;
     _last_activity_monotonic := now;
     _csv_signal_enabled := CSV_SIGNAL_ENABLE cfg;
     _csv_marker_enabled := CSV_MARKER_ENABLE cfg;
     _channels := channels;
     _header_frozen := match channels with [] => false | _ :: _ => true end;
     _default_event := default_event;
     _sticky_event := default_event;
     _open_rows := ∅;
     _tq_by_k := ∅;
     _event_changes := ∅;
     _pending_committed := 0;
     _last_flush_time := now;
     _initial_marker_emitted := false;
     _synced_writer := false;
     _markers_writer := false;
     written := [] |}.

(** [_fmt_val]: [float(v)] cannot fail on a float, so the [except] branch is
    not taken. *)
Definition _fmt_val (v : value) : string :=
  match v with
  | None => ""
  | Some x => format_6f x
  end.

Definition k_prefix (s : ExportSink) (k : Z) : list string :=
  if _print_k s then [str_int k] else [].

(** [_write_marker]. *)
Definition _write_marker (k : Z) (t_q : Q) (event spike source : string)
  (s : ExportSink) : ExportSink :=
  if negb (_markers_writer s) then s
  else
    let row := k_prefix s k ++ [_fmt_val (Some (FFin t_q)); event; spike; source] in
    emit (MarkersRow k row) s.

(** [_write_synced_header]. *)
Definition _write_synced_header (s : ExportSink) : ExportSink :=
  if negb (_synced_writer s) || _header_frozen s then s
  else
    match _channels s with
    | [] => s
    | _ :: _ =>
        let header := ["k"; "t_q"] ++ _channels s ++ ["spike"; "event"] in
        set_header_frozen true (emit (SyncedHeader header) s)
    end.

(** [start()]. *)
Definition start (s : ExportSink) : outcome unit * ExportSink :=
  if _thr s then (Returned tt, s)
  else
    let s := set_io false (_csv_signal_enabled s) (_csv_marker_enabled s) s in
    let s :=
      if _markers_writer s then
        let hdr := (if _print_k s then ["k"] else [])
                     ++ ["t_q"; "event"; "spike"; "source"] in
        emit (MarkersHeader hdr) s
      else s in
    if _synced_writer s then
      match _channels s with
      | [] => (Raised RuntimeError, s)
      | _ :: _ =>
          let header := (if _print_k s then ["k"] else [])
                          ++ ["t_q"] ++ _channels s ++ ["spike"; "event"] in
          let s := set_header_frozen true (emit (SyncedHeader header) s) in
          (Returned tt, set_io true (_synced_writer s) (_markers_writer s) s)
      end
    else (Returned tt, set_io true (_synced_writer s) (_markers_writer s) s).

(** The loop of [_on_sample] over the pairs, on the row dict of [k]. *)
Fixpoint fill_row (channels : list string) (dev : string)
  (pairs : list (string * value)) (row : gmap string string) : gmap string string :=
  match pairs with
  | [] => row
  | (ch, val) :: rest =>
      let key := (dev +:+ ":" +:+ ch)%string in
      if bool_decide (key ∈ channels)
      then fill_row channels dev rest (<[key := _fmt_val val]> row)
      else fill_row channels dev rest row
  end.

(** [_on_sample]. *)
Definition _on_sample (k : Z) (t_q : Q) (dev : string)
  (pairs : list (string * value)) (s : ExportSink) : ExportSink :=
  let s := set_k_seen_max (Z.max (_k_seen_max s) k) s in
  let s := set_tq_by_k (<[k := t_q]> (_tq_by_k s)) s in
  let row := default ∅ (_open_rows s !! k) in
  let s := set_open_rows (<[k := fill_row (_channels s) dev pairs row]> (_open_rows s)) s in
  if negb (_header_frozen s) then _write_synced_header s else s.

(** [_on_event]. *)
Definition _on_event (k : Z) (t_q : Q) (_label source current_after : string)
  (s : ExportSink) : ExportSink :=
  let s := set_event_changes (<[k := current_after]> (_event_changes s)) s in
  _write_marker k t_q current_after "" source s.

(** [_on_spike]. *)
Definition _on_spike (k : Z) (t_q : Q) (label source : string)
  (s : ExportSink) : ExportSink :=
  let row := default ∅ (_open_rows s !! k) in
  let s := set_open_rows (<[k := <["spike"%string := label]> row]> (_open_rows s)) s in
  let s := set_tq_by_k (<[k := t_q]> (_tq_by_k s)) s in
  let s := set_k_seen_max (Z.max (_k_seen_max s) k) s in
  _write_marker k t_q "" label source s.

(** [sorted(k for k in d.keys() if k <= bound)]. *)
Definition sorted_keys_le {A} (d : gmap Z A) (bound : Z) : list Z :=
  merge_sort Z.le (filter (fun k => k <= bound) (map fst (map_to_list d))).

(** [if self._event_changes: pending = [kk ... if kk <= k]; for kk in
    sorted(pending): ...]: apply the changes up to and including [k]. *)
Definition apply_event_changes (k : Z) (s : ExportSink) : ExportSink :=
  foldl (fun s kk =>
           let s := match _event_changes s !! kk with
                    | Some ev => set_sticky_event ev s
                    | None => s
                    end in
           set_event_changes (delete kk (_event_changes s)) s)
        s (sorted_keys_le (_event_changes s) k).

(** The body of the [for k in ks] loop of [_commit_until]. *)
Definition commit_row (k : Z) (s : ExportSink) : ExportSink :=
  let t_q := default (inject_Z k * _delta s)%Q (_tq_by_k s !! k) in
  (* Apply any sticky-event changes up to and including this k. *)
  let s := apply_event_changes k s in
  (* Emit initial marker exactly once at the first committed k. *)
  let s :=
    if negb (_initial_marker_emitted s) then
      set_initial_marker_emitted true
        (_write_marker k t_q (_sticky_event s) "" "sync" s)
    else s in
  (* Build the CSV row for this k. *)
  let row_map := default ∅ (_open_rows s !! k) in
  let s := set_open_rows (delete k (_open_rows s)) s in
  let row :=
    k_prefix s k ++ [_fmt_val (Some (FFin t_q))]
      ++ map (fun ch => default ""%string (row_map !! ch)) (_channels s)
      ++ [default ""%string (row_map !! "spike"%string)]
      ++ [_sticky_event s] in
  let s := emit (SyncedRow k row) s in
  let s := set_tq_by_k (delete k (_tq_by_k s)) s in
  set_pending_committed (_pending_committed s + 1) s.

(** [_commit_until]. *)
Definition _commit_until (k_commit : Z) (s : ExportSink) : ExportSink :=
  if negb (_synced_writer s) then s
  else
    let go (s : ExportSink) :=
      if bool_decide (_open_rows s = ∅) && bool_decide (_tq_by_k s = ∅) then s
      else
        let ks := sorted_keys_le (_tq_by_k s) k_commit in
        let s := foldl (fun s k => commit_row k s) s ks in
        (* Cleanup any leftover event changes already committed (safety). *)
        set_event_changes
          (filter (fun kv => ¬ (fst kv <= k_commit)) (_event_changes s)) s in
    if negb (_header_frozen s) then
      match _channels s with
      | [] => s
      | _ :: _ => go (_write_synced_header s)
      end
    else go s.

(** What the consumer thread does with a payload it took off its queue. *)
Definition handle (p : payload) (s : ExportSink) : ExportSink :=
  match p with
  | Sample k t_q dev pairs => _on_sample k t_q dev pairs s
  | Event k t_q label source current_after =>
      _on_event k t_q label source current_after s
  | Spike k t_q label source => _on_spike k t_q label source s
  end.

(** One turn of the [while] loop of [_run]: [pkt] is what [q.get] returned
    ([None] on [queue.Empty]), [now] the reading of [time.monotonic()].
    [_flush_io] only flushes the file handles. *)
Definition run_iteration (pkt : option payload) (now : Q) (s : ExportSink)
  : ExportSink :=
  let s :=
    match pkt with
    | Some p => handle p (set_last_activity now s)
    | None => s
    end in
  (* Commit up to k_commit using fixed lookahead *)
  let k_commit := _k_seen_max s - _L s in
  let s := _commit_until k_commit s in
  (* Idle watermark *)
  let s :=
    if ltb 0 (_idle_watermark_sec s) then
      let idle_for := (now - _last_activity_monotonic s)%Q in
      if leb (_idle_watermark_sec s) idle_for then
        set_last_activity now (_commit_until (_k_seen_max s) s)
      else s
    else s in
  (* Periodic flush (IO) *)
  if leb (_flush_period s) (now - _last_flush_time s)%Q
     || (_flush_rows_threshold s <=? _pending_committed s)
  then set_pending_committed 0 (set_last_flush_time now s)
  else s.

(** The consumer thread until the stop sentinel is taken off the queue. *)
Definition run (turns : list (option payload * Q)) (s : ExportSink) : ExportSink :=
  foldl (fun s turn => run_iteration (fst turn) (snd turn) s) s turns.

(** [stop()]: after the consumer has left its loop. *)
Definition stop (s : ExportSink) : ExportSink :=
  if negb (_thr s) then s
  else
    let s := set_io false (_synced_writer s) (_markers_writer s) s in
    let s := _commit_until (_k_seen_max s) s in
    set_io false false false s.

(** A whole session: [start()], the consumer's turns, [stop()]. *)
Definition session (turns : list (option payload * Q)) (s : ExportSink) : ExportSink :=
  match start s with
  | (Returned _, s) => stop (run turns s)
  | (Raised _, s) => s
  end.

(** The rows of the synced CSV and of the markers CSV, in file order. *)
Definition synced_rows (log : list write) : list (Z * list string) :=
  omap (fun w => match w with SyncedRow k row => Some (k, row) | _ => None end) log.
Definition markers_rows (log : list write) : list (Z * list string) :=
  omap (fun w => match w with MarkersRow k row => Some (k, row) | _ => None end) log.

(** The columns of a row, counted from the end: a data row ends with
    [spike, event], a marker row with [event, spike, source]. *)
Definition event_column (row : list string) : string := nth 0 (rev row) ""%string.
Definition source_column (row : list string) : string := nth 0 (rev row) ""%string.
Definition marker_event_column (row : list string) : string :=
  nth 2 (rev row) ""%string.

(** The payloads taken off the queue during the turns, and the frame
    indices at which samples or spikes, and events, arrived. *)
Definition payloads (turns : list (option payload * Q)) : list payload :=
  omap fst turns.
Definition sample_or_spike_ks (ps : list payload) : list Z :=
  omap (fun p => match p with
                 | Sample k _ _ _ | Spike k _ _ _ => Some k
                 | Event _ _ _ _ _ => None
                 end) ps.
Definition event_ks (ps : list payload) : list Z :=
  omap (fun p => match p with
                 | Event k _ _ _ _ => Some k
                 | _ => None
                 end) ps.
(** The source text a trigger payload carries. *)
Definition payload_source (p : payload) : option string :=
  match p with
  | Sample _ _ _ _ => None
  | Event _ _ _ source _ | Spike _ _ _ source => Some source
  end.

(** The fields the output depends on. *)
Definition core (s : ExportSink) :=
  (written s, _tq_by_k s, _event_changes s, _sticky_event s,
   _initial_marker_emitted s, _default_event s, _markers_writer s).

(** Every field but [_event_changes] and the output is the same. *)
Definition same_but_events_and_output (s s' : ExportSink) : Prop :=
  _thr s' = _thr s /\ _delta s' = _delta s /\ _k_seen_max s' = _k_seen_max s /\
  _print_k s' = _print_k s /\ _L s' = _L s /\
  _flush_period s' = _flush_period s /\
  _flush_rows_threshold s' = _flush_rows_threshold s /\
  _idle_watermark_sec s' = _idle_watermark_sec s /\
  _last_activity_monotonic s' = _last_activity_monotonic s /\
  _csv_signal_enabled s' = _csv_signal_enabled s /\
  _csv_marker_enabled s' = _csv_marker_enabled s /\
  _channels s' = _channels s /\ _header_frozen s' = _header_frozen s /\
  _default_event s' = _default_event s /\ _sticky_event s' = _sticky_event s /\
  _open_rows s' = _open_rows s /\ _tq_by_k s' = _tq_by_k s /\
  _pending_committed s' = _pending_committed s /\
  _last_flush_time s' = _last_flush_time s /\
  _initial_marker_emitted s' = _initial_marker_emitted s /\
  _synced_writer s' = _synced_writer s /\ _markers_writer s' = _markers_writer s.

(** No marker row of the log has the source "sync". *)
Definition no_sync_marker (log : list write) : Prop :=
  forall k row, MarkersRow k row ∈ log -> source_column row <> "sync"%string.

(** What handling a payload does to the buffered times and to the pending
    changes, and what it may write. *)
Definition tq_after (p : payload) (tq : gmap Z Q) : gmap Z Q :=
  match p with
  | Sample k t_q _ _ | Spike k t_q _ _ => <[k := t_q]> tq
  | Event _ _ _ _ _ => tq
  end.
Definition ec_after (p : payload) (ec : gmap Z string) : gmap Z string :=
  match p with
  | Event k _ _ _ current_after => <[k := current_after]> ec
  | _ => ec
  end.
Definition handler_write (p : payload) (w : write) : Prop :=
  (exists h, w = SyncedHeader h) \/
  (exists k row, w = MarkersRow k row /\ payload_source p = Some (source_column row)).

(** Every frame index that is buffered or has a row in the synced CSV is
    the index of a sample or a spike handled so far. *)
Definition rows_from_data (ps : list payload) (s : ExportSink) : Prop :=
  (forall k, is_Some (_tq_by_k s !! k) -> k ∈ sample_or_spike_ks ps) /\
  (forall k row, SyncedRow k row ∈ written s -> k ∈ sample_or_spike_ks ps).

(** The log holds the initial marker right before the first data row. *)
Definition marker_placed (dflt : string) (ps : list payload) (log : list write) : Prop :=
  exists pre k mrow row post,
    log = pre ++ MarkersRow k mrow :: SyncedRow k row :: post /\
    synced_rows pre = [] /\
    source_column mrow = "sync"%string /\
    no_sync_marker (pre ++ post) /\
    (marker_event_column mrow = dflt \/ exists kk, kk <= k /\ kk ∈ event_ks ps).

Definition marker_inv (dflt : string) (ps : list payload) (s : ExportSink) : Prop :=
  _default_event s = dflt /\ _markers_writer s = true /\
  (forall kk, is_Some (_event_changes s !! kk) -> kk ∈ event_ks ps) /\
  if _initial_marker_emitted s then marker_placed dflt ps (written s)
  else synced_rows (written s) = [] /\ no_sync_marker (written s) /\
       _sticky_event s = dflt.

Definition not_from_sync (p : payload) : Prop :=
  payload_source p <> Some "sync"%string.

(** Scenarios.  A sink on the channel [A:x] with lookahead 3, both CSVs
    enabled, the [k] column printed, default event "REST". *)
Definition demo_config (markers : bool) : Config :=
  {| EVENT_KEYMAP := [("0", "REST"); ("1", "TASK_8")]%string;
     PLOT_DECIMATE_HZ := 0;
     PRINT_K := true;
     LOOKAHEAD_STEPS := None;
     LOOKAHEAD_SEC := None;
     FLUSH_PERIOD_SEC := 1 # 4;
     FLUSH_ROWS := Some 0;
     IDLE_WATERMARK_SEC := 0;
     CSV_SIGNAL_ENABLE := true;
     CSV_MARKER_ENABLE := markers |}.
Definition demo_sink (markers : bool) : ExportSink :=
  __init__ (demo_config markers) (1 # 100) (Some ["A:x"%string]) (Some 3)
    None None None None 0.
Definition demo_sample (k : Z) (v : Q) : option payload * Q :=
  (Some (Sample k (inject_Z k * (1 # 100))%Q "A" [("x"%string, Some (FFin v))]), 0%Q).
Definition demo_event (k : Z) (label : string) : option payload * Q :=
  (Some (Event k (inject_Z k * (1 # 100))%Q label "keyboard" label), 0%Q).

(** Samples at k = 1..7, then a late sample at k = 2. *)
Definition late_turns : list (option payload * Q) :=
  [demo_sample 1 1; demo_sample 2 2; demo_sample 3 3; demo_sample 4 4;
   demo_sample 5 5; demo_sample 6 6; demo_sample 7 7].
Definition late_sample : option payload * Q := demo_sample 2 9.

(** A sample at k = 10, an event change at k = 12, then samples at k = 20
    and k = 24. *)
Definition gap_turns : list (option payload * Q) :=
  [demo_sample 10 1; demo_event 12 "TASK_8"; demo_sample 20 2; demo_sample 24 3].

(** An event change at k = 0 before the first samples. *)
Definition early_event_turns : list (option payload * Q) :=
  [demo_event 0 "TASK_8"; demo_sample 0 1; demo_sample 5 1].

End Exporter.

(* ===================================================================== *)
(** * Vocabulary for further properties of the export sink *)
(* ===================================================================== *)

Module SinkFacts.

Import PyFloat Exporter.

(** The fields that neither a handler nor a commit changes. *)
Definition params (s : ExportSink) :=
  (_thr s, _delta s, _print_k s, _L s, _flush_period s,
   _flush_rows_threshold s, _idle_watermark_sec s, _last_activity_monotonic s,
   _csv_signal_enabled s, _csv_marker_enabled s, _channels s,
   _default_event s, _last_flush_time s, _synced_writer s, _markers_writer s).

(** The fields a whole run leaves as [start()] set them. *)
Definition settings (s : ExportSink) :=
  (_thr s, _delta s, _print_k s, _L s, _idle_watermark_sec s, _channels s,
   _default_event s, _synced_writer s, _markers_writer s).

(** The cell buffered for column [key] of frame [k]: empty when nothing was
    stored ([row_map.get(ch, "")] on [self._open_rows.pop(k, {})]). *)
Definition buffered_cell (s : ExportSink) (k : Z) (key : string) : string :=
  default EmptyString (default ∅ (_open_rows s !! k) !! key).

(** The time buffered for frame [k], with the grid fallback of the commit
    loop. *)
Definition buffered_t_q (s : ExportSink) (k : Z) : Q :=
  default (inject_Z k * _delta s)%Q (_tq_by_k s !! k).

(** The data row the commit loop builds for frame [k] when the sticky event
    is [ev]. *)
Definition data_row (s : ExportSink) (k : Z) (ev : string) : list string :=
  k_prefix s k ++ [_fmt_val (Some (FFin (buffered_t_q s k)))]
    ++ map (buffered_cell s k) (_channels s)
    ++ [buffered_cell s k "spike"] ++ [ev].

(** The header [start()] writes to the synced CSV. *)
Definition synced_header (s : ExportSink) : list string :=
  (if _print_k s then ["k"%string] else [])
    ++ ["t_q"%string] ++ _channels s ++ ["spike"; "event"]%string.

(** The lines of the synced CSV, header included, in file order. *)
Definition synced_file (log : list write) : list (list string) :=
  omap (fun w => match w with
                 | SyncedHeader row | SyncedRow _ row => Some row
                 | _ => None
                 end) log.

(** The marker row a trigger payload produces; a sample produces none. *)
Definition trigger_row (s : ExportSink) (p : payload) : option (Z * list string) :=
  match p with
  | Sample _ _ _ _ => None
  | Event k t_q _ source current_after =>
      Some (k, k_prefix s k ++
                 [_fmt_val (Some (FFin t_q)); current_after; EmptyString; source])
  | Spike k t_q label source =>
      Some (k, k_prefix s k ++
                 [_fmt_val (Some (FFin t_q)); EmptyString; label; source])
  end.
Definition trigger_rows (s : ExportSink) (ps : list payload) : list (Z * list string) :=
  omap (trigger_row s) ps.

(** A payload is on time when its frame index is above the commit watermark
    [k_seen_max - L] of the moment it arrives; events are not buffered. *)
Definition on_time (s : ExportSink) (p : payload) : Prop :=
  match p with
  | Sample k _ _ _ | Spike k _ _ _ => _k_seen_max s - _L s < k
  | Event _ _ _ _ _ => True
  end.

(** The turns of a run all satisfy [ok] in the state they arrive in. *)
Fixpoint run_ok (ok : ExportSink -> payload -> Prop)
  (turns : list (option payload * Q)) (s : ExportSink) : Prop :=
  match turns with
  | [] => True
  | (pkt, now) :: rest =>
      (forall p, pkt = Some p -> ok s p) /\
      run_ok ok rest (run_iteration pkt now s)
  end.

(** The value a packet of device [dev] carries for the column [key]: that
    of the last pair whose column [dev:ch] is [key]. *)
Fixpoint packet_value (dev key : string) (pairs : list (string * value))
  : option value :=
  match pairs with
  | [] => None
  | (ch, v) :: rest =>
      match packet_value dev key rest with
      | Some v' => Some v'
      | None =>
          if bool_decide ((dev +:+ ":" +:+ ch)%string = key) then Some v else None
      end
  end.

(** The string holds a colon. *)
Fixpoint has_colon (s : string) : bool :=
  match s with
  | EmptyString => false
  | String c s' => if bool_decide (c = ":"%char) then true else has_colon s'
  end.

(** The buffers hold nothing above [k_seen_max], and a buffered row has a
    buffered time. *)
Definition buffers_bounded (s : ExportSink) : Prop :=
  (forall k, is_Some (_tq_by_k s !! k) -> k <= _k_seen_max s) /\
  (forall k, is_Some (_open_rows s !! k) -> is_Some (_tq_by_k s !! k)).

(** The synced writer is open and the header is written. *)
Definition writing (s : ExportSink) : Prop :=
  _synced_writer s = true /\ _header_frozen s = true.

(** The committed frame indices, in file order. *)
Definition committed_ks (s : ExportSink) : list Z :=
  (synced_rows (written s)).*1.

(** A sink between [start()] and [stop()]: if it writes the synced CSV the
    header is there, and its buffers are bounded by [k_seen_max]. *)
Definition base_inv (s : ExportSink) : Prop :=
  (_synced_writer s = true -> _header_frozen s = true) /\ buffers_bounded s.

(** Every sample or spike handled so far is buffered or has its row. *)
Definition all_accounted (ps : list payload) (s : ExportSink) : Prop :=
  forall k, k ∈ sample_or_spike_ks ps ->
    is_Some (_tq_by_k s !! k) \/ exists row, SyncedRow k row ∈ written s.

(** With the idle watermark off, what is committed while the consumer runs is
    at or below the watermark [k_seen_max - L]. *)
Definition look_inv (s : ExportSink) : Prop :=
  base_inv s /\ ltb 0 (_idle_watermark_sec s) = false /\
  forall k, k ∈ committed_ks s -> k <= _k_seen_max s - _L s.

(** The committed frames ascend and lie below every buffered frame. *)
Definition ascending (s : ExportSink) : Prop :=
  StronglySorted Z.lt (committed_ks s) /\
  forall k', k' ∈ committed_ks s -> forall k, is_Some (_tq_by_k s !! k) -> k' < k.

(** The synced CSV of [s] is the header of [r] followed by the data rows,
    each as wide as the header. *)
Definition shape (r s : ExportSink) : Prop :=
  _print_k s = _print_k r /\ _channels s = _channels r /\
  synced_file (written s) = synced_header r :: (synced_rows (written s)).*2 /\
  Forall (fun row => length row = length (synced_header r))
         (synced_rows (written s)).*2.

(** The markers CSV of [s] holds the rows of the triggers [ps] in the order
    of arrival, and at most one more row where a commit put it. *)
Definition marker_log (r : ExportSink) (ps : list payload) (s : ExportSink) : Prop :=
  _print_k s = _print_k r /\
  exists l1 init l2,
    markers_rows (written s) = l1 ++ init ++ l2 /\
    l1 ++ l2 = trigger_rows r ps /\
    (length init <= 1)%nat /\
    (_initial_marker_emitted s = false -> init = []).

(** The frame a sample or a spike is for. *)
Definition frame_of (p : payload) : option Z :=
  match p with
  | Sample k _ _ _ | Spike k _ _ _ => Some k
  | Event _ _ _ _ _ => None
  end.

(** What handling [p] makes of the cell of column [key] of frame [k] that
    held [old], for a sink on the channels [chans]; and the cell after the
    payloads [ps], from an empty one. *)
Definition cell_after (chans : list string) (p : payload) (k : Z)
  (key old : string) : string :=
  match p with
  | Sample k' _ dev pairs =>
      if bool_decide (k = k' /\ key ∈ chans) then
        match packet_value dev key pairs with
        | Some v => _fmt_val v
        | None => old
        end
      else old
  | Spike k' _ label _ =>
      if bool_decide (k = k' /\ key = "spike"%string) then label else old
  | Event _ _ _ _ _ => old
  end.
Definition cell_of (chans : list string) (ps : list payload) (k : Z)
  (key : string) : string :=
  foldl (fun old p => cell_after chans p k key old) EmptyString ps.

(** The same for the quantized time of frame [k]. *)
Definition time_after (p : payload) (k : Z) (old : option Q) : option Q :=
  match p with
  | Sample k' t_q _ _ | Spike k' t_q _ _ =>
      if bool_decide (k = k') then Some t_q else old
  | Event _ _ _ _ _ => old
  end.
Definition time_of (ps : list payload) (k : Z) : option Q :=
  foldl (fun old p => time_after p k old) None ps.

(** The row of frame [k] that holds the last time and the last values the
    payloads [ps] carry for the frame, with the event [ev]. *)
Definition row_of (r : ExportSink) (ps : list payload) (k : Z) (ev : string)
  : list string :=
  k_prefix r k
    ++ [_fmt_val (Some (FFin (default (inject_Z k * _delta r)%Q (time_of ps k))))]
    ++ map (cell_of (_channels r) ps k) (_channels r)
    ++ [cell_of (_channels r) ps k "spike"] ++ [ev].

(** The buffers hold what the payloads brought for the frames that wait,
    and every row written is the row of its frame. *)
Definition history_inv (r : ExportSink) (ps : list payload) (s : ExportSink) : Prop :=
  (_print_k s = _print_k r /\ _channels s = _channels r /\ _delta s = _delta r) /\
  (forall k key,
     buffered_cell s k key
     = if bool_decide (is_Some (_tq_by_k s !! k))
       then cell_of (_channels r) ps k key else EmptyString) /\
  (forall k, is_Some (_tq_by_k s !! k) -> _tq_by_k s !! k = time_of ps k) /\
  (forall k row, (k, row) ∈ synced_rows (written s) ->
                 exists ev, row = row_of r ps k ev).

End SinkFacts.

(* ===================================================================== *)
(** * Vocabulary for further properties of the synchronizer *)
(* ===================================================================== *)

Module SyncFacts.

Import PyFloat Sync.

(** Every field of the manager but the queues and the decimation state. *)
Definition wiring (s : SyncManager) :=
  (_started s, _session_t0 s, _delta s, _tq_decimals s, _anchors s,
   _default_event s, _current_event s, _sinks s, _plot_sinks s,
   _plot_decimate_dt s).




End SyncFacts.

(* ===================================================================== *)
(** * The producer side of the synchronizer: [enqueue_packet] *)
(* ===================================================================== *)

Module Producer.

(** [self._max_queue = int(max_queue if max_queue >= 0 else 0)]. *)
Definition _max_queue (max_queue : Z) : Z :=
  if 0 <=? max_queue then max_queue else 0.

(** [queue.Queue(maxsize)]: the items, oldest first.  [put_nowait] raises
    [queue.Full] ([None]) when [0 < maxsize <= qsize]; [get_nowait] raises
    [queue.Empty] ([None]) on an empty queue. *)
Definition put_nowait {A} (maxsize : Z) (x : A) (q : list A) : option (list A) :=
  if (0 <? maxsize) && (maxsize <=? Z.of_nat (length q)) then None
  else Some (q ++ [x]).

Definition get_nowait {A} (q : list A) : option (A * list A) :=
  match q with
  | [] => None
  | x :: q' => Some (x, q')
  end.

(** [enqueue_packet] of a manager built with [max_queue], run without
    another thread touching the queue in between. *)
Definition enqueue_packet {A} (max_queue : Z) (pkt : A) (q : list A) : list A :=
  let mq := _max_queue max_queue in
  if 0 <? mq then
    match put_nowait mq pkt q with
    | Some q' => q'
    | None =>
        let q := match get_nowait q with
                 | Some (_, q') => q'
                 | None => q
                 end in
        match put_nowait mq pkt q with
        | Some q' => q'
        | None => q
        end
    end
  else
    match put_nowait mq pkt q with
    | Some q' => q'
    | None => q
    end.

(** The packets of [pkts] enqueued one after the other. *)
Definition enqueue_all {A} (max_queue : Z) (pkts q : list A) : list A :=
  foldl (fun q pkt => enqueue_packet max_queue pkt q) q pkts.

End Producer.

(* ===================================================================== *)
(** * acquisition/unicorn_lsl_timebase.py *)
(* ===================================================================== *)

Module UnicornTimebase.

Import PyFloat.

(** The fields of [UnicornLSLTimebase]. *)
Record UnicornLSLTimebase := mkTimebase {
  _fs : Q;
  _dt : Q;
  _anchored : bool;
  _t_curr : Q;
  _last_wall : Q;
  _soft_gap_sec : Q
}.

(** [__init__(fs_hz)]: [float(fs_hz) if fs_hz and fs_hz > 0 else 250.0]. *)
Definition __init__ (fs_hz : Q) : UnicornLSLTimebase :=
  let fs := if ltb 0 fs_hz then fs_hz else 250%Q in
  {| _fs := fs; _dt := (1 / fs)%Q; _anchored := false; _t_curr := 0;
     _last_wall := 0; _soft_gap_sec := 1 # 4 |}.

(** [reset()]. *)
Definition reset (s : UnicornLSLTimebase) : UnicornLSLTimebase :=
  mkTimebase (_fs s) (_dt s) false 0 0 (_soft_gap_sec s).

(** [prime_from_first_stamp(first_stamp)]. *)
Definition prime_from_first_stamp (first_stamp : Q) (s : UnicornLSLTimebase)
  : UnicornLSLTimebase :=
  mkTimebase (_fs s) (_dt s) true first_stamp first_stamp (_soft_gap_sec s).

(** [next_tick(last_seen_lsl_stamp)]: the tick returned and the state
    left. *)
Definition next_tick (last_seen_lsl_stamp : option Q) (s : UnicornLSLTimebase)
  : Q * UnicornLSLTimebase :=
  let s :=
    if negb (_anchored s) then
      (* Defensive: if called unprimed, self-prime on provided stamp or 0 *)
      let base := default 0%Q last_seen_lsl_stamp in
      mkTimebase (_fs s) (_dt s) true base base (_soft_gap_sec s)
    else s in
  (* Optional soft realign on long inactivity *)
  let s :=
    match last_seen_lsl_stamp with
    | Some wall =>
        let t_curr :=
          if leb (_soft_gap_sec s) (wall - _last_wall s)%Q then wall
          else _t_curr s in
        mkTimebase (_fs s) (_dt s) (_anchored s) t_curr wall (_soft_gap_sec s)
    | None => s
    end in
  let out := _t_curr s in
  (out, mkTimebase (_fs s) (_dt s) (_anchored s) (out + _dt s)%Q (_last_wall s)
          (_soft_gap_sec s)).

(** The ticks of a sequence of calls. *)
Fixpoint ticks (stamps : list (option Q)) (s : UnicornLSLTimebase) : list Q :=
  match stamps with
  | [] => []
  | stamp :: rest =>
      let '(out, s') := next_tick stamp s in out :: ticks rest s'
  end.

(** No stamp is a soft gap or more after the stamp seen before it. *)
Fixpoint calm (gap last_wall : Q) (stamps : list (option Q)) : Prop :=
  match stamps with
  | [] => True
  | None :: rest => calm gap last_wall rest
  | Some wall :: rest => (wall - last_wall < gap)%Q /\ calm gap wall rest
  end.

End UnicornTimebase.

(* ===================================================================== *)
(** * utils/helpers.py *)
(* ===================================================================== *)

Module Helpers.

(** The value under [CHANNELS]: a dict [{name: bool}], a list of names, or
    anything else. *)
Inductive channels_cfg :=
  | ChDict (items : list (string * bool))
  | ChList (names : list string)
  | ChOther.

(** One entry of [INSTANCES].  [ENABLED] is read with the default [False]
    and [DEVICE_NAME] with the default [""]; [EXPORT_ENABLE] is read with
    two different defaults, so a missing key is [None]; [FS] is [None] when
    the key is missing or [float()] fails on it. *)
Record instance := mkInstance {
  ENABLED : bool;
  EXPORT_ENABLE : option bool;
  DEVICE_NAME : string;
  CHANNELS : channels_cfg;
  FS : option Q
}.

(** [config["devices"]]: type name -> block, each with its [INSTANCES]. *)
Abbreviation devices := (list (string * list instance)).

(** The instances in the order of the two nested loops. *)
Definition instances (cfg : devices) : list instance :=
  concat (map snd cfg).

(** [compute_fs_max_from_config]: the instances whose [FS] is taken. *)
Definition counts_for_fs (inst : instance) : bool :=
  ENABLED inst && default true (EXPORT_ENABLE inst).

Definition fs_values (cfg : devices) : list Q :=
  omap (fun inst => if counts_for_fs inst then FS inst else None) (instances cfg).

(** [max(fs_values)] on a non-empty list. *)
Definition py_max (x : Q) (l : list Q) : Q :=
  foldl (fun m y => if PyFloat.ltb m y then y else m) x l.

Definition compute_fs_max_from_config (cfg : devices) : Q :=
  match fs_values cfg with
  | [] => 250
  | x :: l => py_max x l
  end.

(** The enabled channel names of an instance. *)
Definition enabled_channels (chs : channels_cfg) : list string :=
  match chs with
  | ChDict items => map fst (filter (fun kv => snd kv = true) items)
  | ChList names => names
  | ChOther => []
  end.

Section Strip.

(** [str.strip()]. *)
Variable strip : string -> string.

(** The body of the innermost loop: [cols] and [seen]. *)
Definition add_column (key : string) (st : list string * gset string)
  : list string * gset string :=
  if bool_decide (key ∈ snd st) then st
  else (fst st ++ [key], {[ key ]} ∪ snd st).

(** The body of the loop over the instances. *)
Definition collect_instance (inst : instance) (st : list string * gset string)
  : list string * gset string :=
  if negb (ENABLED inst) then st
  else if negb (default false (EXPORT_ENABLE inst)) then st
  else
    let dev := strip (DEVICE_NAME inst) in
    if bool_decide (dev = EmptyString) then st
    else
      let enabled := enabled_channels (CHANNELS inst) in
      match enabled with
      | [] => st
      | _ :: _ =>
          foldl (fun st ch => add_column (dev +:+ ":" +:+ ch)%string st) st enabled
      end.

Definition collect_known_channels_from_config (cfg : devices) : list string :=
  fst (foldl (fun st inst => collect_instance inst st) ([], ∅) (instances cfg)).

(** The columns an instance contributes. *)
Definition exports (inst : instance) (key : string) : Prop :=
  ENABLED inst = true /\ EXPORT_ENABLE inst = Some true /\
  strip (DEVICE_NAME inst) <> EmptyString /\
  exists ch, ch ∈ enabled_channels (CHANNELS inst) /\
             key = (strip (DEVICE_NAME inst) +:+ ":" +:+ ch)%string.

End Strip.

End Helpers.

(* ===================================================================== *)
(** * processing/rt_filter.py: the validation of a filter specification *)
(* ===================================================================== *)

Module RtFilter.

Import PyFloat.

(** The keys of a filter [spec] dict; a missing key is [None]. *)
Record spec := mkSpec {
  BANDPASS_ENABLE : option bool;
  BANDPASS_ORDER : option Z;
  LOW_HZ : option Q;
  HIGH_HZ : option Q;
  NOTCH : option Z;
  NOTCH_Q : option Q
}.

(** [_parse_spec(fs_hz, spec)]: (bp_enable, bp_order, low, high, notch,
    notch_q). *)
Definition _parse_spec (fs_hz : Q) (sp : spec) : bool * Z * Q * Q * Z * Q :=
  let bp_enable := default false (BANDPASS_ENABLE sp) in
  let bp_order := default 4 (BANDPASS_ORDER sp) in
  let low_hz := default (1 # 10)%Q (LOW_HZ sp) in
  let high_hz := default 10%Q (HIGH_HZ sp) in
  let notch := default 0 (NOTCH sp) in
  let notch_q := default 30%Q (NOTCH_Q sp) in
  (* Validate band edges; disable BP if invalid to avoid unstable designs. *)
  let nyq := (fs_hz / 2)%Q in
  let bp_valid :=
    bp_enable && ltb 0 low_hz && ltb low_hz high_hz && ltb high_hz nyq
      && (1 <=? bp_order) in
  let bp_enable := if bp_enable && negb bp_valid then false else bp_enable in
  (* Validate notch: only 50 or 60 are accepted; 0 disables. *)
  let notch :=
    if negb ((notch =? 0) || (notch =? 50) || (notch =? 60)) then 0 else notch in
  (* Validate Q; guard against non-positive values. *)
  let notch :=
    if negb (notch =? 0) && leb notch_q 0 then 0 else notch in
  (bp_enable, bp_order, low_hz, high_hz, notch, notch_q).

End RtFilter.

(* ===================================================================== *)
(** * acquisition/handlers/handler_shimmer_gsr.py: the decoding of GSR_RAW *)
(* ===================================================================== *)

Module ShimmerGsr.

Import PyFloat.

(** [RFEEDBACK_MAP]. *)
Definition RFEEDBACK_MAP : list (Z * Z) :=
  [(0, 40200); (1, 287000); (2, 1000000); (3, 3300000)].

(** [d.get(key, default)] on a dict given by its items. *)
Fixpoint dict_get (d : list (Z * Z)) (key dflt : Z) : Z :=
  match d with
  | [] => dflt
  | (k, v) :: rest => if k =? key then v else dict_get rest key dflt
  end.

(** The range code and the ADC count packed in [gsr_raw]. *)
Definition range_code (gsr_raw : Z) : Z := Z.land (Z.shiftr gsr_raw 14) 3.
Definition adc (gsr_raw : Z) : Z := Z.land gsr_raw 16383.

Definition r_feedback (gsr_raw : Z) : Z :=
  dict_get RFEEDBACK_MAP (range_code gsr_raw) 40200.

Definition vin (VREF_GSR : Q) (gsr_raw : Z) : Q :=
  (inject_Z (adc gsr_raw) / 16383 * VREF_GSR)%Q.

(** The conductance in microsiemens the handler computes from [gsr_raw],
    [None] for an invalid sample. *)
Definition gsr_uS (VREF_GSR V_BIAS : Q) (gsr_raw : Z) : option Q :=
  let v := vin VREF_GSR gsr_raw in
  if ltb 0 v && ltb v V_BIAS then
    let r_skin := (inject_Z (r_feedback gsr_raw) * (V_BIAS / v - 1))%Q in
    let floor_r := (1 # 1000000000000)%Q in
    (* max(r_skin, 1e-12) *)
    Some (1000000 / (if ltb r_skin floor_r then floor_r else r_skin))%Q
  else None.

End ShimmerGsr.

(* ===================================================================== *)
(** * Properties of the device timebase *)
(* ===================================================================== *)

Section TimebaseProofs.

Import ShimmerTimebase.





Lemma device_time_s_unfold ts_raw key (S : STATE) :
  device_time_s ts_raw key S =
    (seconds_of_ticks (fst (step_entry ts_raw (default fresh_entry (S !! key)))),
     <[key := snd (step_entry ts_raw (default fresh_entry (S !! key)))]> S).
Proof.
  unfold device_time_s. destruct (step_entry _ _); reflexivity.
Qed.

Lemma run_cons key ts_raw rest (S : STATE) :
  run ((key, ts_raw) :: rest) S =
    ((key, fst (device_time_s ts_raw key S))
       :: fst (run rest (snd (device_time_s ts_raw key S))),
     snd (run rest (snd (device_time_s ts_raw key S)))).
Proof.
  simpl. destruct (device_time_s ts_raw key S) as [t S'].
  simpl. destruct (run rest S'); reflexivity.
Qed.





(** C8 as stated fails: the first call anchors the timebase, so the seconds
    returned start at zero, not at 65530/32768. *)
Lemma rollover_scenario_not_absolute :
  ~ Forall2 Qeq rollover_scenario
      [65530 # 32768; 65535 # 32768; 65539 # 32768; 65546 # 32768]%Q.
Proof.
  intros H. vm_compute in H.
  apply Forall2_cons_1 in H as [H _]. vm_compute in H. discriminate H.
Qed.

(** C8, amended.  Fed the raw ticks 65530, 65535, 3, 10 in order (one key,
    32768 Hz, modulus 65536), [device_time_s] returns the seconds elapsed
    since the first tick: 0, 5/32768, 9/32768 and 16/32768, that is, the
    values (65530, 65535, 65539, 65546)/32768 less the anchor 65530/32768;
    they are strictly increasing. *)
Theorem rollover_scenario_relative :
  rollover_scenario = [0 # 32768; 5 # 32768; 9 # 32768; 16 # 32768]%Q /\
  Forall2 (fun t abs => t == abs - (65530 # 32768))%Q rollover_scenario
    [65530 # 32768; 65535 # 32768; 65539 # 32768; 65546 # 32768]%Q /\
  Sorted Qlt rollover_scenario.
Proof.
  split; [reflexivity|]. split.
  - vm_compute. repeat constructor.
  - vm_compute. repeat constructor.
Qed.

End TimebaseProofs.

(* ===================================================================== *)
(** * Properties of the quantizer *)
(* ===================================================================== *)

Section QuantizerProofs.

Import PyFloat Sync.

Lemma ltb_spec (x y : Q) : ltb x y = true <-> (x < y)%Q.
Proof.
  unfold ltb. rewrite negb_true_iff. split; intros H.
  - apply Qnot_le_lt. intros Hle. apply Qle_bool_iff in Hle. congruence.
  - destruct (Qle_bool y x) eqn:E; [|reflexivity].
    apply Qle_bool_iff in E. exfalso. exact (Qlt_not_le _ _ H E).
Qed.

(** On a non-negative float, [int] and [math.floor] agree. *)
Lemma py_int_floor (x : Q) : (0 <= x)%Q -> py_int x = Qfloor x.
Proof.
  destruct x as [n d]. unfold Qle, py_int, Qfloor. simpl. intros H.
  apply Z.quot_div_nonneg; lia.
Qed.

Lemma pow10_steps_spec (fuel : nat) :
  forall x y, 0 < x -> y <= x * 2 ^ Z.of_nat fuel ->
    0 <= pow10_steps fuel x y /\
    y <= x * 10 ^ pow10_steps fuel x y /\
    (0 < pow10_steps fuel x y -> x * 10 ^ (pow10_steps fuel x y - 1) < y).
Proof.
  induction fuel as [|fuel IH]; intros x y Hx Hy.
  - simpl in *. lia.
  - cbn [pow10_steps]. destruct (Z.leb_spec y x) as [Hle|Hgt].
    + simpl. lia.
    + assert (Hy' : y <= 10 * x * 2 ^ Z.of_nat fuel).
      { rewrite Nat2Z.inj_succ, Z.pow_succ_r in Hy by lia.
        assert (0 < 2 ^ Z.of_nat fuel) by (apply Z.pow_pos_nonneg; lia). nia. }
      destruct (IH (10 * x) y ltac:(lia) Hy') as (H0 & Hup & Hlow).
      set (n := pow10_steps fuel (10 * x) y) in *.
      split; [lia|]. split.
      * replace (1 + n) with (Z.succ n) by lia.
        rewrite Z.pow_succ_r by lia. lia.
      * intros _. replace (1 + n - 1) with n by lia.
        destruct (Z.eq_dec n 0) as [->|Hn]; [simpl; lia|].
        specialize (Hlow ltac:(lia)).
        replace n with (Z.succ (n - 1)) at 1 by lia.
        rewrite Z.pow_succ_r by lia. lia.
Qed.

Lemma pow10_fuel_enough (x y : Z) :
  0 < x -> 0 < y -> y <= x * 2 ^ Z.of_nat (pow10_fuel y).
Proof.
  intros Hx Hy. unfold pow10_fuel.
  pose proof (Z.log2_nonneg y) as Hl.
  pose proof (Z.log2_spec y Hy) as [_ Hlt].
  rewrite Nat2Z.inj_succ, Z2Nat.id by lia.
  assert (0 < 2 ^ Z.succ (Z.log2 y)) by (apply Z.pow_pos_nonneg; lia).
  nia.
Qed.

Lemma Qpow10_nonneg (m : Z) : 0 <= m -> (10 ^ m == inject_Z (10 ^ m))%Q.
Proof. intros H. symmetry. apply (Zpower_Qpower 10 m H). Qed.

Lemma Qpow10_pos (m : Z) : (0 < 10 ^ m)%Q.
Proof. apply Qpower_0_lt. reflexivity. Qed.

Lemma Qpow10_neg (m : Z) : (10 ^ (- m) == 1 / 10 ^ m)%Q.
Proof. rewrite Qpower_opp. unfold Qdiv. rewrite Qmult_1_l. reflexivity. Qed.

(** The search computes the ceiling of the negated decimal logarithm. *)
Lemma ceil_neg_log10_spec (delta : Q) :
  (0 < delta)%Q -> is_ceil_neg_log10 delta (ceil_neg_log10 delta).
Proof.
  destruct delta as [a b]. intros Hpos.
  assert (Ha : 0 < a) by (unfold Qlt in Hpos; simpl in Hpos; lia).
  unfold is_ceil_neg_log10, ceil_neg_log10. cbn [Qnum Qden].
  destruct (Z.ltb_spec a (Z.pos b)) as [Hlt|Hge].
  - destruct (pow10_steps_spec (pow10_fuel (Z.pos b)) a (Z.pos b) Ha
                (pow10_fuel_enough a (Z.pos b) Ha ltac:(lia))) as (H0 & Hup & Hlow).
    set (n := pow10_steps _ a (Z.pos b)) in *.
    assert (Hn : 0 < n).
    { destruct (Z.eq_dec n 0) as [E|]; [|lia]. rewrite E in Hup. simpl in Hup. lia. }
    specialize (Hlow Hn). split.
    + rewrite Qpow10_neg. apply Qle_shift_div_r; [apply Qpow10_pos|].
      rewrite (Qpow10_nonneg n) by lia.
      unfold Qle, Qmult, inject_Z. simpl. lia.
    + replace (1 - n) with (- (n - 1)) by lia.
      rewrite Qpow10_neg. apply Qlt_shift_div_l; [apply Qpow10_pos|].
      rewrite (Qpow10_nonneg (n - 1)) by lia.
      unfold Qlt, Qmult, inject_Z. simpl. lia.
  - destruct (pow10_steps_spec (pow10_fuel (a + 1)) (Z.pos b) (a + 1) ltac:(lia)
                (pow10_fuel_enough (Z.pos b) (a + 1) ltac:(lia) ltac:(lia)))
      as (H0 & Hup & Hlow).
    set (j := pow10_steps _ (Z.pos b) (a + 1)) in *.
    assert (Hj : 0 < j).
    { destruct (Z.eq_dec j 0) as [E|]; [|lia]. rewrite E in Hup. simpl in Hup. lia. }
    specialize (Hlow Hj). split.
    + replace (- (1 - j)) with (j - 1) by lia.
      rewrite (Qpow10_nonneg (j - 1)) by lia.
      unfold Qle, inject_Z. simpl. lia.
    + replace (1 - (1 - j)) with j by lia.
      rewrite (Qpow10_nonneg j) by lia.
      unfold Qlt, inject_Z. simpl. lia.
Qed.

(** The ceiling is unique: the characterisation determines [n]. *)
Lemma is_ceil_neg_log10_unique (delta : Q) (n m : Z) :
  is_ceil_neg_log10 delta n -> is_ceil_neg_log10 delta m -> n = m.
Proof.
  assert (Hmono : forall e1 e2, (10 ^ e1 < 10 ^ e2)%Q -> e1 < e2).
  { intros e1 e2 H. destruct (Z.lt_ge_cases e1 e2) as [|Hge]; [assumption|].
    exfalso. apply (Qlt_not_le _ _ H).
    replace e1 with (e2 + (e1 - e2)) by lia.
    rewrite Qpower_plus by discriminate.
    rewrite <- (Qmult_1_r (10 ^ e2)) at 1.
    apply Qmult_le_l; [apply Qpow10_pos|].
    rewrite (Qpow10_nonneg (e1 - e2)) by lia.
    unfold Qle, inject_Z. simpl.
    assert (0 < 10 ^ (e1 - e2)) by (apply Z.pow_pos_nonneg; lia). lia. }
  intros [Hn1 Hn2] [Hm1 Hm2].
  assert (- n < 1 - m) by (apply Hmono; eapply Qle_lt_trans; eassumption).
  assert (- m < 1 - n) by (apply Hmono; eapply Qle_lt_trans; eassumption).
  lia.
Qed.

Lemma _decimals_from_delta_range (delta : Q) :
  0 <= _decimals_from_delta delta <= 9.
Proof. unfold _decimals_from_delta. destruct (negb _); lia. Qed.

(** The decimal count of a session: D = clamp(ceil(-log10 delta) + 2, 0, 9)
    for the step the session was started with. *)
Lemma start_session_decimals (cfg : Config) (delta now0 : Q) (s0 : SyncManager) :
  (0 < delta)%Q -> _started s0 = false ->
  let s := snd (start_session cfg delta now0 s0) in
  _delta s = Some delta /\
  exists n, is_ceil_neg_log10 delta n /\
            (forall m, is_ceil_neg_log10 delta m -> m = n) /\
            _tq_decimals s = clamp (n + 2) 0 9.
Proof.
  intros Hd Hs0. unfold start_session. rewrite Hs0.
  pose proof (proj2 (ltb_spec 0 delta) Hd) as Hlt. rewrite Hlt.
  cbn [negb snd _delta _tq_decimals]. split; [reflexivity|].
  exists (ceil_neg_log10 delta).
  pose proof (ceil_neg_log10_spec delta Hd) as Hn.
  split; [exact Hn|]. split.
  - intros m Hm. exact (is_ceil_neg_log10_unique delta m _ Hm Hn).
  - unfold _decimals_from_delta, clamp. rewrite Hlt. reflexivity.
Qed.

(** C5.  The quantized time drifts off the grid.  A session started with
    the step of a 250 Hz device, [delta = 1.0 / 250] (the double 0.004),
    keeps the step and the decimal count
    D = clamp(ceil(-log10 delta) + 2, 0, 9) = 5.  At the host time 0.292 the
    formulas give k = floor(t/delta + 0.5) = 73 and
    t_q = floor(k delta 10^D)/10^D = 0.292.  The quantizer returns k = 73,
    leaving the state as it is, but its t_q is the double 0.29199: the
    product [k * delta] is rounded to the double below 0.292, whose product
    by [10.0 ** 5] is rounded below 29200, and the floor is 29199.  The
    time cell of the CSV row reads 0.291990. *)
Theorem quantize_floor_drift :
  let cfg := mkConfig [] 0 true None None 0 None 0 true true in
  let delta := fdiv 1 250 in
  let t := b64 (292 # 1000) in
  let s := snd (start_session cfg delta 0 (__init__ ∅)) in
  _delta s = Some delta /\
  (is_ceil_neg_log10 delta 3 /\ _tq_decimals s = clamp (3 + 2) 0 9) /\
  spec_k t delta = 73 /\
  (spec_t_q 73 delta (_tq_decimals s) == 292 # 1000)%Q /\
  exists t_q,
    _quantize t s = (Returned (73, t_q), s) /\
    (t_q == b64 (29199 # 100000))%Q /\
    (t_q < spec_t_q 73 delta (_tq_decimals s))%Q /\
    format_6f (FFin t_q) = "0.291990"%string /\
    format_6f (FFin (spec_t_q 73 delta (_tq_decimals s))) = "0.292000"%string.
Proof.
  intros cfg delta t s.
  assert (Hd : (0 < delta)%Q) by (vm_compute; reflexivity).
  destruct (start_session_decimals cfg delta 0 (__init__ ∅) Hd eq_refl)
    as (Hdelta & n & Hn & Huniq & HD).
  fold s in Hdelta, HD.
  assert (H3 : is_ceil_neg_log10 delta 3).
  { split; [vm_compute; discriminate|vm_compute; reflexivity]. }
  rewrite <- (Huniq 3 H3) in HD.
  split; [exact Hdelta|]. split; [split; [exact H3|exact HD]|].
  split; [vm_compute; reflexivity|].
  split; [vm_compute; reflexivity|].
  exists (match fst (_quantize t s) with
          | Returned (_, t_q) => t_q
          | Raised _ => 0%Q
          end).
  split; [vm_compute; reflexivity|].
  split; [vm_compute; reflexivity|].
  split; [vm_compute; reflexivity|].
  split; vm_compute; reflexivity.
Qed.

End QuantizerProofs.

(* ===================================================================== *)
(** * Properties of the event and spike triggers *)
(* ===================================================================== *)

Section TriggerProofs.

Import PyFloat Sync.

Lemma _emit_to_plot_sinks_session p s :
  session_fields (_emit_to_plot_sinks p s) = session_fields s.
Proof.
  unfold _emit_to_plot_sinks.
  destruct p; destruct (_plot_decimate_dt s); try reflexivity.
  destruct (negb _); [reflexivity|].
  destruct (decimate _ _ _ _) as [[|? ?] ?]; reflexivity.
Qed.

Lemma _emit_to_sinks_session p s :
  fst (_emit_to_sinks p s) = Returned tt /\
  session_fields (snd (_emit_to_sinks p s)) = session_fields s.
Proof.
  unfold _emit_to_sinks. cbn [_plot_sinks set_queues].
  destruct (_plot_sinks s); cbn [fst snd]; split; try reflexivity.
  rewrite _emit_to_plot_sinks_session. reflexivity.
Qed.

Lemma _emit_to_sinks_marker p s :
  is_marker p = true ->
  _emit_to_sinks p s =
    (Returned tt,
     set_queues (put_all p (_plot_sinks s) (put_all p (_sinks s) (queues s))) s).
Proof.
  intros Hp. unfold _emit_to_sinks, _emit_to_plot_sinks.
  cbn [_plot_sinks set_queues queues _plot_decimate_dt].
  destruct (_plot_sinks s); destruct p; try discriminate; reflexivity.
Qed.

Lemma put_all_cons p x sinks (qs : gmap nat Queue) :
  put_all p (x :: sinks) qs =
    put_all p sinks
      match qs !! x with
      | Some q => match put_nowait p q with
                  | Some q' => <[x := q']> qs
                  | None => qs
                  end
      | None => qs
      end.
Proof. reflexivity. Qed.

Lemma put_nowait_unbounded p q :
  maxsize q = 0%nat -> put_nowait p q = Some (mkQueue 0 (items q ++ [p])).
Proof. intros H. unfold put_nowait. rewrite H. reflexivity. Qed.

(** Every unbounded queue of the list receives the payload, and nothing else
    is put on it. *)
Lemma put_all_unbounded p sinks :
  forall (qs : gmap nat Queue) a q,
    qs !! a = Some q -> maxsize q = 0%nat ->
    exists n, put_all p sinks qs !! a
                = Some (mkQueue 0 (items q ++ replicate n p)) /\
              (a ∈ sinks -> (1 <= n)%nat).
Proof.
  induction sinks as [|x sinks IH]; intros qs a q Hq Hmax.
  - exists 0%nat. simpl. rewrite app_nil_r. split.
    + rewrite Hq. destruct q; simpl in *; subst; reflexivity.
    + intros H. inversion H.
  - rewrite put_all_cons.
    destruct (decide (x = a)) as [->|Hne].
    + rewrite Hq, (put_nowait_unbounded p q Hmax).
      destruct (IH (<[a := mkQueue 0 (items q ++ [p])]> qs) a
                  (mkQueue 0 (items q ++ [p])) (lookup_insert_eq _ _ _) eq_refl)
        as (n & Hn & _).
      exists (S n). split; [|lia].
      rewrite Hn. cbn [items replicate]. rewrite <- app_assoc. reflexivity.
    + assert (Hstep : forall qs' : gmap nat Queue, qs' !! a = Some q ->
                exists n, put_all p sinks qs' !! a
                            = Some (mkQueue 0 (items q ++ replicate n p)) /\
                          (a ∈ x :: sinks -> (1 <= n)%nat)).
      { intros qs' Hq'. destruct (IH qs' a q Hq' Hmax) as (n & Hn & Hin).
        exists n. split; [exact Hn|]. intros H.
        apply elem_of_cons in H as [->|H]; [congruence|auto]. }
      destruct (qs !! x) as [qx|] eqn:Ex; [|apply Hstep; exact Hq].
      destruct (put_nowait p qx); [|apply Hstep; exact Hq].
      apply Hstep. rewrite lookup_insert_ne by assumption. exact Hq.
Qed.

Lemma put_all_emitted p sinks plots (qs : gmap nat Queue) a q :
  qs !! a = Some q -> maxsize q = 0%nat -> a ∈ sinks ->
  exists n, put_all p plots (put_all p sinks qs) !! a
              = Some (mkQueue 0 (items q ++ replicate (S n) p)).
Proof.
  intros Hq Hmax Hin.
  destruct (put_all_unbounded p sinks qs a q Hq Hmax) as (n & Hn & Hge).
  specialize (Hge Hin).
  destruct (put_all_unbounded p plots _ a _ Hn eq_refl) as (m & Hm & _).
  cbn [items] in Hm. exists (n + m - 1)%nat. rewrite Hm.
  rewrite <- app_assoc, <- replicate_add.
  replace (S (n + m - 1)) with (n + m)%nat by lia. reflexivity.
Qed.

Lemma set_event_running label source now s t0 delta :
  source <> ""%string -> _session_t0 s = Some t0 -> _delta s = Some delta ->
  exists k t_q,
    let p := Event k t_q (toggled s label) source (toggled s label) in
    let s1 := set_current_event (toggled s label) s in
    set_event label source now s =
      (Returned p,
       set_queues (put_all p (_plot_sinks s) (put_all p (_sinks s) (queues s))) s1).
Proof.
  intros Hsrc Ht0 Hd. unfold set_event.
  rewrite bool_decide_eq_false_2 by exact Hsrc.
  unfold mbind, M_bind, bind, _host_rel_now, _quantize, modify, get, ret.
  rewrite Ht0, Hd.
  eexists _, _. cbn zeta.
  match goal with
  | |- context [_emit_to_sinks ?p ?s'] =>
      rewrite (_emit_to_sinks_marker p s' eq_refl)
  end.
  unfold toggled.
  destruct (bool_decide (label = _current_event s)) eqn:E1;
    [destruct (bool_decide (_current_event s <> _default_event s)) eqn:E2|];
    reflexivity.
Qed.

Lemma trigger_spike_running label source now s t0 delta :
  source <> ""%string -> _session_t0 s = Some t0 -> _delta s = Some delta ->
  exists k t_q,
    let p := Spike k t_q label source in
    trigger_spike label source now s =
      (Returned p,
       set_queues (put_all p (_plot_sinks s) (put_all p (_sinks s) (queues s))) s).
Proof.
  intros Hsrc Ht0 Hd. unfold trigger_spike.
  rewrite bool_decide_eq_false_2 by exact Hsrc.
  unfold mbind, M_bind, bind, _host_rel_now, _quantize, ret.
  rewrite Ht0, Hd.
  eexists _, _. cbn zeta.
  match goal with
  | |- context [_emit_to_sinks ?p ?s'] =>
      rewrite (_emit_to_sinks_marker p s' eq_refl)
  end.
  reflexivity.
Qed.

Lemma set_event_idle label source now s :
  _session_t0 s = None ->
  snd (set_event label source now s) = s.
Proof.
  intros Ht0. unfold set_event. destruct (bool_decide _); [reflexivity|].
  unfold mbind, M_bind, bind, _host_rel_now. rewrite Ht0. reflexivity.
Qed.

Lemma trigger_spike_idle label source now s :
  _session_t0 s = None ->
  snd (trigger_spike label source now s) = s.
Proof.
  intros Ht0. unfold trigger_spike. destruct (bool_decide _); [reflexivity|].
  unfold mbind, M_bind, bind, _host_rel_now. rewrite Ht0. reflexivity.
Qed.

Lemma set_event_session label source now s :
  session_fields (snd (set_event label source now s)) = session_fields s.
Proof.
  destruct (_session_t0 s) as [t0|] eqn:Ht0;
    [|rewrite set_event_idle by assumption; reflexivity].
  destruct (decide (source = ""%string)) as [->|Hsrc]; [reflexivity|].
  destruct (_delta s) as [delta|] eqn:Hd.
  - destruct (set_event_running label source now s t0 delta Hsrc Ht0 Hd)
      as (k & t_q & ->). reflexivity.
  - unfold set_event. rewrite bool_decide_eq_false_2 by exact Hsrc.
    unfold mbind, M_bind, bind, _host_rel_now, _quantize.
    rewrite Ht0, Hd. reflexivity.
Qed.

Lemma trigger_spike_session label source now s :
  session_fields (snd (trigger_spike label source now s)) = session_fields s.
Proof.
  destruct (_session_t0 s) as [t0|] eqn:Ht0;
    [|rewrite trigger_spike_idle by assumption; reflexivity].
  destruct (decide (source = ""%string)) as [->|Hsrc]; [reflexivity|].
  destruct (_delta s) as [delta|] eqn:Hd.
  - destruct (trigger_spike_running label source now s t0 delta Hsrc Ht0 Hd)
      as (k & t_q & ->). reflexivity.
  - unfold trigger_spike. rewrite bool_decide_eq_false_2 by exact Hsrc.
    unfold mbind, M_bind, bind, _host_rel_now, _quantize.
    rewrite Ht0, Hd. reflexivity.
Qed.

Lemma consume_session ts dev pairs now s :
  session_fields (consume ts dev pairs now s) = session_fields s.
Proof.
  unfold consume, _handle_sample_packet, mbind, M_bind, bind, _map_to_host.
  destruct (_session_t0 s) as [t0|] eqn:Ht0; [|reflexivity].
  unfold _quantize. cbn [_delta set_anchors].
  destruct (_delta s) as [delta|] eqn:Hd.
  - match goal with
    | |- context [_emit_to_sinks ?p ?s'] =>
        destruct (_emit_to_sinks_session p s') as [_ ->]
    end.
    unfold session_fields. cbn. rewrite Ht0, Hd. reflexivity.
  - unfold session_fields. cbn. rewrite Ht0, Hd. reflexivity.
Qed.

Lemma session_inv_fields s s' :
  session_fields s' = session_fields s -> session_inv s -> session_inv s'.
Proof.
  unfold session_fields, session_inv. intros [= -> -> ->]. auto.
Qed.

Lemma reachable_session_inv s : reachable s -> session_inv s.
Proof.
  induction 1 as [heap|q s _ IH|q s _ IH|q s _ IH|cfg delta now s _ IH|s _ IH
                  |label source now s _ IH|label source now s _ IH
                  |ts dev pairs now s _ IH].
  - reflexivity.
  - unfold add_sink_queue. destruct (bool_decide _); exact IH.
  - unfold add_plot_sink_queue. destruct (bool_decide _); exact IH.
  - exact IH.
  - unfold start_session, session_inv in *.
    destruct (_started s) eqn:Es; [simpl; rewrite Es; exact IH|].
    destruct (negb _); simpl; [rewrite Es; exact IH|]. split; eexists; reflexivity.
  - unfold stop_session, session_inv in *.
    destruct (_started s) eqn:Es; simpl; [reflexivity|]. rewrite Es. exact IH.
  - eapply session_inv_fields; [apply set_event_session|exact IH].
  - eapply session_inv_fields; [apply trigger_spike_session|exact IH].
  - eapply session_inv_fields; [apply consume_session|exact IH].
Qed.

Lemma toggled_current label source now s t0 delta :
  source <> ""%string -> _session_t0 s = Some t0 -> _delta s = Some delta ->
  _current_event (snd (set_event label source now s)) = toggled s label.
Proof.
  intros Hsrc Ht0 Hd.
  destruct (set_event_running label source now s t0 delta Hsrc Ht0 Hd)
    as (k & t_q & ->). reflexivity.
Qed.

(** C6.  In a started session, a call [set_event(label, source)] with a
    non-empty source returns an event payload carrying the new sticky event,
    and changes nothing in the manager but the sticky event and the sink
    queues: the sticky event becomes [label] if [label] differs from it,
    returns to the default if [label] equals it and it is not the default,
    and stays as it is if it is the default; in every case the payload is
    put on every registered unbounded sink queue.  In particular, from the
    default "REST", two calls [set_event("TASK_7", "keyboard")] yield
    current_event_after "TASK_7", then "REST". *)
Theorem set_event_toggle (s : SyncManager) (label source : string) (now : Q) :
  reachable s -> _started s = true -> source <> ""%string ->
  (exists k t_q s',
     let after := _current_event s' in
     let p := Event k t_q after source after in
     set_event label source now s = (Returned p, s') /\
     (label <> _current_event s -> after = label) /\
     (label = _current_event s -> _current_event s <> _default_event s ->
      after = _default_event s) /\
     (label = _current_event s -> _current_event s = _default_event s ->
      after = _current_event s) /\
     s' = set_queues (queues s') (set_current_event after s) /\
     (forall a q, a ∈ _sinks s -> queues s !! a = Some q -> maxsize q = 0%nat ->
        exists n, queues s' !! a
                    = Some (mkQueue 0 (items q ++ replicate (S n) p)))) /\
  (_default_event s = "REST"%string -> _current_event s = "REST"%string ->
   forall now1 now2, exists k1 tq1 s1 k2 tq2 s2,
     set_event "TASK_7" "keyboard" now1 s
       = (Returned (Event k1 tq1 "TASK_7" "keyboard" "TASK_7"), s1) /\
     set_event "TASK_7" "keyboard" now2 s1
       = (Returned (Event k2 tq2 "REST" "keyboard" "REST"), s2)).
Proof.
  intros Hreach Hst Hsrc.
  pose proof (reachable_session_inv s Hreach) as Hinv.
  unfold session_inv in Hinv. rewrite Hst in Hinv.
  destruct Hinv as [[t0 Ht0] [delta Hd]]. split.
  - destruct (set_event_running label source now s t0 delta Hsrc Ht0 Hd)
      as (k & t_q & Hrun). cbn zeta in Hrun.
    match type of Hrun with _ = (_, ?S) => exists k, t_q, S end.
    cbn zeta. cbn [_current_event set_queues set_current_event].
    split; [exact Hrun|].
    unfold toggled.
    split; [intros Hne; rewrite bool_decide_eq_false_2 by exact Hne; reflexivity|].
    split.
    { intros He Hnd. rewrite bool_decide_eq_true_2 by exact He.
      rewrite bool_decide_eq_true_2 by exact Hnd. reflexivity. }
    split.
    { intros He Hd'. rewrite bool_decide_eq_true_2 by exact He.
      destruct (bool_decide _); [symmetry; exact Hd'|reflexivity]. }
    split; [reflexivity|].
    intros a q Hin Hq Hmax. cbn [queues].
    apply put_all_emitted; assumption.
  - intros Hdef Hcur now1 now2.
    destruct (set_event_running "TASK_7" "keyboard" now1 s t0 delta
                ltac:(discriminate) Ht0 Hd) as (k1 & tq1 & Hrun1).
    cbn zeta in Hrun1.
    assert (Ht : toggled s "TASK_7" = "TASK_7"%string).
    { unfold toggled. rewrite Hcur. reflexivity. }
    rewrite Ht in Hrun1.
    match type of Hrun1 with _ = (_, ?S) => set (s1 := S) in * end.
    destruct (set_event_running "TASK_7" "keyboard" now2 s1 t0 delta
                ltac:(discriminate) Ht0 Hd) as (k2 & tq2 & Hrun2).
    cbn zeta in Hrun2.
    assert (Ht2 : toggled s1 "TASK_7" = "REST"%string).
    { unfold toggled, s1. cbn [_current_event _default_event set_queues
                               set_current_event]. rewrite Hdef. reflexivity. }
    rewrite Ht2 in Hrun2.
    eexists k1, tq1, s1, k2, tq2, _. split; [exact Hrun1|exact Hrun2].
Qed.

(** C9.  While no session is started (a fresh manager, or one left by
    [stop_session]), [set_event] and [trigger_spike] called with a non-empty
    source raise [RuntimeError] and leave the whole state as it was: no sink
    queue receives a payload and the sticky event is unchanged. *)
Theorem triggers_need_session (s : SyncManager) (label source : string) (now : Q) :
  reachable s -> _started s = false -> source <> ""%string ->
  (forall heap, _started (__init__ heap) = false) /\
  (forall s0, _started (stop_session s0) = false) /\
  set_event label source now s = (Raised RuntimeError, s) /\
  trigger_spike label source now s = (Raised RuntimeError, s) /\
  queues (snd (set_event label source now s)) = queues s /\
  queues (snd (trigger_spike label source now s)) = queues s /\
  _current_event (snd (set_event label source now s)) = _current_event s /\
  _current_event (snd (trigger_spike label source now s)) = _current_event s.
Proof.
  intros Hreach Hst Hsrc.
  pose proof (reachable_session_inv s Hreach) as Hinv.
  unfold session_inv in Hinv. rewrite Hst in Hinv.
  split; [reflexivity|]. split.
  { intros s0. unfold stop_session. destruct (_started s0) eqn:E; [reflexivity|exact E]. }
  assert (H1 : set_event label source now s = (Raised RuntimeError, s)).
  { unfold set_event. rewrite bool_decide_eq_false_2 by exact Hsrc.
    unfold mbind, M_bind, bind, _host_rel_now. rewrite Hinv. reflexivity. }
  assert (H2 : trigger_spike label source now s = (Raised RuntimeError, s)).
  { unfold trigger_spike. rewrite bool_decide_eq_false_2 by exact Hsrc.
    unfold mbind, M_bind, bind, _host_rel_now. rewrite Hinv. reflexivity. }
  rewrite H1, H2. repeat split.
Qed.

Lemma set_event_toggle_witness :
  let cfg := mkConfig [("0", "REST"); ("7", "TASK_7")]%string 0 true
               None None 0 None 0 true true in
  let s := snd (start_session cfg (1 # 100) 5
                  (add_sink_queue 0 (__init__ {[ 0%nat := mkQueue 0 [] ]}))) in
  reachable s /\ _started s = true /\ "keyboard"%string <> ""%string /\
  exists k1 tq1 s1 k2 tq2 s2,
    set_event "TASK_7" "keyboard" (5015 # 1000) s
      = (Returned (Event k1 tq1 "TASK_7" "keyboard" "TASK_7"), s1) /\
    set_event "TASK_7" "keyboard" (5025 # 1000) s1
      = (Returned (Event k2 tq2 "REST" "keyboard" "REST"), s2).
Proof.
  intros cfg s.
  assert (Hreach : reachable s).
  { apply (r_start cfg (1 # 100) 5), r_add_sink, r_init. }
  assert (Hsrc : "keyboard"%string <> ""%string) by discriminate.
  split; [exact Hreach|]. split; [reflexivity|]. split; [exact Hsrc|].
  exact (proj2 (set_event_toggle s "TASK_7" "keyboard" 0 Hreach eq_refl Hsrc)
           eq_refl eq_refl (5015 # 1000) (5025 # 1000)).
Defined.

Lemma triggers_need_session_witness :
  let s := add_sink_queue 0 (__init__ {[ 0%nat := mkQueue 0 [] ]}) in
  reachable s /\ _started s = false /\ "keyboard"%string <> ""%string /\
  set_event "TASK_1" "keyboard" 3 s = (Raised RuntimeError, s) /\
  trigger_spike "SPIKE_A" "keyboard" 3 s = (Raised RuntimeError, s).
Proof.
  intros s.
  assert (Hreach : reachable s) by apply r_add_sink, r_init.
  assert (Hsrc : "keyboard"%string <> ""%string) by discriminate.
  split; [exact Hreach|]. split; [reflexivity|]. split; [exact Hsrc|]. split.
  - exact (proj1 (proj2 (proj2
             (triggers_need_session s "TASK_1" "keyboard" 3 Hreach eq_refl Hsrc)))).
  - exact (proj1 (proj2 (proj2 (proj2
             (triggers_need_session s "SPIKE_A" "keyboard" 3 Hreach eq_refl Hsrc))))).
Defined.

End TriggerProofs.

(* ===================================================================== *)
(** * Properties of the cell format *)
(* ===================================================================== *)

Section FormatProofs.

Import PyFloat Exporter.

Lemma digit_char_code (d : Z) :
  0 <= d <= 9 -> nat_of_ascii (digit_char d) = (48 + Z.to_nat d)%nat.
Proof. intros H. unfold digit_char. apply nat_ascii_embedding. lia. Qed.

Lemma digit_char_is_digit (d : Z) : 0 <= d <= 9 -> is_digit (digit_char d).
Proof. intros H. unfold is_digit. rewrite digit_char_code by exact H. lia. Qed.

Lemma digits_value_snoc (l : list ascii) (d : Z) :
  0 <= d <= 9 ->
  digits_value (l ++ [digit_char d]) = 10 * digits_value l + d.
Proof.
  intros H. unfold digits_value. rewrite fold_left_app. simpl.
  rewrite digit_char_code by exact H. lia.
Qed.

Lemma digits_fixed_length (w : nat) : forall n, length (digits_fixed w n) = w.
Proof.
  induction w as [|w IH]; intros n; simpl; [reflexivity|].
  rewrite length_app, IH. simpl. lia.
Qed.

Lemma digits_fixed_digits (w : nat) : forall n, Forall is_digit (digits_fixed w n).
Proof.
  induction w as [|w IH]; intros n; simpl; [constructor|].
  apply Forall_app. split; [apply IH|].
  constructor; [|constructor]. apply digit_char_is_digit.
  pose proof (Z.mod_pos_bound n 10). lia.
Qed.

Lemma digits_fixed_value (w : nat) :
  forall n, digits_value (digits_fixed w n) = n mod 10 ^ Z.of_nat w.
Proof.
  induction w as [|w IH]; intros n.
  - simpl. rewrite Z.mod_1_r. reflexivity.
  - cbn [digits_fixed]. rewrite digits_value_snoc
      by (pose proof (Z.mod_pos_bound n 10); lia).
    rewrite IH, Nat2Z.inj_succ, Z.pow_succ_r by lia.
    rewrite Z.rem_mul_r; [lia|lia|].
    apply Z.pow_pos_nonneg; lia.
Qed.

Lemma digits_var_digits (fuel : nat) :
  forall n, 0 <= n -> Forall is_digit (digits_var fuel n).
Proof.
  induction fuel as [|fuel IH]; intros n Hn; simpl; [constructor|].
  destruct (Z.ltb_spec n 10).
  - constructor; [|constructor]. apply digit_char_is_digit. lia.
  - apply Forall_app. split; [apply IH; apply Z.div_pos; lia|].
    constructor; [|constructor]. apply digit_char_is_digit.
    pose proof (Z.mod_pos_bound n 10). lia.
Qed.

Lemma digits_var_nonempty (fuel : nat) (n : Z) : digits_var (S fuel) n <> [].
Proof.
  simpl. destruct (n <? 10); [discriminate|].
  intros H. apply app_eq_nil in H as [_ H]. discriminate H.
Qed.

Lemma digits_var_value (fuel : nat) :
  forall n, 0 <= n < 10 ^ Z.of_nat fuel -> digits_value (digits_var fuel n) = n.
Proof.
  induction fuel as [|fuel IH]; intros n Hn.
  - change (10 ^ Z.of_nat 0) with 1 in Hn. unfold digits_value. simpl. lia.
  - cbn [digits_var]. destruct (Z.ltb_spec n 10).
    + change [digit_char n] with ([] ++ [digit_char n]).
      rewrite digits_value_snoc by lia. reflexivity.
    + rewrite digits_value_snoc by (pose proof (Z.mod_pos_bound n 10); lia).
      rewrite IH.
      * pose proof (Z.div_mod n 10). lia.
      * rewrite Nat2Z.inj_succ, Z.pow_succ_r in Hn by lia.
        split; [apply Z.div_pos; lia|].
        apply Z.div_lt_upper_bound; lia.
Qed.

Lemma str_nat_value (n : Z) : 0 <= n -> digits_value (str_nat n) = n.
Proof.
  intros Hn. unfold str_nat. apply digits_var_value.
  split; [exact Hn|].
  rewrite Nat2Z.inj_succ, Z2Nat.id by apply Z.log2_nonneg.
  destruct (Z.eq_dec n 0) as [->|Hne]; [reflexivity|].
  pose proof (Z.log2_spec n ltac:(lia)) as [_ Hlt].
  eapply Z.lt_le_trans; [exact Hlt|].
  apply Z.pow_le_mono_l. lia.
Qed.

(** [round] is to the nearest integer. *)
Lemma py_round_nearest (x : Q) :
  (Qabs (inject_Z (py_round x) - x) <= 1 # 2)%Q.
Proof.
  unfold py_round.
  pose proof (Qfloor_le x) as Hlo. pose proof (Qlt_floor x) as Hhi.
  set (f := Qfloor x) in *.
  assert (Hf1 : inject_Z (f + 1) = (inject_Z f + 1)%Q) by apply inject_Z_plus.
  rewrite Hf1 in Hhi.
  apply Qabs_Qle_condition.
  destruct (Qcompare_spec (x - inject_Z f) (1 # 2)) as [He|Hl|Hg].
  - destruct (Z.even f); [|rewrite Hf1]; split; lra.
  - split; lra.
  - rewrite Hf1. split; lra.
Qed.

Lemma py_round_nonneg (x : Q) : (0 <= x)%Q -> 0 <= py_round x.
Proof.
  intros Hx. unfold py_round.
  assert (0 <= Qfloor x).
  { change 0 with (Qfloor 0). apply Qfloor_resp_le. exact Hx. }
  destruct (Qcompare _ _); [destruct (Z.even _)| |]; lia.
Qed.

(** The shape and the meaning of a finite cell. *)
Lemma fixed6_shape (q : Q) :
  exists sign int frac,
    fixed6 q = string_of_list_ascii (sign ++ int ++ "."%char :: frac) /\
    (sign = [] \/ sign = ["-"%char]) /\
    int <> [] /\ Forall is_digit int /\
    Forall is_digit frac /\ length frac = 6%nat /\
    (Qabs (inject_Z (digits_value int * 10 ^ 6 + digits_value frac)
           - Qabs q * inject_Z (10 ^ 6)) <= 1 # 2)%Q.
Proof.
  assert (Hr : 0 <= fixed6_scaled q).
  { apply py_round_nonneg. apply Qmult_le_0_compat; [apply Qabs_nonneg|discriminate]. }
  exists (fixed6_sign q), (str_nat (fixed6_scaled q / 1000000)),
         (digits_fixed 6 (fixed6_scaled q mod 1000000)).
  split; [reflexivity|]. split.
  { unfold fixed6_sign. destruct (ltb q 0); auto. }
  split; [apply digits_var_nonempty|]. split.
  { apply digits_var_digits. apply Z.div_pos; lia. }
  split; [apply digits_fixed_digits|]. split; [apply digits_fixed_length|].
  rewrite str_nat_value by (apply Z.div_pos; lia).
  rewrite digits_fixed_value. change (10 ^ Z.of_nat 6) with 1000000.
  change (10 ^ 6) with 1000000.
  rewrite Z.mod_mod by lia.
  replace (fixed6_scaled q / 1000000 * 1000000 + fixed6_scaled q mod 1000000)
    with (fixed6_scaled q) by (pose proof (Z.div_mod (fixed6_scaled q) 1000000); lia).
  apply py_round_nearest.
Qed.

(** C3 as stated fails: a NaN is not written as an empty cell. *)
Lemma nan_cell_not_empty : _fmt_val (Some FNaN) <> ""%string.
Proof. discriminate. Qed.

(** C3, amended.  In a synced-CSV data cell an absent value is written as
    the empty cell, and every finite numeric value in fixed-point notation
    with exactly 6 decimals (an optional minus sign, at least one digit, a
    point and six digits, denoting the value rounded to the nearest
    millionth); a non-finite value is not mapped to the empty cell: NaN is
    written as "nan" and the infinities as "inf" and "-inf". *)
Theorem fmt_val_cells :
  _fmt_val None = ""%string /\
  (forall q, exists sign int frac,
     _fmt_val (Some (FFin q)) = string_of_list_ascii (sign ++ int ++ "."%char :: frac) /\
     (sign = [] \/ sign = ["-"%char]) /\
     int <> [] /\ Forall is_digit int /\
     Forall is_digit frac /\ length frac = 6%nat /\
     (Qabs (inject_Z (digits_value int * 10 ^ 6 + digits_value frac)
            - Qabs q * inject_Z (10 ^ 6)) <= 1 # 2)%Q) /\
  _fmt_val (Some FNegZero) = "-0.000000"%string /\
  _fmt_val (Some FNaN) = "nan"%string /\
  _fmt_val (Some (FInf false)) = "inf"%string /\
  _fmt_val (Some (FInf true)) = "-inf"%string.
Proof.
  split; [reflexivity|]. split; [exact fixed6_shape|]. repeat split.
Qed.

End FormatProofs.

(* ===================================================================== *)
(** * The export sink on concrete sessions *)
(* ===================================================================== *)

Section SinkScenarios.

Import PyFloat Exporter.

(** C1: the code at the failing input.  With lookahead 3, after the samples
    at k = 1..7 the sink has seen k = 7, so a sample arriving at k = 2 is at
    or below [k_seen_max - L]; the sink nevertheless buffers it and writes a
    second row for k = 2 that holds its value 9.000000. *)
Theorem late_sample_is_written :
  let s := run late_turns (snd (start (demo_sink true))) in
  _k_seen_max s = 7 /\ _L s = 3 /\ 2 <= _k_seen_max s - _L s /\
  synced_rows (written (session (late_turns ++ [late_sample]) (demo_sink true)))
  = [(1, ["1"; "0.010000"; "1.000000"; ""; "REST"]);
     (2, ["2"; "0.020000"; "2.000000"; ""; "REST"]);
     (3, ["3"; "0.030000"; "3.000000"; ""; "REST"]);
     (4, ["4"; "0.040000"; "4.000000"; ""; "REST"]);
     (2, ["2"; "0.020000"; "9.000000"; ""; "REST"]);
     (5, ["5"; "0.050000"; "5.000000"; ""; "REST"]);
     (6, ["6"; "0.060000"; "6.000000"; ""; "REST"]);
     (7, ["7"; "0.070000"; "7.000000"; ""; "REST"])]%string.
Proof. vm_compute. repeat split; discriminate. Qed.

(** C2: the code at the failing input.  The event change to "TASK_8" at
    k = 12 is recorded (its marker row is written) before the rows of k = 20
    and k = 24 are committed, and no later change arrives; the commit of
    k = 10 with watermark 17 discards the pending change without applying
    it, so the rows of k = 20 and k = 24 carry the event "REST". *)
Theorem event_change_lost_by_cleanup :
  let log := written (session gap_turns (demo_sink true)) in
  markers_rows log
  = [(12, ["12"; "0.120000"; "TASK_8"; ""; "keyboard"]);
     (10, ["10"; "0.100000"; "REST"; ""; "sync"])]%string /\
  synced_rows log
  = [(10, ["10"; "0.100000"; "1.000000"; ""; "REST"]);
     (20, ["20"; "0.200000"; "2.000000"; ""; "REST"]);
     (24, ["24"; "0.240000"; "3.000000"; ""; "REST"])]%string /\
  _event_changes (run (take 2 gap_turns) (snd (start (demo_sink true))))
  = {[ 12 := "TASK_8"%string ]} /\
  _event_changes (run (take 3 gap_turns) (snd (start (demo_sink true)))) = ∅.
Proof. vm_compute. repeat split. Qed.

(** C4 as stated fails: an event change at k = 0 that arrives before the
    first commit is applied before the initial marker is written, so the
    "sync" row carries "TASK_8", not the default event "REST"; and with the
    markers CSV disabled rows are committed while no marker row is written
    at all. *)
Lemma initial_marker_not_default :
  let log := written (session early_event_turns (demo_sink true)) in
  let log' := written (session early_event_turns (demo_sink false)) in
  synced_rows log <> [] /\
  first_keymap_value (demo_config true) = "REST"%string /\
  (exists k row,
     MarkersRow k row ∈ log /\ source_column row = "sync"%string /\
     marker_event_column row <> first_keymap_value (demo_config true)) /\
  synced_rows log' <> [] /\ markers_rows log' = [].
Proof.
  split; [vm_compute; discriminate|]. split; [reflexivity|]. split.
  - exists 0, ["0"; "0.000000"; "TASK_8"; ""; "sync"]%string.
    split; [|split; [reflexivity|vm_compute; discriminate]].
    vm_compute. do 3 right. left.
  - split; [vm_compute; discriminate|reflexivity].
Qed.

(** C10 as stated fails: with the markers CSV disabled (the default of
    utils/config.py), handling an event payload appends no row. *)
Lemma event_without_markers_csv :
  let s := snd (start (demo_sink false)) in
  written (_on_event 5 (5 # 100) "TASK_8" "keyboard" "TASK_8" s) = written s.
Proof. reflexivity. Qed.

End SinkScenarios.

(* ===================================================================== *)
(** * What each step of the export sink does to the output *)
(* ===================================================================== *)

Section SinkEffects.

Import PyFloat Exporter.

Lemma elem_of_sorted_keys_le {A} (d : gmap Z A) (bound k : Z) :
  k ∈ sorted_keys_le d bound -> is_Some (d !! k) /\ k <= bound.
Proof.
  unfold sorted_keys_le. rewrite merge_sort_Permutation, list_elem_of_filter.
  intros [Hle Hin]. split; [|exact Hle].
  apply list_elem_of_In, in_map_iff in Hin as ([k' v] & Hk & Hin).
  simpl in Hk. subst k'.
  apply list_elem_of_In, elem_of_map_to_list in Hin. eauto.
Qed.

Lemma sink_eta (s : ExportSink) :
  s = set_event_changes (_event_changes s) (set_sticky_event (_sticky_event s) s).
Proof. destruct s; reflexivity. Qed.

(** Applying the pending changes touches the sticky event and the pending
    map only; the sticky event changes only if a change at or below [k] was
    pending, and no pending change is added. *)
Lemma apply_changes_fold (s : ExportSink) (k : Z) (l : list Z) :
  forall ev (ec : gmap Z string),
    (forall kk, kk ∈ l -> kk <= k) ->
    exists ev' (ec' : gmap Z string),
      foldl (fun s kk =>
               let s := match _event_changes s !! kk with
                        | Some ev => set_sticky_event ev s
                        | None => s
                        end in
               set_event_changes (delete kk (_event_changes s)) s)
            (set_event_changes ec (set_sticky_event ev s)) l
        = set_event_changes ec' (set_sticky_event ev' s) /\
      (ev' = ev \/ exists kk, kk <= k /\ is_Some (ec !! kk)) /\
      (forall kk, is_Some (ec' !! kk) -> is_Some (ec !! kk)).
Proof.
  induction l as [|x l IH]; intros ev ec Hl.
  - exists ev, ec. repeat split; auto.
  - cbn [foldl]. cbn [_event_changes set_event_changes set_sticky_event].
    assert (Hl' : forall kk, kk ∈ l -> kk <= k).
    { intros kk Hin. apply Hl. right. exact Hin. }
    assert (Hx : x <= k) by (apply Hl; left).
    assert (Hsub : forall kk, is_Some (delete x ec !! kk) -> is_Some (ec !! kk)).
    { intros kk [v Hv]. apply lookup_delete_Some in Hv as [_ Hv]. eauto. }
    destruct (ec !! x) as [e|] eqn:Ex.
    + destruct (IH e (delete x ec) Hl') as (ev' & ec' & Hf & Hev & Hec).
      exists ev', ec'. split; [exact Hf|]. split.
      * right. destruct Hev as [_|(kk & Hkk & Hs)].
        -- exists x. split; [exact Hx|]. rewrite Ex. eauto.
        -- exists kk. split; [exact Hkk|]. apply Hsub, Hs.
      * intros kk Hs. apply Hsub, Hec, Hs.
    + destruct (IH ev (delete x ec) Hl') as (ev' & ec' & Hf & Hev & Hec).
      exists ev', ec'. split; [exact Hf|]. split.
      * destruct Hev as [Hev|(kk & Hkk & Hs)]; [left; exact Hev|].
        right. exists kk. split; [exact Hkk|]. apply Hsub, Hs.
      * intros kk Hs. apply Hsub, Hec, Hs.
Qed.

Lemma apply_event_changes_shape (k : Z) (s : ExportSink) :
  exists ev (ec : gmap Z string),
    apply_event_changes k s = set_event_changes ec (set_sticky_event ev s) /\
    (ev = _sticky_event s \/ exists kk, kk <= k /\ is_Some (_event_changes s !! kk)) /\
    (forall kk, is_Some (ec !! kk) -> is_Some (_event_changes s !! kk)).
Proof.
  unfold apply_event_changes.
  destruct (apply_changes_fold s k (sorted_keys_le (_event_changes s) k)
              (_sticky_event s) (_event_changes s)) as (ev & ec & Hf & H).
  { intros kk Hin. apply elem_of_sorted_keys_le in Hin as [_ H]. exact H. }
  rewrite <- sink_eta in Hf. exists ev, ec. split; [exact Hf|exact H].
Qed.

(** The columns of a marker row as [_write_marker] builds it. *)
Lemma marker_columns (s : ExportSink) (k : Z) (t_q : Q) (ev sp src : string) :
  let row := k_prefix s k ++ [_fmt_val (Some (FFin t_q)); ev; sp; src] in
  source_column row = src /\ marker_event_column row = ev.
Proof.
  unfold source_column, marker_event_column.
  rewrite rev_app_distr. split; reflexivity.
Qed.

(** One committed row: the output gains the initial marker (if it is still
    due and the markers CSV is open) and the data row of [k]. *)
Lemma commit_row_effect (k : Z) (s : ExportSink) :
  exists ev (ec : gmap Z string) mrow row,
    (ev = _sticky_event s \/ exists kk, kk <= k /\ is_Some (_event_changes s !! kk)) /\
    (forall kk, is_Some (ec !! kk) -> is_Some (_event_changes s !! kk)) /\
    source_column mrow = "sync"%string /\ marker_event_column mrow = ev /\
    event_column row = ev /\
    core (commit_row k s)
    = (written s
         ++ (if negb (_initial_marker_emitted s) && _markers_writer s
             then [MarkersRow k mrow] else [])
         ++ [SyncedRow k row],
       delete k (_tq_by_k s), ec, ev, true, _default_event s, _markers_writer s).
Proof.
  destruct (apply_event_changes_shape k s) as (ev & ec & Hshape & Hev & Hec).
  unfold commit_row. rewrite Hshape.
  cbn [_initial_marker_emitted _sticky_event _tq_by_k _open_rows _delta
       set_event_changes set_sticky_event].
  set (t_q := default (inject_Z k * _delta s)%Q (_tq_by_k s !! k)).
  set (row_map := default ∅ (_open_rows s !! k)).
  exists ev, ec,
    (k_prefix s k ++ [_fmt_val (Some (FFin t_q)); ev; ""; "sync"]%string),
    (k_prefix s k ++ [_fmt_val (Some (FFin t_q))]
       ++ map (fun ch => default ""%string (row_map !! ch)) (_channels s)
       ++ [default ""%string (row_map !! "spike"%string)] ++ [ev]).
  split; [exact Hev|]. split; [exact Hec|].
  destruct (marker_columns s k t_q ev "" "sync") as [Hsrc Hmev].
  split; [exact Hsrc|]. split; [exact Hmev|]. split.
  { unfold event_column. rewrite !app_assoc, rev_app_distr. reflexivity. }
  unfold _write_marker, core.
  cbn [_markers_writer set_event_changes set_sticky_event].
  destruct (_initial_marker_emitted s) eqn:Eim, (_markers_writer s) eqn:Emw;
    cbn; rewrite ?Eim, ?Emw, <- ?app_assoc; reflexivity.
Qed.

(** Handling a payload: the output gains at most a header or the marker row
    of the trigger, with the trigger's source; the sticky event and the
    initial-marker flag are not touched. *)
Lemma handle_effect (p : payload) (s : ExportSink) :
  exists ws,
    Forall (handler_write p) ws /\
    core (handle p s)
    = (written s ++ ws, tq_after p (_tq_by_k s), ec_after p (_event_changes s),
       _sticky_event s, _initial_marker_emitted s, _default_event s,
       _markers_writer s).
Proof.
  destruct p as [k t_q dev pairs|k t_q label source current_after|k t_q label source];
    unfold handle, core.
  - unfold _on_sample, _write_synced_header.
    cbn [_header_frozen _synced_writer _channels set_k_seen_max set_tq_by_k
         set_open_rows].
    destruct (_header_frozen s) eqn:Ehf; cbn [negb orb].
    { exists []. split; [constructor|]. cbn. rewrite app_nil_r. reflexivity. }
    destruct (_synced_writer s) eqn:Esw; cbn [negb orb].
    2:{ exists []. split; [constructor|]. cbn. rewrite app_nil_r. reflexivity. }
    destruct (_channels s) as [|c cs] eqn:Ech.
    { exists []. split; [constructor|]. cbn. rewrite app_nil_r. reflexivity. }
    eexists [_]. split; [|cbn; reflexivity].
    constructor; [|constructor]. left. eexists. reflexivity.
  - unfold _on_event, _write_marker. cbn [_markers_writer set_event_changes].
    destruct (_markers_writer s) eqn:Emw; cbn [negb].
    + eexists [_]. split; [|cbn; rewrite ?Emw; reflexivity].
      constructor; [|constructor]. right. eexists _, _. split; [reflexivity|].
      cbn [payload_source]. f_equal. symmetry.
      apply (marker_columns _ k t_q current_after "" source).
    + exists []. split; [constructor|]. cbn. rewrite ?Emw, app_nil_r. reflexivity.
  - unfold _on_spike, _write_marker.
    cbn [_markers_writer set_open_rows set_tq_by_k set_k_seen_max].
    destruct (_markers_writer s) eqn:Emw; cbn [negb].
    + eexists [_]. split; [|cbn; rewrite ?Emw; reflexivity].
      constructor; [|constructor]. right. eexists _, _. split; [reflexivity|].
      cbn [payload_source]. f_equal. symmetry.
      apply (marker_columns _ k t_q "" label source).
    + exists []. split; [constructor|]. cbn. rewrite ?Emw, app_nil_r. reflexivity.
Qed.

End SinkEffects.

(* ===================================================================== *)
(** * Invariants of a session of the export sink *)
(* ===================================================================== *)

(** A property of the sink, relative to the payloads handled so far, that
    every step of the consumer keeps is kept by a whole run and by [stop]. *)
Section Lifting.

Import PyFloat Exporter.

Variable P : list payload -> ExportSink -> Prop.
Variable ok : payload -> Prop.
Variable Key : list payload -> Z -> Prop.

Hypothesis P_core : forall ps s s', core s' = core s -> P ps s -> P ps s'.
Hypothesis P_handle :
  forall ps s p, ok p -> P ps s -> P (ps ++ [p]) (handle p s).
Hypothesis P_keys :
  forall ps s k, P ps s -> is_Some (_tq_by_k s !! k) -> Key ps k.
Hypothesis P_commit_row :
  forall ps s k, Key ps k -> P ps s -> P ps (commit_row k s).
Hypothesis P_header :
  forall ps s row, P ps s -> P ps (emit (SyncedHeader row) s).
Hypothesis P_cleanup :
  forall ps s (ec : gmap Z string),
    (forall kk, is_Some (ec !! kk) -> is_Some (_event_changes s !! kk)) ->
    P ps s -> P ps (set_event_changes ec s).

Lemma lift_commit_rows (ps : list payload) (ks : list Z) :
  forall s, (forall k, k ∈ ks -> Key ps k) -> P ps s ->
            P ps (foldl (fun s k => commit_row k s) s ks).
Proof.
  induction ks as [|k ks IH]; intros s Hks Hs; [exact Hs|].
  cbn [foldl]. apply IH.
  - intros k' Hin. apply Hks. right. exact Hin.
  - apply P_commit_row; [apply Hks; left|exact Hs].
Qed.

Lemma lift_write_synced_header (ps : list payload) (s : ExportSink) :
  P ps s -> P ps (_write_synced_header s).
Proof.
  intros Hs. unfold _write_synced_header.
  destruct (negb _ || _); [exact Hs|].
  destruct (_channels s); [exact Hs|].
  eapply P_core; [|apply P_header; exact Hs]. reflexivity.
Qed.

Lemma lift_commit_until (ps : list payload) (k_commit : Z) (s : ExportSink) :
  P ps s -> P ps (_commit_until k_commit s).
Proof.
  intros Hs.
  assert (Hgo : forall s, P ps s ->
    P ps (if bool_decide (_open_rows s = ∅) && bool_decide (_tq_by_k s = ∅) then s
          else set_event_changes
                 (filter (fun kv => ¬ (fst kv <= k_commit))
                    (_event_changes
                       (foldl (fun s k => commit_row k s) s
                          (sorted_keys_le (_tq_by_k s) k_commit))))
                 (foldl (fun s k => commit_row k s) s
                    (sorted_keys_le (_tq_by_k s) k_commit)))).
  { intros s' Hs'. destruct (_ && _); [exact Hs'|].
    apply P_cleanup.
    - intros kk [v Hv]. apply map_lookup_filter_Some in Hv as [Hv _]. eauto.
    - apply lift_commit_rows; [|exact Hs'].
      intros k Hin. apply elem_of_sorted_keys_le in Hin as [Hin _].
      eapply P_keys; eassumption. }
  unfold _commit_until. destruct (negb (_synced_writer s)); [exact Hs|].
  destruct (negb (_header_frozen s)); [|apply Hgo; exact Hs].
  destruct (_channels s) eqn:Ech; [exact Hs|].
  apply Hgo, lift_write_synced_header; exact Hs.
Qed.

Lemma lift_run_iteration (ps : list payload) (pkt : option payload) (now : Q)
  (s : ExportSink) :
  (forall p, pkt = Some p -> ok p) -> P ps s ->
  P (ps ++ option_list pkt) (run_iteration pkt now s).
Proof.
  intros Hok Hs. unfold run_iteration.
  set (s1 := match pkt with
             | Some p => handle p (set_last_activity now s)
             | None => s
             end).
  assert (H1 : P (ps ++ option_list pkt) s1).
  { subst s1. destruct pkt as [p|]; simpl.
    - apply P_handle; [apply Hok; reflexivity|].
      eapply P_core; [|exact Hs]. reflexivity.
    - rewrite app_nil_r. exact Hs. }
  clearbody s1.
  set (s2 := _commit_until (_k_seen_max s1 - _L s1) s1).
  assert (H2 : P (ps ++ option_list pkt) s2) by (apply lift_commit_until; exact H1).
  clearbody s2.
  set (s3 := if ltb 0 (_idle_watermark_sec s2) then _ else s2).
  assert (H3 : P (ps ++ option_list pkt) s3).
  { subst s3. destruct (ltb 0 _); [|exact H2].
    destruct (leb _ _); [|exact H2].
    eapply P_core; [|apply lift_commit_until; exact H2]. reflexivity. }
  clearbody s3.
  destruct (_ || _); [|exact H3].
  eapply P_core; [|exact H3]. reflexivity.
Qed.

Lemma lift_run (turns : list (option payload * Q)) :
  forall ps s, Forall ok (payloads turns) -> P ps s ->
               P (ps ++ payloads turns) (run turns s).
Proof.
  induction turns as [|[pkt now] turns IH]; intros ps s Hok Hs.
  - simpl. rewrite app_nil_r. exact Hs.
  - unfold run. cbn [foldl fst snd]. fold (run turns).
    assert (Hp : payloads ((pkt, now) :: turns) = option_list pkt ++ payloads turns).
    { unfold payloads. destruct pkt; reflexivity. }
    rewrite Hp in *. rewrite app_assoc. apply Forall_app in Hok as [Hok1 Hok2].
    apply IH; [exact Hok2|]. apply lift_run_iteration; [|exact Hs].
    intros p ->. simpl in Hok1. apply Forall_cons in Hok1 as [H _]. exact H.
Qed.

(** [stop] commits what is left and closes the files: the output is that of
    a state the property holds for. *)
Lemma lift_stop (ps : list payload) (s : ExportSink) :
  P ps s -> exists s', P ps s' /\ written (stop s) = written s'.
Proof.
  intros Hs. unfold stop. destruct (negb (_thr s)); [exists s; split; auto|].
  set (s0 := set_io false (_synced_writer s) (_markers_writer s) s).
  exists (_commit_until (_k_seen_max s0) s0). split; [|reflexivity].
  apply lift_commit_until. eapply P_core; [|exact Hs]. reflexivity.
Qed.

End Lifting.

Section SinkInvariants.

Import PyFloat Exporter.

(** ** Basic facts on the two files *)

Lemma synced_rows_app (l1 l2 : list write) :
  synced_rows (l1 ++ l2) = synced_rows l1 ++ synced_rows l2.
Proof. apply omap_app. Qed.

Lemma elem_of_synced_rows (log : list write) (k : Z) (row : list string) :
  (k, row) ∈ synced_rows log <-> SyncedRow k row ∈ log.
Proof.
  unfold synced_rows. rewrite list_elem_of_omap. split.
  - intros (w & Hin & Hw). destruct w; try discriminate.
    injection Hw as -> ->. exact Hin.
  - intros Hin. exists (SyncedRow k row). split; [exact Hin|reflexivity].
Qed.

Lemma synced_rows_nil (log : list write) :
  synced_rows log = [] <-> forall k row, SyncedRow k row ∉ log.
Proof.
  split.
  - intros H k row Hin. apply elem_of_synced_rows in Hin.
    rewrite H in Hin. inversion Hin.
  - intros H. destruct (synced_rows log) as [|[k row] l] eqn:E; [reflexivity|].
    exfalso. apply (H k row), elem_of_synced_rows. rewrite E. left.
Qed.

Lemma handler_writes_no_row (p : payload) (ws : list write) :
  Forall (handler_write p) ws -> forall k row, SyncedRow k row ∉ ws.
Proof.
  intros Hws k row Hin. rewrite Forall_forall in Hws.
  destruct (Hws _ Hin) as [[h H]|(k' & r & H & _)]; discriminate H.
Qed.

Lemma handler_writes_no_sync (p : payload) (ws : list write) :
  payload_source p <> Some "sync"%string ->
  Forall (handler_write p) ws -> no_sync_marker ws.
Proof.
  intros Hok Hws k row Hin Hsrc. rewrite Forall_forall in Hws.
  destruct (Hws _ Hin) as [[h H]|(k' & r & H & Hp)]; [discriminate H|].
  injection H as -> ->. rewrite Hsrc in Hp. exact (Hok Hp).
Qed.

Lemma no_sync_marker_app (l1 l2 : list write) :
  no_sync_marker l1 -> no_sync_marker l2 -> no_sync_marker (l1 ++ l2).
Proof.
  intros H1 H2 k row Hin. apply elem_of_app in Hin as [Hin|Hin]; eauto.
Qed.

Lemma sample_or_spike_ks_snoc (ps : list payload) (p : payload) (k : Z) :
  k ∈ sample_or_spike_ks (ps ++ [p]) <->
  k ∈ sample_or_spike_ks ps \/
  match p with
  | Sample k' _ _ _ | Spike k' _ _ _ => k = k'
  | Event _ _ _ _ _ => False
  end.
Proof.
  unfold sample_or_spike_ks. rewrite omap_app, elem_of_app.
  destruct p; simpl; rewrite ?list_elem_of_singleton; split;
    intros [H|H]; auto; inversion H.
Qed.

Lemma event_ks_snoc (ps : list payload) (p : payload) (k : Z) :
  k ∈ event_ks (ps ++ [p]) <->
  k ∈ event_ks ps \/
  match p with
  | Event k' _ _ _ _ => k = k'
  | _ => False
  end.
Proof.
  unfold event_ks. rewrite omap_app, elem_of_app.
  destruct p; simpl; rewrite ?list_elem_of_singleton; split;
    intros [H|H]; auto; inversion H.
Qed.

Lemma core_eq (s : ExportSink) w tq ec st im de mw :
  core s = (w, tq, ec, st, im, de, mw) ->
  written s = w /\ _tq_by_k s = tq /\ _event_changes s = ec /\
  _sticky_event s = st /\ _initial_marker_emitted s = im /\
  _default_event s = de /\ _markers_writer s = mw.
Proof. unfold core. intros [= -> -> -> -> -> -> ->]. repeat split. Qed.

(** [start()] writes the headers and opens the writers the flags enable. *)
Lemma start_effect (s : ExportSink) :
  _thr s = false ->
  exists hs,
    (forall k row, SyncedRow k row ∉ hs) /\ (forall k row, MarkersRow k row ∉ hs) /\
    core (snd (start s))
    = (written s ++ hs, _tq_by_k s, _event_changes s, _sticky_event s,
       _initial_marker_emitted s, _default_event s, _csv_marker_enabled s).
Proof.
  intros Hthr. unfold start. rewrite Hthr.
  cbn [_markers_writer _synced_writer _print_k _channels set_io].
  assert (H1 : forall w : write,
             (forall k row, w <> SyncedRow k row) ->
             forall k row, SyncedRow k row ∉ [w]).
  { intros w Hw k row H. apply list_elem_of_singleton in H. exact (Hw k row (eq_sym H)). }
  assert (H2 : forall w : write,
             (forall k row, w <> MarkersRow k row) ->
             forall k row, MarkersRow k row ∉ [w]).
  { intros w Hw k row H. apply list_elem_of_singleton in H. exact (Hw k row (eq_sym H)). }
  destruct (_csv_marker_enabled s) eqn:Em, (_csv_signal_enabled s) eqn:Es;
    cbn [_synced_writer _channels emit set_io]; try destruct (_channels s) eqn:Ech;
    cbn [snd]; unfold core; cbn; rewrite ?Em, ?Ech; cbn.
  all: first
    [ solve [ exists []; rewrite app_nil_r; (split; [|split]); [ | |reflexivity];
              intros k row H; inversion H ]
    | solve [ eexists [_]; (split; [|split]); [ | |reflexivity];
              [apply H1; discriminate|apply H2; discriminate] ]
    | solve [ eexists [_; _]; (split; [|split]);
              [ | |rewrite <- app_assoc; reflexivity];
              intros k row H; apply elem_of_cons in H as [H|H];
              try discriminate H; revert H;
              [apply H1; discriminate|apply H2; discriminate] ] ].
Qed.

(** A sink as [__init__] leaves it. *)
Lemma init_state cfg delta chans la fp fr las iw now :
  let s := __init__ cfg delta chans la fp fr las iw now in
  _thr s = false /\ _csv_marker_enabled s = CSV_MARKER_ENABLE cfg /\
  core s = ([], ∅, ∅, first_keymap_value cfg, false, first_keymap_value cfg, false).
Proof.
  unfold __init__. destruct fr as [n|], (FLUSH_ROWS cfg) as [m|]; repeat split.
Qed.

(** ** Rows come from samples and spikes only *)

Lemma rows_from_data_core ps s s' :
  core s' = core s -> rows_from_data ps s -> rows_from_data ps s'.
Proof.
  unfold core, rows_from_data. intros [= Hw Htq _ _ _ _ _].
  rewrite Hw, Htq. auto.
Qed.

Lemma rows_from_data_handle ps s p :
  True -> rows_from_data ps s -> rows_from_data (ps ++ [p]) (handle p s).
Proof.
  intros _ [Htq Hw].
  destruct (handle_effect p s) as (ws & Hws & Hc).
  apply core_eq in Hc as (Hw' & Htq' & _).
  unfold rows_from_data. rewrite Hw', Htq'. split.
  - intros k Hk. apply sample_or_spike_ks_snoc.
    destruct p as [k' ? ? ?|? ? ? ? ?|k' ? ? ?]; cbn [tq_after] in Hk; auto;
      (destruct (decide (k = k')) as [->|Hne]; [right; reflexivity|left]);
      rewrite lookup_insert_ne in Hk by congruence; auto.
  - intros k row Hin. apply sample_or_spike_ks_snoc. left.
    apply elem_of_app in Hin as [Hin|Hin]; [eauto|].
    exfalso. exact (handler_writes_no_row p ws Hws k row Hin).
Qed.

Lemma rows_from_data_keys ps s k :
  rows_from_data ps s -> is_Some (_tq_by_k s !! k) -> k ∈ sample_or_spike_ks ps.
Proof. intros [Htq _]. apply Htq. Qed.

Lemma rows_from_data_commit_row ps s k :
  k ∈ sample_or_spike_ks ps -> rows_from_data ps s ->
  rows_from_data ps (commit_row k s).
Proof.
  intros Hk [Htq Hw].
  destruct (commit_row_effect k s) as (ev & ec & mrow & row & _ & _ & _ & _ & _ & Hc).
  apply core_eq in Hc as (Hw' & Htq' & _).
  unfold rows_from_data. rewrite Hw', Htq'. split.
  - intros k' [v Hv]. apply lookup_delete_Some in Hv as [_ Hv]. eauto.
  - intros k' row' Hin.
    apply elem_of_app in Hin as [Hin|Hin]; [eauto|].
    apply elem_of_app in Hin as [Hin|Hin].
    + destruct (_ && _); [|inversion Hin].
      apply list_elem_of_singleton in Hin. discriminate Hin.
    + apply list_elem_of_singleton in Hin. injection Hin as -> _. exact Hk.
Qed.

Lemma rows_from_data_header ps s row :
  rows_from_data ps s -> rows_from_data ps (emit (SyncedHeader row) s).
Proof.
  intros [Htq Hw]. split; [exact Htq|]. cbn [written emit].
  intros k r Hin. apply elem_of_app in Hin as [Hin|Hin]; [eauto|].
  apply list_elem_of_singleton in Hin. discriminate Hin.
Qed.

Lemma rows_from_data_cleanup ps s (ec : gmap Z string) :
  (forall kk, is_Some (ec !! kk) -> is_Some (_event_changes s !! kk)) ->
  rows_from_data ps s -> rows_from_data ps (set_event_changes ec s).
Proof. intros _ H. exact H. Qed.

Lemma rows_from_data_session cfg delta chans la fp fr las iw now turns :
  forall k row,
    (k, row) ∈ synced_rows
      (written (session turns (__init__ cfg delta chans la fp fr las iw now))) ->
    k ∈ sample_or_spike_ks (payloads turns).
Proof.
  intros k row Hin.
  set (s0 := __init__ cfg delta chans la fp fr las iw now) in *.
  destruct (init_state cfg delta chans la fp fr las iw now) as (Hthr & _ & Hc0).
  fold s0 in Hthr, Hc0. apply core_eq in Hc0 as (Hw0 & Htq0 & _).
  destruct (start_effect s0 Hthr) as (hs & Hrows & _ & Hc).
  apply core_eq in Hc as (Hw & Htq & _). rewrite Hw0 in Hw. rewrite Htq0 in Htq.
  unfold session in Hin.
  destruct (start s0) as [[[]|e] s1] eqn:Estart; cbn [snd] in *.
  - assert (H1 : rows_from_data [] s1).
    { split; rewrite ?Hw, ?Htq.
      - intros k' [v Hv]. inversion Hv.
      - intros k' r H. exfalso. exact (Hrows k' r H). }
    pose proof (lift_run rows_from_data (fun _ => True) (fun ps k => k ∈ sample_or_spike_ks ps)
                  rows_from_data_core rows_from_data_handle rows_from_data_keys
                  rows_from_data_commit_row rows_from_data_header
                  rows_from_data_cleanup turns [] s1
                  ltac:(apply Forall_forall; auto) H1) as H2.
    destruct (lift_stop rows_from_data (fun ps k => k ∈ sample_or_spike_ks ps)
                rows_from_data_core rows_from_data_keys rows_from_data_commit_row
                rows_from_data_header rows_from_data_cleanup _ _ H2)
      as (s' & [_ Hs'] & Hws).
    rewrite Hws in Hin. apply elem_of_synced_rows in Hin. eauto.
  - exfalso. rewrite Hw in Hin. apply elem_of_synced_rows in Hin.
    exact (Hrows k row Hin).
Qed.

(** ** The initial marker *)

Lemma marker_placed_app dflt ps p log ws :
  marker_placed dflt ps log -> no_sync_marker ws ->
  marker_placed dflt (ps ++ p) (log ++ ws).
Proof.
  intros (pre & k & mrow & row & post & -> & Hpre & Hsrc & Hns & Hev) Hws.
  exists pre, k, mrow, row, (post ++ ws).
  split; [rewrite <- app_assoc; reflexivity|].
  split; [exact Hpre|]. split; [exact Hsrc|]. split.
  - rewrite app_assoc. apply no_sync_marker_app; assumption.
  - destruct Hev as [Hev|(kk & Hle & Hin)]; [left; exact Hev|].
    right. exists kk. split; [exact Hle|].
    unfold event_ks in *. rewrite omap_app. apply elem_of_app. left. exact Hin.
Qed.

Lemma marker_inv_core dflt ps s s' :
  core s' = core s -> marker_inv dflt ps s -> marker_inv dflt ps s'.
Proof.
  unfold core, marker_inv. intros [= Hw _ Hec Hst Him Hde Hmw].
  rewrite Hw, Hec, Hst, Him, Hde, Hmw. auto.
Qed.

Lemma marker_inv_handle dflt ps s p :
  not_from_sync p -> marker_inv dflt ps s ->
  marker_inv dflt (ps ++ [p]) (handle p s).
Proof.
  intros Hok (Hde & Hmw & Hec & Hlog).
  destruct (handle_effect p s) as (ws & Hws & Hc).
  apply core_eq in Hc as (Hw' & _ & Hec' & Hst' & Him' & Hde' & Hmw').
  unfold marker_inv. rewrite Hw', Hec', Hst', Him', Hde', Hmw'.
  split; [exact Hde|]. split; [exact Hmw|]. split.
  - intros kk Hk. apply event_ks_snoc.
    destruct p as [? ? ? ?|k' ? ? ? ?|? ? ? ?]; cbn [ec_after] in Hk; auto.
    destruct (decide (kk = k')) as [->|Hne]; [right; reflexivity|left].
    rewrite lookup_insert_ne in Hk by congruence. auto.
  - pose proof (handler_writes_no_sync p ws Hok Hws) as Hns.
    destruct (_initial_marker_emitted s).
    + apply marker_placed_app; assumption.
    + destruct Hlog as (Hrows & Hno & Hst). split; [|split; [|exact Hst]].
      * rewrite synced_rows_app, Hrows. simpl.
        apply synced_rows_nil, (handler_writes_no_row p ws Hws).
      * apply no_sync_marker_app; assumption.
Qed.

Lemma marker_inv_commit_row dflt ps s k :
  True -> marker_inv dflt ps s -> marker_inv dflt ps (commit_row k s).
Proof.
  intros _ (Hde & Hmw & Hec & Hlog).
  destruct (commit_row_effect k s)
    as (ev & ec & mrow & row & Hev & Hsub & Hsrc & Hmev & _ & Hc).
  apply core_eq in Hc as (Hw' & _ & Hec' & Hst' & Him' & Hde' & Hmw').
  unfold marker_inv. rewrite Hw', Hec', Him', Hde', Hmw'.
  split; [exact Hde|]. split; [exact Hmw|]. split; [auto|].
  rewrite Hmw. destruct (_initial_marker_emitted s); cbn [negb andb].
  - rewrite <- (app_nil_r ps). apply marker_placed_app; [exact Hlog|].
    intros k' r Hin. apply list_elem_of_singleton in Hin. discriminate Hin.
  - destruct Hlog as (Hrows & Hno & Hst).
    exists (written s), k, mrow, row, [].
    split; [reflexivity|]. split; [exact Hrows|]. split; [exact Hsrc|].
    split; [rewrite app_nil_r; exact Hno|].
    rewrite Hmev. destruct Hev as [->|(kk & Hle & Hin)]; [left; exact Hst|].
    right. exists kk. split; [exact Hle|auto].
Qed.

Lemma marker_inv_header dflt ps s row :
  marker_inv dflt ps s -> marker_inv dflt ps (emit (SyncedHeader row) s).
Proof.
  intros (Hde & Hmw & Hec & Hlog).
  assert (Hns : no_sync_marker [SyncedHeader row]).
  { intros k' r Hin. apply list_elem_of_singleton in Hin. discriminate Hin. }
  split; [exact Hde|]. split; [exact Hmw|]. split; [exact Hec|].
  cbn [_initial_marker_emitted written emit _sticky_event].
  destruct (_initial_marker_emitted s).
  - rewrite <- (app_nil_r ps). apply marker_placed_app; assumption.
  - destruct Hlog as (Hrows & Hno & Hst). split; [|split; [|exact Hst]].
    + rewrite synced_rows_app, Hrows. reflexivity.
    + apply no_sync_marker_app; assumption.
Qed.

Lemma marker_inv_cleanup dflt ps s (ec : gmap Z string) :
  (forall kk, is_Some (ec !! kk) -> is_Some (_event_changes s !! kk)) ->
  marker_inv dflt ps s -> marker_inv dflt ps (set_event_changes ec s).
Proof.
  intros Hsub (Hde & Hmw & Hec & Hlog).
  split; [exact Hde|]. split; [exact Hmw|]. split; [|exact Hlog].
  cbn [_event_changes set_event_changes]. auto.
Qed.

Lemma marker_inv_session cfg delta chans la fp fr las iw now turns :
  CSV_MARKER_ENABLE cfg = true ->
  Forall not_from_sync (payloads turns) ->
  synced_rows
    (written (session turns (__init__ cfg delta chans la fp fr las iw now))) <> [] ->
  marker_placed (first_keymap_value cfg) (payloads turns)
    (written (session turns (__init__ cfg delta chans la fp fr las iw now))).
Proof.
  intros Hmark Hok Hrows.
  set (s0 := __init__ cfg delta chans la fp fr las iw now) in *.
  destruct (init_state cfg delta chans la fp fr las iw now) as (Hthr & Hme & Hc0).
  fold s0 in Hthr, Hme, Hc0.
  apply core_eq in Hc0 as (Hw0 & _ & Hec0 & Hst0 & Him0 & Hde0 & _).
  destruct (start_effect s0 Hthr) as (hs & Hnorow & Hnomark & Hc).
  apply core_eq in Hc as (Hw & _ & Hec & Hst & Him & Hde & Hmw).
  rewrite Hw0 in Hw. rewrite Hec0 in Hec. rewrite Hst0 in Hst.
  rewrite Him0 in Him. rewrite Hde0 in Hde. rewrite Hme, Hmark in Hmw.
  unfold session in *.
  destruct (start s0) as [[[]|e] s1] eqn:Estart; cbn [snd] in *.
  - assert (H1 : marker_inv (first_keymap_value cfg) [] s1).
    { unfold marker_inv. rewrite Hde, Hmw, Hec, Him, Hw, Hst.
      split; [reflexivity|]. split; [reflexivity|]. split.
      - intros kk [v Hv]. inversion Hv.
      - split; [apply synced_rows_nil, Hnorow|]. split; [|reflexivity].
        intros k r Hin. exfalso. exact (Hnomark k r Hin). }
    pose proof (lift_run (marker_inv (first_keymap_value cfg)) not_from_sync
                  (fun _ _ => True)
                  (marker_inv_core _) (marker_inv_handle _) (fun _ _ _ _ _ => I)
                  (marker_inv_commit_row _) (marker_inv_header _)
                  (marker_inv_cleanup _) turns [] s1 Hok H1) as H2.
    destruct (lift_stop (marker_inv (first_keymap_value cfg)) (fun _ _ => True)
                (marker_inv_core _) (fun _ _ _ _ _ => I)
                (marker_inv_commit_row _) (marker_inv_header _)
                (marker_inv_cleanup _) _ _ H2)
      as (s' & (_ & _ & _ & Hlog) & Hws).
    rewrite Hws in *. cbn [app] in Hlog.
    destruct (_initial_marker_emitted s'); [exact Hlog|].
    destruct Hlog as [Hnil _]. contradiction.
  - exfalso. apply Hrows. rewrite Hw. apply synced_rows_nil, Hnorow.
Qed.

(** C4 as amended.  In every session with the markers CSV enabled in which
    at least one row is committed and no trigger payload carries the source
    text "sync", the markers CSV holds exactly one row with source "sync";
    it is written at the first committed frame index k, right before the
    data row of that k, and its event column is the default event (the
    first value of the event keymap) whenever no event change with
    k' <= k arrives in the session. *)
Theorem initial_marker_once cfg delta chans la fp fr las iw now turns :
  let log := written (session turns (__init__ cfg delta chans la fp fr las iw now)) in
  CSV_MARKER_ENABLE cfg = true ->
  Forall (fun p => payload_source p <> Some "sync"%string) (payloads turns) ->
  synced_rows log <> [] ->
  exists pre k mrow row post,
    log = pre ++ MarkersRow k mrow :: SyncedRow k row :: post /\
    synced_rows pre = [] /\
    source_column mrow = "sync"%string /\
    no_sync_marker (pre ++ post) /\
    ((forall kk, kk ∈ event_ks (payloads turns) -> k < kk) ->
     marker_event_column mrow = first_keymap_value cfg).
Proof.
  intros log Hmark Hok Hrows.
  destruct (marker_inv_session cfg delta chans la fp fr las iw now turns
              Hmark Hok Hrows)
    as (pre & k & mrow & row & post & Hlog & Hpre & Hsrc & Hns & Hev).
  exists pre, k, mrow, row, post.
  split; [exact Hlog|]. split; [exact Hpre|]. split; [exact Hsrc|].
  split; [exact Hns|].
  intros Hlate. destruct Hev as [Hev|(kk & Hle & Hin)]; [exact Hev|].
  specialize (Hlate kk Hin). lia.
Qed.

Lemma initial_marker_once_witness :
  let turns := [demo_sample 1 1; demo_event 3 "TASK_8"; demo_sample 5 2] in
  let log := written (session turns (demo_sink true)) in
  CSV_MARKER_ENABLE (demo_config true) = true /\
  Forall (fun p => payload_source p <> Some "sync"%string) (payloads turns) /\
  synced_rows log <> [] /\
  exists pre k mrow row post,
    log = pre ++ MarkersRow k mrow :: SyncedRow k row :: post /\
    synced_rows pre = [] /\
    source_column mrow = "sync"%string /\
    no_sync_marker (pre ++ post) /\
    ((forall kk, kk ∈ event_ks (payloads turns) -> k < kk) ->
     marker_event_column mrow = first_keymap_value (demo_config true)).
Proof.
  intros turns log.
  assert (Hok : Forall (fun p => payload_source p <> Some "sync"%string)
                  (payloads turns)).
  { repeat constructor; discriminate. }
  assert (Hrows : synced_rows log <> []) by (vm_compute; discriminate).
  split; [reflexivity|]. split; [exact Hok|]. split; [exact Hrows|].
  exact (initial_marker_once (demo_config true) (1 # 100) (Some ["A:x"%string])
           (Some 3) None None None None 0 turns eq_refl Hok Hrows).
Defined.

(** C10 as amended.  Handling an event payload changes nothing in the sink
    but the [event_changes] map, which gains the change at k, and the
    output, which gains one markers-CSV row when the markers CSV is enabled
    and nothing otherwise: the open row buffer, [tq_by_k] and [k_seen_max]
    are unchanged.  So in every session each row of the synced CSV is at a
    frame index at which a sample or a spike arrived: an index at which only
    event payloads arrive never produces a row. *)
Theorem event_payload_frame :
  (forall s k t_q label source current_after,
     let s' := _on_event k t_q label source current_after s in
     same_but_events_and_output s s' /\
     _event_changes s' = <[k := current_after]> (_event_changes s) /\
     written s'
     = written s ++
       (if _markers_writer s
        then [MarkersRow k (k_prefix s k ++
                [_fmt_val (Some (FFin t_q)); current_after; ""; source]%string)]
        else [])) /\
  (forall cfg delta chans la fp fr las iw now turns k row,
     (k, row) ∈ synced_rows
       (written (session turns (__init__ cfg delta chans la fp fr las iw now))) ->
     k ∈ sample_or_spike_ks (payloads turns)).
Proof.
  split.
  - intros s k t_q label source current_after. cbn zeta.
    unfold _on_event, _write_marker, same_but_events_and_output.
    cbn [_markers_writer set_event_changes].
    destruct (_markers_writer s) eqn:Emw; cbn [negb]; cbn;
      rewrite ?Emw, ?app_nil_r; repeat split.
  - intros cfg delta chans la fp fr las iw now turns k row.
    apply rows_from_data_session.
Qed.

Lemma event_payload_frame_witness :
  let turns := [demo_sample 1 1; demo_event 3 "TASK_8"; demo_sample 5 2;
                demo_sample 9 3] in
  (1, ["1"; "0.010000"; "1.000000"; ""; "REST"]%string)
    ∈ synced_rows (written (session turns (demo_sink true))) /\
  1 ∈ sample_or_spike_ks (payloads turns) /\
  3 ∉ sample_or_spike_ks (payloads turns).
Proof.
  intros turns.
  assert (Hin : (1, ["1"; "0.010000"; "1.000000"; ""; "REST"]%string)
                  ∈ synced_rows (written (session turns (demo_sink true)))).
  { vm_compute. left. }
  split; [exact Hin|]. split.
  - exact (proj2 event_payload_frame (demo_config true) (1 # 100)
             (Some ["A:x"%string]) (Some 3) None None None None 0%Q turns 1 _ Hin).
  - vm_compute. intros H.
    repeat (apply elem_of_cons in H as [H|H]; [discriminate H|]). inversion H.
Defined.

End SinkInvariants.

(* ===================================================================== *)
(** * Further properties of the export sink *)
(* ===================================================================== *)

Section SinkSteps.

Import PyFloat Exporter SinkFacts.

Lemma params_proj (s s' : ExportSink) :
  params s' = params s ->
  _thr s' = _thr s /\ _print_k s' = _print_k s /\ _L s' = _L s /\
  _idle_watermark_sec s' = _idle_watermark_sec s /\
  _last_activity_monotonic s' = _last_activity_monotonic s /\
  _channels s' = _channels s /\ _default_event s' = _default_event s /\
  _synced_writer s' = _synced_writer s /\ _markers_writer s' = _markers_writer s /\
  _delta s' = _delta s.
Proof. unfold params. intros [= -> -> -> -> _ _ -> -> _ _ -> -> _ -> ->]. repeat split. Qed.

(** The loop body of the commit, as the updates it makes to the state it
    finds. *)
Lemma commit_row_eq (k : Z) (s : ExportSink) :
  exists ev (ec : gmap Z string),
    (ev = _sticky_event s \/ exists kk, kk <= k /\ is_Some (_event_changes s !! kk)) /\
    (forall kk, is_Some (ec !! kk) -> is_Some (_event_changes s !! kk)) /\
    commit_row k s =
      let s1 := set_event_changes ec (set_sticky_event ev s) in
      let s2 :=
        if negb (_initial_marker_emitted s) then
          set_initial_marker_emitted true
            (_write_marker k (buffered_t_q s k) ev EmptyString "sync" s1)
        else s1 in
      set_pending_committed (_pending_committed s + 1)
        (set_tq_by_k (delete k (_tq_by_k s))
           (emit (SyncedRow k (data_row s k ev))
              (set_open_rows (delete k (_open_rows s)) s2))).
Proof.
  destruct (apply_event_changes_shape k s) as (ev & ec & Hshape & Hev & Hec).
  exists ev, ec. split; [exact Hev|]. split; [exact Hec|].
  unfold commit_row. rewrite Hshape. cbn zeta.
  unfold _write_marker, data_row, buffered_t_q.
  cbn [_initial_marker_emitted _sticky_event _tq_by_k _open_rows _delta
       _markers_writer set_event_changes set_sticky_event].
  destruct (_initial_marker_emitted s) eqn:Eim, (_markers_writer s) eqn:Emw;
    cbn; rewrite ?Eim, ?Emw; reflexivity.
Qed.

(** What a committed row leaves of the fields of the sink. *)
Lemma commit_row_fields (k : Z) (s : ExportSink) :
  params (commit_row k s) = params s /\
  _k_seen_max (commit_row k s) = _k_seen_max s /\
  _header_frozen (commit_row k s) = _header_frozen s /\
  _tq_by_k (commit_row k s) = delete k (_tq_by_k s) /\
  _open_rows (commit_row k s) = delete k (_open_rows s) /\
  _initial_marker_emitted (commit_row k s) = true /\
  exists ev,
    (ev = _sticky_event s \/ exists kk, kk <= k /\ is_Some (_event_changes s !! kk)) /\
    _sticky_event (commit_row k s) = ev /\
    written (commit_row k s)
    = written s
        ++ (if negb (_initial_marker_emitted s) && _markers_writer s
            then [MarkersRow k (k_prefix s k ++
                     [_fmt_val (Some (FFin (buffered_t_q s k))); ev; EmptyString; "sync"%string])]
            else [])
        ++ [SyncedRow k (data_row s k ev)].
Proof.
  destruct (commit_row_eq k s) as (ev & ec & Hev & _ & ->). cbn zeta.
  unfold _write_marker, params.
  cbn [_markers_writer set_event_changes set_sticky_event].
  destruct (_initial_marker_emitted s) eqn:Eim, (_markers_writer s) eqn:Emw;
    cbn; rewrite ?Eim, ?Emw; repeat split; exists ev;
    (split; [exact Hev|]); (split; [reflexivity|]);
    rewrite <- ?app_assoc; reflexivity.
Qed.

(** The same for a payload handled. *)
Lemma handle_fields (p : payload) (s : ExportSink) :
  params (handle p s) = params s /\
  (_header_frozen s = true -> _header_frozen (handle p s) = true) /\
  _k_seen_max (handle p s)
  = match p with
    | Sample k _ _ _ | Spike k _ _ _ => Z.max (_k_seen_max s) k
    | Event _ _ _ _ _ => _k_seen_max s
    end /\
  _tq_by_k (handle p s) = tq_after p (_tq_by_k s) /\
  _sticky_event (handle p s) = _sticky_event s /\
  _initial_marker_emitted (handle p s) = _initial_marker_emitted s /\
  (_header_frozen s = true ->
   written (handle p s)
   = written s ++
     match trigger_row s p with
     | Some (k, row) => if _markers_writer s then [MarkersRow k row] else []
     | None => []
     end).
Proof.
  destruct p as [k t_q dev pairs|k t_q label source current_after|k t_q label source];
    unfold handle, params.
  - unfold _on_sample, _write_synced_header.
    cbn [_header_frozen _synced_writer _channels set_k_seen_max set_tq_by_k
         set_open_rows].
    destruct (_header_frozen s) eqn:Ehf; cbn [negb orb].
    { cbn. rewrite ?Ehf, app_nil_r. repeat split. }
    destruct (_synced_writer s) eqn:Esw; cbn [negb orb].
    2:{ cbn. rewrite ?Esw. repeat split; discriminate. }
    destruct (_channels s) as [|c cs] eqn:Ech.
    { cbn. rewrite ?Esw, ?Ech. repeat split; discriminate. }
    cbn. rewrite ?Esw, ?Ech. repeat split; discriminate.
  - unfold _on_event, _write_marker. cbn [_markers_writer set_event_changes].
    destruct (_markers_writer s) eqn:Emw; cbn [negb]; cbn;
      rewrite ?Emw, ?app_nil_r; repeat split; auto.
  - unfold _on_spike, _write_marker.
    cbn [_markers_writer set_open_rows set_tq_by_k set_k_seen_max].
    destruct (_markers_writer s) eqn:Emw; cbn [negb]; cbn;
      rewrite ?Emw, ?app_nil_r; repeat split; auto.
Qed.

(** The rows of a commit, folded over the list of frames. *)
Lemma commit_rows_fields (ks : list Z) :
  forall s,
    let s' := foldl (fun s k => commit_row k s) s ks in
    params s' = params s /\
    _k_seen_max s' = _k_seen_max s /\
    _header_frozen s' = _header_frozen s /\
    (forall k, _tq_by_k s' !! k = if bool_decide (k ∈ ks) then None else _tq_by_k s !! k) /\
    (forall k, _open_rows s' !! k = if bool_decide (k ∈ ks) then None else _open_rows s !! k).
Proof.
  induction ks as [|k0 ks IH]; intros s; cbn zeta.
  - cbn [foldl]. repeat split; intros k;
      rewrite bool_decide_eq_false_2 by (intros H; inversion H); reflexivity.
  - cbn [foldl].
    destruct (IH (commit_row k0 s)) as (Hp & Hk & Hf & Htq & Hor).
    destruct (commit_row_fields k0 s) as (Hp0 & Hk0 & Hf0 & Htq0 & Hor0 & _).
    split; [congruence|]. split; [congruence|]. split; [congruence|].
    split; intros k; [rewrite Htq, Htq0|rewrite Hor, Hor0];
      (destruct (decide (k ∈ ks)) as [Hin|Hout];
       [rewrite !bool_decide_eq_true_2; [reflexivity|right; exact Hin|exact Hin]|];
       rewrite (bool_decide_eq_false_2 _ Hout);
       destruct (decide (k = k0)) as [->|Hne];
       [rewrite lookup_delete_eq, bool_decide_eq_true_2 by left; reflexivity|];
       rewrite lookup_delete_ne by congruence;
       rewrite bool_decide_eq_false_2; [reflexivity|];
       intros H; apply elem_of_cons in H as [H|H]; contradiction).
Qed.

(** With the header written, a commit is the loop over the buffered frames
    up to the watermark and the cleanup, or nothing. *)
Lemma commit_until_cases (k_commit : Z) (s : ExportSink) :
  (_synced_writer s = true -> _header_frozen s = true) ->
  _commit_until k_commit s = s \/
  (_synced_writer s = true /\
   _commit_until k_commit s
   = set_event_changes
       (filter (fun kv => ¬ (fst kv <= k_commit))
          (_event_changes (foldl (fun s k => commit_row k s) s
                             (sorted_keys_le (_tq_by_k s) k_commit))))
       (foldl (fun s k => commit_row k s) s
          (sorted_keys_le (_tq_by_k s) k_commit))).
Proof.
  intros Hfz. unfold _commit_until.
  destruct (_synced_writer s) eqn:Esw; cbn [negb]; [|left; reflexivity].
  rewrite (Hfz eq_refl). cbn [negb].
  destruct (_ && _); [left; reflexivity|right; split; reflexivity].
Qed.

Lemma elem_of_sorted_keys_le_2 {A} (d : gmap Z A) (bound k : Z) :
  is_Some (d !! k) -> k <= bound -> k ∈ sorted_keys_le d bound.
Proof.
  intros [v Hv] Hle. unfold sorted_keys_le.
  rewrite merge_sort_Permutation, list_elem_of_filter. split; [exact Hle|].
  apply list_elem_of_In, in_map_iff. exists (k, v). split; [reflexivity|].
  apply list_elem_of_In, elem_of_map_to_list. exact Hv.
Qed.

Lemma commit_until_fields (k_commit : Z) (s : ExportSink) :
  (_synced_writer s = true -> _header_frozen s = true) ->
  params (_commit_until k_commit s) = params s /\
  _k_seen_max (_commit_until k_commit s) = _k_seen_max s /\
  _header_frozen (_commit_until k_commit s) = _header_frozen s.
Proof.
  intros Hfz. destruct (commit_until_cases k_commit s Hfz) as [->|[_ ->]].
  - repeat split.
  - destruct (commit_rows_fields (sorted_keys_le (_tq_by_k s) k_commit) s)
      as (Hp & Hk & Hf & _).
    split; [exact Hp|]. split; [exact Hk|exact Hf].
Qed.

End SinkSteps.

(** A property of the sink that each step of the consumer keeps is kept by
    a run; the payloads may be constrained by the state they arrive in. *)
Section RunInduction.

Import PyFloat Exporter SinkFacts.

Variable P : list payload -> ExportSink -> Prop.
Variable ok : ExportSink -> payload -> Prop.

Hypothesis P_activity :
  forall ps s v, P ps s -> P ps (set_last_activity v s).
Hypothesis P_flushed :
  forall ps s v w, P ps s -> P ps (set_pending_committed v (set_last_flush_time w s)).
Hypothesis ok_activity :
  forall s v p, ok s p -> ok (set_last_activity v s) p.
Hypothesis P_handle :
  forall ps s p, ok s p -> P ps s -> P (ps ++ [p]) (handle p s).
Hypothesis P_commit_lookahead :
  forall ps s, P ps s -> P ps (_commit_until (_k_seen_max s - _L s) s).
Hypothesis P_commit_idle :
  forall ps s, ltb 0 (_idle_watermark_sec s) = true ->
               P ps s -> P ps (_commit_until (_k_seen_max s) s).

Lemma run_iteration_inv (ps : list payload) (pkt : option payload) (now : Q)
  (s : ExportSink) :
  (forall p, pkt = Some p -> ok s p) -> P ps s ->
  P (ps ++ option_list pkt) (run_iteration pkt now s).
Proof.
  intros Hok Hs. unfold run_iteration.
  set (s1 := match pkt with
             | Some p => handle p (set_last_activity now s)
             | None => s
             end).
  assert (H1 : P (ps ++ option_list pkt) s1).
  { subst s1. destruct pkt as [p|]; simpl.
    - apply P_handle; [apply ok_activity, Hok; reflexivity|].
      apply P_activity. exact Hs.
    - rewrite app_nil_r. exact Hs. }
  clearbody s1.
  set (s2 := _commit_until (_k_seen_max s1 - _L s1) s1).
  assert (H2 : P (ps ++ option_list pkt) s2) by (apply P_commit_lookahead; exact H1).
  clearbody s2.
  set (s3 := if ltb 0 (_idle_watermark_sec s2) then _ else s2).
  assert (H3 : P (ps ++ option_list pkt) s3).
  { subst s3. destruct (ltb 0 _) eqn:Eiw; [|exact H2].
    destruct (leb _ _); [|exact H2].
    apply P_activity, P_commit_idle; assumption. }
  clearbody s3.
  destruct (_ || _); [|exact H3].
  apply P_flushed. exact H3.
Qed.

Lemma run_inv (turns : list (option payload * Q)) :
  forall ps s, run_ok ok turns s -> P ps s ->
               P (ps ++ payloads turns) (run turns s).
Proof.
  induction turns as [|[pkt now] turns IH]; intros ps s Hok Hs.
  - simpl. rewrite app_nil_r. exact Hs.
  - unfold run. cbn [foldl fst snd]. fold (run turns).
    assert (Hp : payloads ((pkt, now) :: turns) = option_list pkt ++ payloads turns).
    { unfold payloads. destruct pkt; reflexivity. }
    rewrite Hp, app_assoc. destruct Hok as [Hok1 Hok2].
    apply IH; [exact Hok2|]. apply run_iteration_inv; assumption.
Qed.

End RunInduction.

Section SinkBuffers.

Import PyFloat Exporter SinkFacts.

(** ** The buffers *)

Lemma handle_open_rows (p : payload) (s : ExportSink) (k : Z) :
  is_Some (_open_rows (handle p s) !! k) ->
  is_Some (_open_rows s !! k) \/
  match p with
  | Sample k' _ _ _ | Spike k' _ _ _ => k = k'
  | Event _ _ _ _ _ => False
  end.
Proof.
  destruct p as [k' t_q dev pairs|k' t_q label source current_after|k' t_q label source];
    unfold handle.
  - unfold _on_sample, _write_synced_header.
    cbn [_header_frozen _synced_writer _channels set_k_seen_max set_tq_by_k
         set_open_rows _open_rows].
    assert (H : forall s' : ExportSink,
               _open_rows s' = <[k' := fill_row (_channels s) dev pairs
                                        (default ∅ (_open_rows s !! k'))]> (_open_rows s) ->
               is_Some (_open_rows s' !! k) ->
               is_Some (_open_rows s !! k) \/ k = k').
    { intros s' -> Hk. destruct (decide (k = k')) as [->|Hne]; [right; reflexivity|].
      rewrite lookup_insert_ne in Hk by congruence. left. exact Hk. }
    destruct (negb (_header_frozen s)); [|apply H; reflexivity].
    destruct (negb (_synced_writer s) || _header_frozen s); [apply H; reflexivity|].
    destruct (_channels s); apply H; reflexivity.
  - unfold _on_event, _write_marker. cbn [_markers_writer set_event_changes].
    destruct (negb (_markers_writer s)); cbn; auto.
  - unfold _on_spike, _write_marker.
    cbn [_markers_writer set_open_rows set_tq_by_k set_k_seen_max].
    destruct (negb (_markers_writer s)); cbn; intros Hk;
      (destruct (decide (k = k')) as [->|Hne]; [right; reflexivity|]);
      rewrite lookup_insert_ne in Hk by congruence; left; exact Hk.
Qed.

Lemma base_inv_handle (p : payload) (s : ExportSink) :
  base_inv s -> base_inv (handle p s).
Proof.
  intros [Hfz [Htq Hor]].
  destruct (handle_fields p s) as (Hp & Hf & Hk & Ht & _).
  assert (Hsw : _synced_writer (handle p s) = _synced_writer s)
    by apply (params_proj _ _ Hp).
  split; [rewrite Hsw; auto|]. split.
  - intros k. rewrite Ht, Hk.
    destruct p as [k' ? ? ?|? ? ? ? ?|k' ? ? ?]; cbn [tq_after]; auto;
      (destruct (decide (k = k')) as [->|Hne];
       [intros _; lia|rewrite lookup_insert_ne by congruence;
                      intros H; specialize (Htq k H); lia]).
  - intros k Hk'. rewrite Ht.
    destruct (handle_open_rows p s k Hk') as [H|H].
    + specialize (Hor k H).
      destruct p as [k' ? ? ?|? ? ? ? ?|k' ? ? ?]; cbn [tq_after]; auto;
        (destruct (decide (k = k')) as [->|Hne];
         [rewrite lookup_insert_eq; eauto|rewrite lookup_insert_ne by congruence; exact Hor]).
    + destruct p as [k' ? ? ?|? ? ? ? ?|k' ? ? ?]; cbn [tq_after];
        [subst; rewrite lookup_insert_eq; eauto|contradiction
        |subst; rewrite lookup_insert_eq; eauto].
Qed.

Lemma base_inv_commit_rows (ks : list Z) (s : ExportSink) :
  base_inv s -> base_inv (foldl (fun s k => commit_row k s) s ks).
Proof.
  intros [Hfz [Htq Hor]].
  destruct (commit_rows_fields ks s) as (Hp & Hk & Hf & Ht & Ho).
  assert (Hsw : _synced_writer (foldl (fun s k => commit_row k s) s ks)
                = _synced_writer s) by apply (params_proj _ _ Hp).
  split; [rewrite Hsw, Hf; exact Hfz|]. split.
  - intros k. rewrite Ht, Hk. destruct (bool_decide _); [intros [? H]; discriminate H|auto].
  - intros k. rewrite Ht, Ho. destruct (bool_decide _); [intros [? H]; discriminate H|auto].
Qed.

Lemma base_inv_commit_until (k_commit : Z) (s : ExportSink) :
  base_inv s -> base_inv (_commit_until k_commit s).
Proof.
  intros Hs. destruct (commit_until_cases k_commit s (proj1 Hs)) as [->|[_ ->]];
    [exact Hs|].
  exact (base_inv_commit_rows _ s Hs).
Qed.

Lemma base_inv_run (turns : list (option payload * Q)) (s : ExportSink) :
  base_inv s -> base_inv (run turns s).
Proof.
  intros Hs.
  apply (run_inv (fun _ => base_inv) (fun _ _ => True)) with (ps := []); auto.
  - intros _ s' p _. apply base_inv_handle.
  - intros _ s'. apply base_inv_commit_until.
  - intros _ s' _. apply base_inv_commit_until.
  - clear Hs. revert s. induction turns as [|[pkt now] turns IH]; intros s; simpl; auto.
Qed.

(** The fields of a sink as [__init__] leaves it. *)
Lemma init_fields cfg delta chans la fp fr las iw now :
  let s0 := __init__ cfg delta chans la fp fr las iw now in
  _thr s0 = false /\
  _csv_signal_enabled s0 = CSV_SIGNAL_ENABLE cfg /\
  _csv_marker_enabled s0 = CSV_MARKER_ENABLE cfg /\
  _channels s0 = default [] chans /\ _print_k s0 = PRINT_K cfg /\
  _k_seen_max s0 = -1 /\ _tq_by_k s0 = ∅ /\ _open_rows s0 = ∅ /\
  _event_changes s0 = ∅ /\ _initial_marker_emitted s0 = false /\
  _sticky_event s0 = first_keymap_value cfg /\
  _default_event s0 = first_keymap_value cfg /\
  _idle_watermark_sec s0 = default (IDLE_WATERMARK_SEC cfg) iw /\
  written s0 = [].
Proof.
  unfold __init__. destruct fr as [n|], (FLUSH_ROWS cfg) as [m|]; repeat split.
Qed.

(** What a successful [start()] changes. *)
Lemma start_fields (s : ExportSink) :
  _thr s = false -> fst (start s) = Returned tt ->
  let s1 := snd (start s) in
  _thr s1 = true /\
  _synced_writer s1 = _csv_signal_enabled s /\
  _markers_writer s1 = _csv_marker_enabled s /\
  (_csv_signal_enabled s = true -> _channels s <> [] /\ _header_frozen s1 = true) /\
  _channels s1 = _channels s /\ _print_k s1 = _print_k s /\
  _k_seen_max s1 = _k_seen_max s /\ _tq_by_k s1 = _tq_by_k s /\
  _open_rows s1 = _open_rows s /\ _event_changes s1 = _event_changes s /\
  _initial_marker_emitted s1 = _initial_marker_emitted s /\
  _sticky_event s1 = _sticky_event s /\ _default_event s1 = _default_event s /\
  _idle_watermark_sec s1 = _idle_watermark_sec s /\ _L s1 = _L s /\
  written s1
  = written s
    ++ (if _csv_marker_enabled s
        then [MarkersHeader ((if _print_k s then ["k"%string] else [])
                               ++ ["t_q"; "event"; "spike"; "source"]%string)]
        else [])
    ++ (if _csv_signal_enabled s then [SyncedHeader (synced_header s)] else []).
Proof.
  intros Hthr. unfold start, synced_header. rewrite Hthr.
  cbn [_markers_writer _synced_writer _print_k _channels set_io].
  destruct (_csv_marker_enabled s) eqn:Em, (_csv_signal_enabled s) eqn:Es;
    cbn [_synced_writer _channels emit set_io];
    try destruct (_channels s) eqn:Ech; cbn [fst snd];
    try discriminate; intros _; cbn; rewrite ?Em, ?Es, ?Ech, ?app_nil_r;
    repeat split; try discriminate; rewrite <- ?app_assoc; reflexivity.
Qed.

(** A sink that [start()] has just opened. *)
Lemma started_state cfg delta chans la fp fr las iw now :
  let s0 := __init__ cfg delta chans la fp fr las iw now in
  fst (start s0) = Returned tt ->
  let s1 := snd (start s0) in
  base_inv s1 /\ _thr s1 = true /\
  _synced_writer s1 = CSV_SIGNAL_ENABLE cfg /\
  _markers_writer s1 = CSV_MARKER_ENABLE cfg /\
  (CSV_SIGNAL_ENABLE cfg = true -> _channels s1 <> []) /\
  _channels s1 = default [] chans /\ _print_k s1 = PRINT_K cfg /\
  _k_seen_max s1 = -1 /\ _tq_by_k s1 = ∅ /\ _open_rows s1 = ∅ /\
  _event_changes s1 = ∅ /\ _initial_marker_emitted s1 = false /\
  _sticky_event s1 = first_keymap_value cfg /\
  _idle_watermark_sec s1 = default (IDLE_WATERMARK_SEC cfg) iw /\
  written s1
  = (if CSV_MARKER_ENABLE cfg
     then [MarkersHeader ((if PRINT_K cfg then ["k"%string] else [])
                            ++ ["t_q"; "event"; "spike"; "source"]%string)]
     else [])
    ++ (if CSV_SIGNAL_ENABLE cfg then [SyncedHeader (synced_header s1)] else []).
Proof.
  intros s0 Hstart s1.
  destruct (init_fields cfg delta chans la fp fr las iw now)
    as (Hthr & Hsig & Hmk & Hch & Hpk & Hk & Ht & Ho & He & Him & Hst & Hde & Hiw & Hw).
  fold s0 in Hthr, Hsig, Hmk, Hch, Hpk, Hk, Ht, Ho, He, Him, Hst, Hde, Hiw, Hw.
  destruct (start_fields s0 Hthr Hstart)
    as (Hthr1 & Hsw1 & Hmw1 & Hfz1 & Hch1 & Hpk1 & Hk1 & Ht1 & Ho1 & He1 & Him1
        & Hst1 & Hde1 & Hiw1 & HL1 & Hw1).
  fold s1 in Hthr1, Hsw1, Hmw1, Hfz1, Hch1, Hpk1, Hk1, Ht1, Ho1, He1, Him1,
             Hst1, Hde1, Hiw1, HL1, Hw1.
  split.
  { split.
    - rewrite Hsw1. intros H. apply Hfz1, H.
    - split; intros k; rewrite ?Ht1, ?Ho1, ?Ht, ?Ho; intros [v Hv]; inversion Hv. }
  split; [exact Hthr1|]. split; [congruence|]. split; [congruence|].
  split; [rewrite Hch1, <- Hsig; intros H; apply Hfz1, H|].
  split; [congruence|]. split; [congruence|]. split; [congruence|].
  split; [congruence|]. split; [congruence|]. split; [congruence|].
  split; [congruence|]. split; [congruence|]. split; [congruence|].
  rewrite Hw1, Hw, Hmk, Hsig, Hpk. cbn [app].
  unfold synced_header. rewrite Hpk1, Hch1. reflexivity.
Qed.

(** Committing up to [k_seen_max] empties the buffers. *)
Lemma commit_all_empties (s : ExportSink) :
  base_inv s -> _synced_writer s = true ->
  _tq_by_k (_commit_until (_k_seen_max s) s) = ∅ /\
  _open_rows (_commit_until (_k_seen_max s) s) = ∅.
Proof.
  intros [Hfz [Htq Hor]] Hsw.
  set (ks := sorted_keys_le (_tq_by_k s) (_k_seen_max s)).
  assert (Hloop : _tq_by_k (foldl (fun s k => commit_row k s) s ks) = ∅ /\
                  _open_rows (foldl (fun s k => commit_row k s) s ks) = ∅).
  { destruct (commit_rows_fields ks s) as (_ & _ & _ & Ht & Ho).
    split; apply map_eq; intros k; rewrite lookup_empty, ?Ht, ?Ho;
      (destruct (decide (k ∈ ks)) as [Hin|Hout];
       [rewrite bool_decide_eq_true_2 by exact Hin; reflexivity|]);
      rewrite bool_decide_eq_false_2 by exact Hout.
    - destruct (_tq_by_k s !! k) eqn:E; [|reflexivity].
      exfalso. apply Hout, elem_of_sorted_keys_le_2; eauto.
    - destruct (_open_rows s !! k) eqn:E; [|reflexivity].
      exfalso. apply Hout, elem_of_sorted_keys_le_2; [apply Hor; eauto|].
      apply Htq, Hor. eauto. }
  unfold _commit_until. rewrite Hsw, (Hfz Hsw). cbn [negb].
  destruct (bool_decide (_open_rows s = ∅)) eqn:E1,
           (bool_decide (_tq_by_k s = ∅)) eqn:E2; cbn [andb];
    try exact Hloop.
  apply bool_decide_eq_true in E1, E2. auto.
Qed.

End SinkBuffers.

Section SinkFlush.

Import PyFloat Exporter SinkFacts.

Lemma params_settings (s s' : ExportSink) :
  params s' = params s -> settings s' = settings s.
Proof. unfold params, settings. intros [= -> -> -> -> _ _ -> _ _ _ -> -> _ -> ->]. reflexivity. Qed.

Lemma settings_proj (s s' : ExportSink) :
  settings s' = settings s ->
  _thr s' = _thr s /\ _print_k s' = _print_k s /\ _L s' = _L s /\
  _idle_watermark_sec s' = _idle_watermark_sec s /\
  _channels s' = _channels s /\ _default_event s' = _default_event s /\
  _synced_writer s' = _synced_writer s /\ _markers_writer s' = _markers_writer s /\
  _delta s' = _delta s.
Proof. unfold settings. intros [= -> -> -> -> -> -> -> -> ->]. repeat split. Qed.

(** A run keeps the settings and the bounds of the buffers. *)
Lemma run_settings (turns : list (option payload * Q)) (s : ExportSink) :
  base_inv s ->
  base_inv (run turns s) /\ settings (run turns s) = settings s.
Proof.
  intros Hs.
  apply (run_inv (fun _ s' => base_inv s' /\ settings s' = settings s)
           (fun _ _ => True)) with (ps := []); auto.
  - intros _ s' p _ [Hb He]. split; [apply base_inv_handle; exact Hb|].
    rewrite <- He. apply params_settings, handle_fields.
  - intros _ s' [Hb He]. split; [apply base_inv_commit_until; exact Hb|].
    rewrite <- He. apply params_settings, commit_until_fields, Hb.
  - intros _ s' _ [Hb He]. split; [apply base_inv_commit_until; exact Hb|].
    rewrite <- He. apply params_settings, commit_until_fields, Hb.
  - clear Hs. revert s. induction turns as [|[pkt now] turns IH]; intros s; simpl; auto.
Qed.

Lemma all_accounted_core ps s s' :
  core s' = core s -> all_accounted ps s -> all_accounted ps s'.
Proof.
  unfold core, all_accounted. intros [= Hw Htq _ _ _ _ _] H k Hk.
  rewrite Hw, Htq. auto.
Qed.

Lemma all_accounted_handle ps s p :
  True -> all_accounted ps s -> all_accounted (ps ++ [p]) (handle p s).
Proof.
  intros _ Hs k Hk.
  destruct (handle_effect p s) as (ws & _ & Hc).
  apply core_eq in Hc as (Hw & Htq & _). rewrite Hw, Htq.
  apply sample_or_spike_ks_snoc in Hk as [Hk|Hk].
  - destruct (Hs k Hk) as [[v Hv]|[row Hrow]].
    + left. destruct p as [k' ? ? ?|? ? ? ? ?|k' ? ? ?]; cbn [tq_after]; eauto;
        (destruct (decide (k = k')) as [->|Hne];
         [rewrite lookup_insert_eq; eauto
         |rewrite lookup_insert_ne by congruence; eauto]).
    + right. exists row. apply elem_of_app. left. exact Hrow.
  - left. destruct p as [k' ? ? ?|? ? ? ? ?|k' ? ? ?]; cbn [tq_after];
      [subst; rewrite lookup_insert_eq; eauto|contradiction
      |subst; rewrite lookup_insert_eq; eauto].
Qed.

Lemma all_accounted_commit_row ps s k :
  True -> all_accounted ps s -> all_accounted ps (commit_row k s).
Proof.
  intros _ Hs k' Hk'.
  destruct (commit_row_effect k s) as (ev & ec & mrow & row & _ & _ & _ & _ & _ & Hc).
  apply core_eq in Hc as (Hw & Htq & _). rewrite Hw, Htq.
  destruct (decide (k' = k)) as [->|Hne].
  - right. exists row. rewrite !elem_of_app. right. right. left.
  - destruct (Hs k' Hk') as [Hv|[r Hr]].
    + left. rewrite lookup_delete_ne by congruence. exact Hv.
    + right. exists r. apply elem_of_app. left. exact Hr.
Qed.

Lemma all_accounted_header ps s row :
  all_accounted ps s -> all_accounted ps (emit (SyncedHeader row) s).
Proof.
  intros Hs k Hk. destruct (Hs k Hk) as [Hv|[r Hr]]; [left; exact Hv|].
  right. exists r. cbn [written emit]. apply elem_of_app. left. exact Hr.
Qed.

Lemma all_accounted_run turns s :
  all_accounted (payloads turns) (run turns s).
Proof.
  apply (lift_run all_accounted (fun _ => True) (fun _ _ => True)
           all_accounted_core all_accounted_handle (fun _ _ _ _ _ => I)
           all_accounted_commit_row all_accounted_header
           (fun _ _ _ _ H => H) turns [] s).
  - apply Forall_forall. auto.
  - intros k Hk. inversion Hk.
Qed.

Lemma all_accounted_commit_until ps k_commit s :
  all_accounted ps s -> all_accounted ps (_commit_until k_commit s).
Proof.
  apply (lift_commit_until all_accounted (fun _ _ => True)
           all_accounted_core (fun _ _ _ _ _ => I)
           all_accounted_commit_row all_accounted_header (fun _ _ _ _ H => H)).
Qed.

(** X1.  [stop()] loses nothing: in a session that writes the synced CSV,
    the final commit empties both buffers, and every frame index at which
    a sample or a spike was handled has a row in the synced CSV. *)
Theorem stop_commits_everything cfg delta chans la fp fr las iw now turns :
  let s0 := __init__ cfg delta chans la fp fr las iw now in
  fst (start s0) = Returned tt -> CSV_SIGNAL_ENABLE cfg = true ->
  _tq_by_k (session turns s0) = ∅ /\ _open_rows (session turns s0) = ∅ /\
  forall k, k ∈ sample_or_spike_ks (payloads turns) ->
            exists row, (k, row) ∈ synced_rows (written (session turns s0)).
Proof.
  intros s0 Hstart Hsig.
  destruct (started_state cfg delta chans la fp fr las iw now Hstart)
    as (Hb & Hthr & Hsw & _).
  fold s0 in Hb, Hthr, Hsw.
  pose proof (all_accounted_run turns (snd (start s0))) as Hacc.
  unfold session. destruct (start s0) as [[[]|e] s1] eqn:Es; [|discriminate Hstart].
  cbn [snd] in *.
  destruct (run_settings turns s1 Hb) as [Hb2 Hset].
  apply settings_proj in Hset as (Hthr2 & _ & _ & _ & _ & _ & Hsw2 & _).
  set (s2 := run turns s1) in *.
  unfold stop. rewrite Hthr2, Hthr. cbn [negb].
  set (s3 := set_io false (_synced_writer s2) (_markers_writer s2) s2).
  assert (Hb3 : base_inv s3) by exact Hb2.
  assert (Hsw3 : _synced_writer s3 = true) by (cbn; rewrite Hsw2, Hsw; exact Hsig).
  destruct (commit_all_empties s3 Hb3 Hsw3) as [Ht Ho].
  cbn [_tq_by_k _open_rows written set_io].
  split; [exact Ht|]. split; [exact Ho|].
  intros k Hk.
  assert (Hacc3 : all_accounted (payloads turns) s3) by exact Hacc.
  apply (all_accounted_commit_until _ (_k_seen_max s3)) in Hacc3.
  destruct (Hacc3 k Hk) as [[v Hv]|[row Hrow]].
  - rewrite Ht in Hv. inversion Hv.
  - exists row. apply elem_of_synced_rows. exact Hrow.
Qed.

Lemma stop_commits_everything_witness :
  let turns := [demo_sample 1 1; demo_event 3 "TASK_8"; demo_sample 5 2] in
  fst (start (demo_sink true)) = Returned tt /\
  CSV_SIGNAL_ENABLE (demo_config true) = true /\
  _tq_by_k (session turns (demo_sink true)) = ∅ /\
  _open_rows (session turns (demo_sink true)) = ∅ /\
  forall k, k ∈ sample_or_spike_ks (payloads turns) ->
            exists row, (k, row) ∈ synced_rows (written (session turns (demo_sink true))).
Proof.
  intros turns. split; [reflexivity|]. split; [reflexivity|].
  exact (stop_commits_everything (demo_config true) (1 # 100)
           (Some ["A:x"%string]) (Some 3) None None None None 0 turns
           eq_refl eq_refl).
Defined.

(** X2.  The idle watermark: when the consumer wakes up without a packet
    and at least [idle_watermark_sec > 0] have passed since the last
    activity, the activity clock is set to now, so that the flush is not
    repeated on the next idle wake-up.  In a session that writes the synced
    CSV everything seen so far is committed: both buffers are empty
    afterwards and every sample or spike handled so far has its row.  With
    the synced CSV disabled nothing is committed: the buffers and the files
    are as they were. *)
Theorem idle_watermark_flush cfg delta chans la fp fr las iw now turns now' :
  let s0 := __init__ cfg delta chans la fp fr las iw now in
  let s := run turns (snd (start s0)) in
  fst (start s0) = Returned tt ->
  (0 < _idle_watermark_sec s)%Q ->
  (_idle_watermark_sec s <= now' - _last_activity_monotonic s)%Q ->
  let s' := run_iteration None now' s in
  _last_activity_monotonic s' = now' /\
  if CSV_SIGNAL_ENABLE cfg then
    _tq_by_k s' = ∅ /\ _open_rows s' = ∅ /\
    forall k, k ∈ sample_or_spike_ks (payloads turns) ->
              exists row, (k, row) ∈ synced_rows (written s')
  else
    _tq_by_k s' = _tq_by_k s /\ _open_rows s' = _open_rows s /\
    written s' = written s.
Proof.
  intros s0 s Hstart Hiw Hidle.
  destruct (started_state cfg delta chans la fp fr las iw now Hstart)
    as (Hb & _ & Hsw & _).
  fold s0 in Hb, Hsw.
  destruct (run_settings turns _ Hb) as [Hb1 Hset]. fold s in Hb1, Hset.
  apply settings_proj in Hset as (_ & _ & _ & _ & _ & _ & Hsw1 & _).
  cbn zeta. unfold run_iteration.
  destruct (CSV_SIGNAL_ENABLE cfg) eqn:Hsig.
  - pose proof (all_accounted_run turns (snd (start s0))) as Hacc. fold s in Hacc.
    set (s2 := _commit_until (_k_seen_max s - _L s) s).
    assert (Hb2 : base_inv s2) by (apply base_inv_commit_until; exact Hb1).
    destruct (commit_until_fields (_k_seen_max s - _L s) s (proj1 Hb1)) as (Hp2 & _).
    fold s2 in Hp2.
    apply params_proj in Hp2 as (_ & _ & _ & Hiw2 & Hla2 & _ & _ & Hsw2 & _).
    assert (Hacc2 : all_accounted (payloads turns) s2)
      by (apply all_accounted_commit_until; exact Hacc).
    rewrite Hiw2, Hla2.
    rewrite (proj2 (ltb_spec 0 _) Hiw).
    unfold leb. rewrite (proj2 (Qle_bool_iff _ _) Hidle).
    assert (Hsw2' : _synced_writer s2 = true) by (rewrite Hsw2, Hsw1, Hsw; reflexivity).
    destruct (commit_all_empties s2 Hb2 Hsw2') as [Ht Ho].
    apply (all_accounted_commit_until _ (_k_seen_max s2)) in Hacc2.
    set (s3 := _commit_until (_k_seen_max s2) s2) in *.
    assert (Hfin : forall s4 : ExportSink,
               _tq_by_k s4 = _tq_by_k s3 -> _open_rows s4 = _open_rows s3 ->
               _last_activity_monotonic s4 = now' -> written s4 = written s3 ->
               _last_activity_monotonic s4 = now' /\
               _tq_by_k s4 = ∅ /\ _open_rows s4 = ∅ /\
               forall k, k ∈ sample_or_spike_ks (payloads turns) ->
                         exists row, (k, row) ∈ synced_rows (written s4)).
    { intros s4 E1 E2 E3 E4. rewrite E1, E2, E3, E4.
      split; [reflexivity|]. split; [exact Ht|]. split; [exact Ho|].
      intros k Hk. destruct (Hacc2 k Hk) as [[v Hv]|[row Hrow]].
      - rewrite Ht in Hv. inversion Hv.
      - exists row. apply elem_of_synced_rows. exact Hrow. }
    destruct (_ || _); apply Hfin; reflexivity.
  - assert (Hoff : _synced_writer s = false) by (rewrite Hsw1, Hsw; reflexivity).
    assert (Hc : forall k, _commit_until k s = s).
    { intros k. unfold _commit_until. rewrite Hoff. reflexivity. }
    rewrite !Hc. rewrite (proj2 (ltb_spec 0 _) Hiw).
    unfold leb. rewrite (proj2 (Qle_bool_iff _ _) Hidle).
    destruct (_ || _); repeat split; reflexivity.
Qed.

Lemma idle_watermark_flush_witness :
  let turns := [demo_sample 1 1; demo_sample 2 2] in
  let s := run turns (snd (start (__init__ (demo_config true) (1 # 100)
                                    (Some ["A:x"%string]) (Some 3) None None None
                                    (Some 1%Q) 0))) in
  (0 < _idle_watermark_sec s)%Q /\
  (_idle_watermark_sec s <= 2 - _last_activity_monotonic s)%Q /\
  _tq_by_k (run_iteration None 2 s) = ∅ /\
  _open_rows (run_iteration None 2 s) = ∅.
Proof.
  intros turns s.
  assert (H1 : (0 < _idle_watermark_sec s)%Q) by (vm_compute; reflexivity).
  assert (H2 : (_idle_watermark_sec s <= 2 - _last_activity_monotonic s)%Q)
    by (vm_compute; discriminate).
  split; [exact H1|]. split; [exact H2|].
  pose proof (idle_watermark_flush (demo_config true) (1 # 100)
                (Some ["A:x"%string]) (Some 3) None None None (Some 1%Q) 0 turns 2
                eq_refl H1 H2) as (_ & Ht & Ho & _).
  split; [exact Ht|exact Ho].
Defined.

End SinkFlush.

(** ** The order of the rows *)

Section SinkOrder.

Import PyFloat Exporter SinkFacts.

Lemma strictly_sorted (l : list Z) :
  StronglySorted Z.le l -> NoDup l -> StronglySorted Z.lt l.
Proof.
  induction 1 as [|x l Hs IH Hx]; intros Hnd; [constructor|].
  apply NoDup_cons in Hnd as [Hnin Hnd].
  constructor; [apply IH, Hnd|].
  rewrite Forall_forall in Hx |- *. intros y Hy.
  specialize (Hx y Hy). assert (x <> y) by (intros ->; contradiction). lia.
Qed.

(** [sorted(...)] over the keys of a dict is strictly ascending. *)
Lemma sorted_keys_le_sorted {A} (d : gmap Z A) (bound : Z) :
  StronglySorted Z.lt (sorted_keys_le d bound).
Proof.
  unfold sorted_keys_le. apply strictly_sorted.
  - apply StronglySorted_merge_sort; apply _.
  - rewrite merge_sort_Permutation. apply NoDup_filter.
    assert (E : map fst (map_to_list d) = (map_to_list d).*1).
    { generalize (map_to_list d). intros l.
      induction l as [|x l IH]; [reflexivity|]. simpl. rewrite IH. reflexivity. }
    rewrite E. apply NoDup_fst_map_to_list.
Qed.

(** A handler writes no data row. *)
Lemma handle_committed (p : payload) (s : ExportSink) :
  committed_ks (handle p s) = committed_ks s.
Proof.
  destruct (handle_effect p s) as (ws & Hws & Hc).
  apply core_eq in Hc as (Hw & _). unfold committed_ks.
  rewrite Hw, synced_rows_app.
  assert (E : synced_rows ws = []).
  { apply synced_rows_nil. eapply handler_writes_no_row. exact Hws. }
  rewrite E, app_nil_r. reflexivity.
Qed.

(** The loop of a commit adds one row per frame, in the order of the
    loop. *)
Lemma commit_rows_committed (ks : list Z) :
  forall s, committed_ks (foldl (fun s k => commit_row k s) s ks)
            = committed_ks s ++ ks.
Proof.
  induction ks as [|k ks IH]; intros s; cbn [foldl].
  - rewrite app_nil_r. reflexivity.
  - rewrite IH. destruct (commit_row_fields k s)
      as (_ & _ & _ & _ & _ & _ & ev & _ & _ & Hw).
    unfold committed_ks at 1. rewrite Hw, !synced_rows_app, !fmap_app.
    assert (E : synced_rows
                  (if negb (_initial_marker_emitted s) && _markers_writer s
                   then [MarkersRow k (k_prefix s k ++
                           [_fmt_val (Some (FFin (buffered_t_q s k))); ev;
                            EmptyString; "sync"%string])]
                   else []) = []) by (destruct (_ && _); reflexivity).
    rewrite E. cbn. rewrite <- app_assoc. reflexivity.
Qed.

(** What a commit does to the rows and to the buffered times. *)
Lemma commit_until_committed (k_commit : Z) (s : ExportSink) :
  (_synced_writer s = true -> _header_frozen s = true) ->
  exists ks,
    committed_ks (_commit_until k_commit s) = committed_ks s ++ ks /\
    StronglySorted Z.lt ks /\
    (forall k, k ∈ ks -> is_Some (_tq_by_k s !! k) /\ k <= k_commit /\
                         _synced_writer s = true) /\
    (forall k, _tq_by_k (_commit_until k_commit s) !! k
               = if bool_decide (k ∈ ks) then None else _tq_by_k s !! k) /\
    (_synced_writer s = true ->
     forall k, is_Some (_tq_by_k (_commit_until k_commit s) !! k) -> k_commit < k).
Proof.
  intros Hfz. unfold _commit_until.
  destruct (_synced_writer s) eqn:Esw; cbn [negb].
  2:{ exists []. rewrite app_nil_r. split; [reflexivity|].
      split; [constructor|]. split; [intros k Hk; inversion Hk|].
      split; [|discriminate].
      intros k. rewrite bool_decide_eq_false_2 by (intros H; inversion H).
      reflexivity. }
  rewrite (Hfz eq_refl). cbn [negb].
  destruct (bool_decide (_open_rows s = ∅) && bool_decide (_tq_by_k s = ∅)) eqn:Eem.
  - exists []. rewrite app_nil_r. split; [reflexivity|].
    split; [constructor|]. split; [intros k Hk; inversion Hk|].
    split.
    + intros k. rewrite bool_decide_eq_false_2 by (intros H; inversion H).
      reflexivity.
    + apply andb_true_iff in Eem as [_ E2]. apply bool_decide_eq_true in E2.
      intros _ k [v Hv]. rewrite E2 in Hv. inversion Hv.
  - set (ks := sorted_keys_le (_tq_by_k s) k_commit).
    exists ks. destruct (commit_rows_fields ks s) as (_ & _ & _ & Ht & _).
    split; [apply (commit_rows_committed ks s)|].
    split; [apply sorted_keys_le_sorted|].
    split; [intros k Hk; apply elem_of_sorted_keys_le in Hk as [H1 H2]; auto|].
    split; [exact Ht|].
    intros _ k. cbn [_tq_by_k set_event_changes]. rewrite Ht.
    destruct (decide (k ∈ ks)) as [Hin|Hout].
    + rewrite bool_decide_eq_true_2 by exact Hin. intros [v Hv]. discriminate Hv.
    + rewrite bool_decide_eq_false_2 by exact Hout. intros Hk.
      destruct (decide (k <= k_commit)) as [Hle|Hgt]; [|lia].
      exfalso. apply Hout, elem_of_sorted_keys_le_2; assumption.
Qed.

(** ** The watermark *)

(** The state after some turns of the consumer is the state the session
    started in, or the state after a turn. *)
Lemma run_last (turns : list (option payload * Q)) (s : ExportSink) :
  turns = [] \/
  exists turns' pkt now,
    turns = turns' ++ [(pkt, now)] /\
    run turns s = run_iteration pkt now (run turns' s).
Proof.
  destruct turns as [|t turns _] using rev_ind; [left; reflexivity|].
  right. destruct t as [pkt now]. exists turns, pkt, now.
  split; [reflexivity|]. unfold run. rewrite foldl_app. reflexivity.
Qed.

(** After a turn nothing at or below the watermark is left in the buffer
    of a sink that writes the synced CSV. *)
Lemma run_iteration_watermark (pkt : option payload) (now : Q) (s : ExportSink) :
  base_inv s -> _synced_writer s = true ->
  let s' := run_iteration pkt now s in
  forall k, is_Some (_tq_by_k s' !! k) -> _k_seen_max s' - _L s' < k.
Proof.
  intros Hb Hsw. unfold run_iteration.
  set (s1 := match pkt with
             | Some p => handle p (set_last_activity now s)
             | None => s
             end).
  assert (Hb1 : base_inv s1 /\ _synced_writer s1 = true).
  { subst s1. destruct pkt as [p|]; [|split; assumption].
    split; [apply base_inv_handle; exact Hb|].
    destruct (handle_fields p (set_last_activity now s)) as (Hp & _).
    apply params_proj in Hp as (_ & _ & _ & _ & _ & _ & _ & -> & _). exact Hsw. }
  clearbody s1. destruct Hb1 as [Hb1 Hsw1].
  set (s2 := _commit_until (_k_seen_max s1 - _L s1) s1).
  destruct (commit_until_committed (_k_seen_max s1 - _L s1) s1 (proj1 Hb1))
    as (ks & _ & _ & _ & _ & Hwm).
  specialize (Hwm Hsw1). fold s2 in Hwm.
  destruct (commit_until_fields (_k_seen_max s1 - _L s1) s1 (proj1 Hb1))
    as (Hp2 & Hk2 & _). fold s2 in Hp2, Hk2.
  apply params_proj in Hp2 as (_ & _ & HL2 & _ & _ & _ & _ & Hsw2 & _).
  assert (Hb2 : base_inv s2) by (apply base_inv_commit_until; exact Hb1).
  assert (H2 : forall k, is_Some (_tq_by_k s2 !! k) -> _k_seen_max s2 - _L s2 < k).
  { intros k Hk. rewrite Hk2, HL2. apply Hwm, Hk. }
  clearbody s2.
  set (s3 := if ltb 0 (_idle_watermark_sec s2) then _ else s2).
  assert (H3 : forall k, is_Some (_tq_by_k s3 !! k) -> _k_seen_max s3 - _L s3 < k).
  { subst s3. destruct (ltb 0 _); [|exact H2].
    destruct (leb _ _); [|exact H2].
    assert (Hsw2' : _synced_writer s2 = true) by congruence.
    destruct (commit_all_empties s2 Hb2 Hsw2') as [Ht _].
    cbn [_tq_by_k set_last_activity]. rewrite Ht.
    intros k [v Hv]. inversion Hv. }
  clearbody s3. cbn zeta.
  destruct (_ || _); exact H3.
Qed.

Lemma idle_off (x : Q) : (x <= 0)%Q -> ltb 0 x = false.
Proof.
  intros H. unfold ltb. apply Qle_bool_iff in H. rewrite H. reflexivity.
Qed.

Lemma run_ok_True (turns : list (option payload * Q)) :
  forall s, run_ok (fun _ _ => True) turns s.
Proof. induction turns as [|[pkt now] turns IH]; intros s; simpl; auto. Qed.

(** With the idle watermark off the consumer commits nothing above the
    watermark. *)
Lemma look_inv_run (turns : list (option payload * Q)) (s : ExportSink) :
  look_inv s -> look_inv (run turns s).
Proof.
  intros Hs.
  apply (run_inv (fun _ => look_inv) (fun _ _ => True)) with (ps := []);
    auto using run_ok_True.
  - clear. intros _ s p _ (Hb & Hiw & Hc).
    destruct (handle_fields p s) as (Hp & _ & Hk & _).
    apply params_proj in Hp as (_ & _ & HL & Hiw' & _).
    split; [apply base_inv_handle; exact Hb|]. split; [congruence|].
    intros k. rewrite handle_committed, Hk, HL. intros Hin.
    specialize (Hc k Hin). destruct p; lia.
  - clear. intros _ s (Hb & Hiw & Hc).
    destruct (commit_until_fields (_k_seen_max s - _L s) s (proj1 Hb))
      as (Hp & Hk & _).
    apply params_proj in Hp as (_ & _ & HL & Hiw' & _).
    split; [apply base_inv_commit_until; exact Hb|]. split; [congruence|].
    destruct (commit_until_committed (_k_seen_max s - _L s) s (proj1 Hb))
      as (ks & -> & _ & Hks & _).
    intros k. rewrite Hk, HL, elem_of_app. intros [Hin|Hin]; [auto|].
    apply (Hks k Hin).
  - clear. intros _ s Hon (_ & Hiw & _). congruence.
Qed.

(** X3.  The watermark decides what is written while the consumer runs.
    In a session that writes the synced CSV with the idle watermark off,
    after any number of turns a frame at which a sample or a spike was
    handled has its row if and only if it is at or below the watermark
    [k_seen_max - L]; what is above is still buffered. *)
Theorem row_iff_below_watermark cfg delta chans la fp fr las iw now turns :
  let s0 := __init__ cfg delta chans la fp fr las iw now in
  let s := run turns (snd (start s0)) in
  fst (start s0) = Returned tt -> CSV_SIGNAL_ENABLE cfg = true ->
  (_idle_watermark_sec s0 <= 0)%Q ->
  forall k, k ∈ sample_or_spike_ks (payloads turns) ->
    ((exists row, (k, row) ∈ synced_rows (written s))
     <-> k <= _k_seen_max s - _L s) /\
    (is_Some (_tq_by_k s !! k) <-> _k_seen_max s - _L s < k).
Proof.
  intros s0 s Hstart Hsig Hidle k Hk.
  destruct (started_state cfg delta chans la fp fr las iw now Hstart)
    as (Hb & _ & Hsw & _ & _ & _ & _ & _ & Ht & _ & _ & _ & _ & Hiw & Hw).
  destruct (init_fields cfg delta chans la fp fr las iw now)
    as (_ & _ & _ & _ & _ & _ & _ & _ & _ & _ & _ & _ & Hiw0 & _).
  fold s0 in Hb, Hsw, Ht, Hiw, Hw, Hiw0.
  assert (Hlook : look_inv (snd (start s0))).
  { split; [exact Hb|]. split.
    - rewrite Hiw, <- Hiw0. apply idle_off, Hidle.
    - unfold committed_ks. rewrite Hw, Hsig.
      destruct (CSV_MARKER_ENABLE cfg); intros k' Hin; inversion Hin. }
  apply (look_inv_run turns) in Hlook. fold s in Hlook.
  destruct Hlook as (Hb' & _ & Hc).
  assert (Hbuf : forall k, is_Some (_tq_by_k s !! k) -> _k_seen_max s - _L s < k).
  { destruct (run_last turns (snd (start s0)))
      as [->|(turns' & pkt & now' & -> & E)].
    - subst s. cbn [run foldl]. rewrite Ht. intros k' [v Hv]. inversion Hv.
    - subst s. rewrite E. apply run_iteration_watermark.
      + apply base_inv_run, Hb.
      + destruct (run_settings turns' _ Hb) as [_ Hset].
        apply settings_proj in Hset as (_ & _ & _ & _ & _ & _ & -> & _).
        rewrite Hsw. exact Hsig. }
  pose proof (all_accounted_run turns (snd (start s0)) k Hk) as Hacc.
  fold s in Hacc.
  assert (Hrow : (exists row, (k, row) ∈ synced_rows (written s)) ->
                 k <= _k_seen_max s - _L s).
  { intros [row Hrow]. apply Hc. unfold committed_ks.
    apply list_elem_of_fmap. exists (k, row). split; [reflexivity|exact Hrow]. }
  split; split.
  - exact Hrow.
  - intros Hle. destruct Hacc as [Hv|[row Hr]].
    + specialize (Hbuf k Hv). lia.
    + exists row. apply elem_of_synced_rows, Hr.
  - apply Hbuf.
  - intros Hlt. destruct Hacc as [Hv|[row Hr]]; [exact Hv|].
    exfalso. assert (k <= _k_seen_max s - _L s); [|lia].
    apply Hrow. exists row. apply elem_of_synced_rows, Hr.
Qed.

Lemma row_iff_below_watermark_witness :
  let turns := [demo_sample 1 1; demo_sample 2 2; demo_sample 5 3] in
  let s := run turns (snd (start (demo_sink true))) in
  (exists row, (2, row) ∈ synced_rows (written s)) /\
  ¬ (exists row, (5, row) ∈ synced_rows (written s)).
Proof.
  intros turns s.
  assert (Hidle : (_idle_watermark_sec (demo_sink true) <= 0)%Q)
    by (vm_compute; discriminate).
  assert (H : forall k, k ∈ sample_or_spike_ks (payloads turns) ->
     ((exists row, (k, row) ∈ synced_rows (written s))
      <-> k <= _k_seen_max s - _L s) /\
     (is_Some (_tq_by_k s !! k) <-> _k_seen_max s - _L s < k))
    by exact (row_iff_below_watermark (demo_config true) (1 # 100)
                (Some ["A:x"%string]) (Some 3) None None None None 0 turns
                eq_refl eq_refl Hidle).
  split.
  - apply (H 2); [right; left|]. vm_compute. discriminate.
  - intros Hrow. apply (H 5) in Hrow; [|right; right; left].
    vm_compute in Hrow. apply Hrow. reflexivity.
Defined.

(** The rows ascend, and what is buffered is above them, after a handler
    that was given a frame above every row, and after any commit. *)
Lemma ascending_handle (p : payload) (s : ExportSink) :
  (forall k', k' ∈ committed_ks s ->
     match p with
     | Sample k _ _ _ | Spike k _ _ _ => k' < k
     | Event _ _ _ _ _ => True
     end) ->
  ascending s -> ascending (handle p s).
Proof.
  intros Hp [Hs Hbuf]. destruct (handle_fields p s) as (_ & _ & _ & Ht & _).
  unfold ascending. rewrite handle_committed, Ht. split; [exact Hs|].
  intros k' Hk' k.
  destruct p as [k0 ? ? ?|? ? ? ? ?|k0 ? ? ?]; cbn [tq_after];
    try (apply Hbuf; exact Hk');
    (destruct (decide (k = k0)) as [->|Hne];
     [intros _; apply (Hp k' Hk')
     |rewrite lookup_insert_ne by congruence; apply Hbuf; exact Hk']).
Qed.

Lemma ascending_commit_until (k_commit : Z) (s : ExportSink) :
  (_synced_writer s = true -> _header_frozen s = true) ->
  ascending s -> ascending (_commit_until k_commit s).
Proof.
  intros Hfz [Hs Hbuf].
  destruct (commit_until_committed k_commit s Hfz)
    as (ks & Hc & Hsorted & Hks & Ht & Hwm).
  unfold ascending. rewrite Hc. split.
  - apply StronglySorted_app_2; [|exact Hs|exact Hsorted].
    intros k1 k2 H1 H2. apply (Hbuf k1 H1), Hks, H2.
  - intros k' Hk' k Hk.
    assert (Hk0 : is_Some (_tq_by_k s !! k)).
    { rewrite Ht in Hk. destruct (bool_decide (k ∈ ks)); [|exact Hk].
      destruct Hk as [v Hv]. discriminate Hv. }
    apply elem_of_app in Hk' as [Hk'|Hk']; [apply (Hbuf k' Hk'), Hk0|].
    destruct (Hks k' Hk') as (_ & Hle & Hsw).
    specialize (Hwm Hsw k Hk). lia.
Qed.

(** A payload that is on time is above every row written so far. *)
Lemma on_time_above (p : payload) (s : ExportSink) :
  look_inv s -> on_time s p ->
  forall k', k' ∈ committed_ks s ->
    match p with
    | Sample k _ _ _ | Spike k _ _ _ => k' < k
    | Event _ _ _ _ _ => True
    end.
Proof.
  intros (_ & _ & Hc) Hon k' Hk'. specialize (Hc k' Hk').
  destruct p; cbn [on_time] in Hon; auto; lia.
Qed.

Lemma ascending_run (turns : list (option payload * Q)) (s : ExportSink) :
  run_ok on_time turns s -> look_inv s -> ascending s ->
  look_inv (run turns s) /\ ascending (run turns s).
Proof.
  intros Hok Hl Ha.
  apply (run_inv (fun _ s' => look_inv s' /\ ascending s') on_time)
    with (ps := []); auto.
  - clear. intros _ s p Hon [Hl Ha]. split.
    + destruct Hl as (Hb & Hiw & Hc).
      destruct (handle_fields p s) as (Hp & _ & Hk & _).
      apply params_proj in Hp as (_ & _ & HL & Hiw' & _).
      split; [apply base_inv_handle; exact Hb|]. split; [congruence|].
      intros k. rewrite handle_committed, Hk, HL. intros Hin.
      specialize (Hc k Hin). destruct p; lia.
    + apply ascending_handle; [|exact Ha]. apply on_time_above; assumption.
  - clear. intros _ s [Hl Ha]. split.
    + destruct Hl as (Hb & Hiw & Hc).
      destruct (commit_until_fields (_k_seen_max s - _L s) s (proj1 Hb))
        as (Hp & Hk & _).
      apply params_proj in Hp as (_ & _ & HL & Hiw' & _).
      split; [apply base_inv_commit_until; exact Hb|]. split; [congruence|].
      destruct (commit_until_committed (_k_seen_max s - _L s) s (proj1 Hb))
        as (ks & -> & _ & Hks & _).
      intros k. rewrite Hk, HL, elem_of_app. intros [Hin|Hin]; [auto|].
      apply (Hks k Hin).
    + apply ascending_commit_until; [apply Hl|exact Ha].
  - clear. intros _ s Hon [(_ & Hiw & _) _]. congruence.
Qed.

(** X4.  No row twice, none out of order.  In a session with the idle
    watermark off in which every sample and spike arrives on time, that is
    with a frame index above the watermark [k_seen_max - L] of the moment
    it is handled, the rows of the synced CSV, those of the final commit of
    [stop()] included, are in strictly ascending order of frame index. *)
Theorem rows_strictly_ascending cfg delta chans la fp fr las iw now turns :
  let s0 := __init__ cfg delta chans la fp fr las iw now in
  fst (start s0) = Returned tt ->
  (_idle_watermark_sec s0 <= 0)%Q ->
  run_ok on_time turns (snd (start s0)) ->
  StronglySorted Z.lt (committed_ks (session turns s0)).
Proof.
  intros s0 Hstart Hidle Hok.
  destruct (started_state cfg delta chans la fp fr las iw now Hstart)
    as (Hb & Hthr & Hsw & _ & _ & _ & _ & _ & Ht & _ & _ & _ & _ & Hiw & Hw).
  destruct (init_fields cfg delta chans la fp fr las iw now)
    as (_ & _ & _ & _ & _ & _ & _ & _ & _ & _ & _ & _ & Hiw0 & _).
  fold s0 in Hb, Hthr, Hsw, Ht, Hiw, Hw, Hiw0.
  assert (Hnil : committed_ks (snd (start s0)) = []).
  { unfold committed_ks. rewrite Hw.
    destruct (CSV_MARKER_ENABLE cfg), (CSV_SIGNAL_ENABLE cfg); reflexivity. }
  assert (Hlook : look_inv (snd (start s0))).
  { split; [exact Hb|]. split.
    - rewrite Hiw, <- Hiw0. apply idle_off, Hidle.
    - rewrite Hnil. intros k' Hin. inversion Hin. }
  assert (Hasc : ascending (snd (start s0))).
  { unfold ascending. rewrite Hnil. split; [constructor|].
    intros k' Hin. inversion Hin. }
  destruct (ascending_run turns _ Hok Hlook Hasc) as [Hl2 Ha2].
  unfold session. destruct (start s0) as [[[]|e] s1] eqn:Es; [|discriminate Hstart].
  cbn [snd] in *. set (s2 := run turns s1) in *.
  unfold stop. destruct (negb (_thr s2)); [apply Ha2|].
  set (s3 := set_io false (_synced_writer s2) (_markers_writer s2) s2).
  assert (Ha3 : ascending s3) by exact Ha2.
  apply (ascending_commit_until (_k_seen_max s3)) in Ha3;
    [|exact (proj1 (proj1 Hl2))].
  exact (proj1 Ha3).
Qed.

Lemma rows_strictly_ascending_witness :
  let turns := [demo_sample 1 1; demo_sample 5 2; demo_sample 3 3;
                demo_sample 3 4; demo_sample 9 5] in
  StronglySorted Z.lt (committed_ks (session turns (demo_sink true))).
Proof.
  intros turns.
  assert (Hidle : (_idle_watermark_sec (demo_sink true) <= 0)%Q)
    by (vm_compute; discriminate).
  assert (Hok : run_ok on_time turns (snd (start (demo_sink true)))).
  { repeat split; intros p [= <-]; vm_compute; reflexivity. }
  exact (rows_strictly_ascending (demo_config true) (1 # 100)
           (Some ["A:x"%string]) (Some 3) None None None None 0 turns
           eq_refl Hidle Hok).
Defined.

End SinkOrder.

(** ** The two files *)

(** A property that every committed row and the cleanup keep is kept by a
    commit. *)
Section CommitInduction.

Import PyFloat Exporter SinkFacts.

Variable P : ExportSink -> Prop.
Hypothesis P_row : forall k s, P s -> P (commit_row k s).
Hypothesis P_cleanup : forall ec s, P s -> P (set_event_changes ec s).

Lemma commit_until_inv (k_commit : Z) (s : ExportSink) :
  (_synced_writer s = true -> _header_frozen s = true) ->
  P s -> P (_commit_until k_commit s).
Proof.
  intros Hfz Hs. destruct (commit_until_cases k_commit s Hfz) as [->|[_ ->]];
    [exact Hs|].
  apply P_cleanup. clear Hfz.
  generalize (sorted_keys_le (_tq_by_k s) k_commit). intros ks.
  revert s Hs. induction ks as [|k ks IH]; intros s Hs; [exact Hs|].
  cbn [foldl]. apply IH, P_row, Hs.
Qed.

End CommitInduction.

Section SinkFiles.

Import PyFloat Exporter SinkFacts.

Lemma synced_file_app (l1 l2 : list write) :
  synced_file (l1 ++ l2) = synced_file l1 ++ synced_file l2.
Proof. apply omap_app. Qed.

Lemma markers_rows_app (l1 l2 : list write) :
  markers_rows (l1 ++ l2) = markers_rows l1 ++ markers_rows l2.
Proof. apply omap_app. Qed.

(** A data row is as wide as the header. *)
Lemma data_row_length (r s : ExportSink) (k : Z) (ev : string) :
  _print_k s = _print_k r -> _channels s = _channels r ->
  length (data_row s k ev) = length (synced_header r).
Proof.
  intros Hpk Hch. unfold data_row, synced_header, k_prefix.
  rewrite Hpk, Hch. destruct (_print_k r);
    rewrite !length_app, length_map; reflexivity.
Qed.

Lemma shape_commit_row (r : ExportSink) (k : Z) (s : ExportSink) :
  shape r s -> shape r (commit_row k s).
Proof.
  intros (Hpk & Hch & Hfile & Hlen).
  destruct (commit_row_fields k s) as (Hp & _ & _ & _ & _ & _ & ev & _ & _ & Hw).
  apply params_proj in Hp as (_ & Hpk' & _ & _ & _ & Hch' & _).
  unfold shape. rewrite Hw, Hpk', Hch'.
  split; [exact Hpk|]. split; [exact Hch|].
  rewrite !synced_file_app, !synced_rows_app, !fmap_app.
  assert (E : forall m : list write,
             m = (if negb (_initial_marker_emitted s) && _markers_writer s
                  then [MarkersRow k (k_prefix s k ++
                          [_fmt_val (Some (FFin (buffered_t_q s k))); ev;
                           EmptyString; "sync"%string])]
                  else []) ->
             synced_file m = [] /\ synced_rows m = []).
  { intros m ->. destruct (_ && _); split; reflexivity. }
  destruct (E _ eq_refl) as [-> ->]. cbn [app fmap list_fmap synced_file
    synced_rows omap list_omap snd].
  split; [rewrite Hfile; reflexivity|].
  apply Forall_app. split; [exact Hlen|].
  constructor; [|constructor]. apply data_row_length; assumption.
Qed.

(** Handling a payload writes no line to the synced CSV once the header is
    written, and one marker row for a trigger. *)
Lemma handle_files (p : payload) (s : ExportSink) :
  (_synced_writer s = true -> _header_frozen s = true) ->
  synced_file (written (handle p s)) = synced_file (written s) /\
  synced_rows (written (handle p s)) = synced_rows (written s) /\
  markers_rows (written (handle p s))
  = markers_rows (written s)
    ++ (if _markers_writer s then option_list (trigger_row s p) else []).
Proof.
  intros Hfz.
  destruct p as [k t_q dev pairs|k t_q label source current_after|k t_q label source];
    unfold handle.
  - assert (E : (if _markers_writer s
                 then option_list (trigger_row s (Sample k t_q dev pairs))
                 else []) = [])
      by (destruct (_markers_writer s); reflexivity).
    rewrite E, app_nil_r. clear E.
    unfold _on_sample, _write_synced_header.
    cbn [_header_frozen _synced_writer _channels set_k_seen_max set_tq_by_k
         set_open_rows].
    destruct (_header_frozen s) eqn:Ehf; cbn [negb orb]; [repeat split|].
    destruct (_synced_writer s) eqn:Esw; cbn [negb orb]; [|repeat split].
    discriminate (Hfz eq_refl).
  - unfold _on_event, _write_marker. cbn [_markers_writer set_event_changes].
    destruct (_markers_writer s) eqn:Emw; cbn [negb]; cbn;
      rewrite ?synced_file_app, ?synced_rows_app, ?markers_rows_app, ?app_nil_r;
      repeat split.
  - unfold _on_spike, _write_marker.
    cbn [_markers_writer set_open_rows set_tq_by_k set_k_seen_max].
    destruct (_markers_writer s) eqn:Emw; cbn [negb]; cbn;
      rewrite ?synced_file_app, ?synced_rows_app, ?markers_rows_app, ?app_nil_r;
      repeat split.
Qed.

Lemma shape_handle (r : ExportSink) (p : payload) (s : ExportSink) :
  (_synced_writer s = true -> _header_frozen s = true) ->
  shape r s -> shape r (handle p s).
Proof.
  intros Hfz (Hpk & Hch & Hfile & Hlen).
  destruct (handle_fields p s) as (Hp & _).
  apply params_proj in Hp as (_ & Hpk' & _ & _ & _ & Hch' & _).
  destruct (handle_files p s Hfz) as (Hf & Hr & _).
  unfold shape. rewrite Hpk', Hch', Hf, Hr. repeat split; assumption.
Qed.

Lemma shape_commit_until (r : ExportSink) (k_commit : Z) (s : ExportSink) :
  (_synced_writer s = true -> _header_frozen s = true) ->
  shape r s -> shape r (_commit_until k_commit s).
Proof.
  apply (commit_until_inv (shape r)).
  - intros k s'. apply shape_commit_row.
  - intros ec s' H. exact H.
Qed.

(** With the synced writer closed nothing is written to the synced CSV. *)
Lemma no_synced_file_run (turns : list (option payload * Q)) (s : ExportSink) :
  _synced_writer s = false -> synced_file (written s) = [] ->
  synced_file (written (run turns s)) = [] /\ _synced_writer (run turns s) = false.
Proof.
  intros Hsw Hnil.
  apply (run_inv (fun _ s' => synced_file (written s') = [] /\
                              _synced_writer s' = false)
           (fun _ _ => True)) with (ps := []); auto using run_ok_True.
  - clear. intros _ s p _ [Hnil Hsw].
    destruct (handle_fields p s) as (Hp & _).
    apply params_proj in Hp as (_ & _ & _ & _ & _ & _ & _ & Hsw' & _).
    split; [|congruence].
    destruct (handle_files p s) as (-> & _); [rewrite Hsw; discriminate|exact Hnil].
  - clear. intros _ s [Hnil Hsw]. unfold _commit_until. rewrite Hsw. auto.
  - clear. intros _ s _ [Hnil Hsw]. unfold _commit_until. rewrite Hsw. auto.
Qed.

(** X5.  The synced CSV is a table.  With the synced CSV enabled the file
    of a session is the header that [start()] wrote, followed by the data
    rows, and every data row has as many cells as the header; with the
    synced CSV disabled the file is never written to. *)
Theorem synced_file_is_table cfg delta chans la fp fr las iw now turns :
  let s0 := __init__ cfg delta chans la fp fr las iw now in
  let log := written (session turns s0) in
  fst (start s0) = Returned tt ->
  if CSV_SIGNAL_ENABLE cfg then
    synced_file log = synced_header s0 :: (synced_rows log).*2 /\
    Forall (fun row => length row = length (synced_header s0)) (synced_rows log).*2
  else synced_file log = [].
Proof.
  intros s0 log Hstart.
  destruct (started_state cfg delta chans la fp fr las iw now Hstart)
    as (Hb & Hthr & Hsw & Hmw & _ & Hch & Hpk & _ & _ & _ & _ & _ & _ & _ & Hw).
  destruct (init_fields cfg delta chans la fp fr las iw now)
    as (_ & _ & _ & Hch0 & Hpk0 & _).
  fold s0 in Hb, Hthr, Hsw, Hmw, Hch, Hpk, Hw, Hch0, Hpk0.
  assert (Hhdr : synced_header (snd (start s0)) = synced_header s0).
  { unfold synced_header. rewrite Hch, Hpk, Hch0, Hpk0. reflexivity. }
  subst log. unfold session.
  destruct (start s0) as [[[]|e] s1] eqn:Es; [|discriminate Hstart].
  cbn [snd] in *.
  destruct (CSV_SIGNAL_ENABLE cfg) eqn:Esig.
  - assert (Hshape : shape s0 s1).
    { unfold shape. rewrite Hw, Hhdr, Hch, Hpk, Hch0, Hpk0.
      split; [reflexivity|]. split; [reflexivity|].
      destruct (CSV_MARKER_ENABLE cfg); cbn; split; constructor. }
    assert (Hrun : base_inv (run turns s1) /\ shape s0 (run turns s1)).
    { apply (run_inv (fun _ s' => base_inv s' /\ shape s0 s') (fun _ _ => True))
        with (ps := []); auto using run_ok_True.
      - clear. intros _ s p _ [Hb Hs].
        split; [apply base_inv_handle, Hb|apply shape_handle; [apply Hb|exact Hs]].
      - clear. intros _ s [Hb Hs].
        split; [apply base_inv_commit_until, Hb
               |apply shape_commit_until; [apply Hb|exact Hs]].
      - clear. intros _ s _ [Hb Hs].
        split; [apply base_inv_commit_until, Hb
               |apply shape_commit_until; [apply Hb|exact Hs]]. }
    destruct Hrun as [Hb2 Hs2]. set (s2 := run turns s1) in *.
    unfold stop. destruct (negb (_thr s2)); [exact (proj2 (proj2 Hs2))|].
    set (s3 := set_io false (_synced_writer s2) (_markers_writer s2) s2).
    assert (Hs3 : shape s0 s3) by exact Hs2.
    apply (shape_commit_until s0 (_k_seen_max s3)) in Hs3; [|exact (proj1 Hb2)].
    exact (proj2 (proj2 Hs3)).
  - destruct (no_synced_file_run turns s1) as [Hnil Hsw2]; [exact Hsw| |].
    { rewrite Hw. destruct (CSV_MARKER_ENABLE cfg); reflexivity. }
    set (s2 := run turns s1) in *.
    unfold stop. destruct (negb (_thr s2)); [exact Hnil|].
    unfold _commit_until. cbn [_synced_writer set_io]. rewrite Hsw2.
    cbn [negb written set_io]. exact Hnil.
Qed.

Lemma synced_file_is_table_witness :
  let turns := [demo_sample 1 1; demo_event 2 "TASK_8"; demo_sample 5 2] in
  let log := written (session turns (demo_sink true)) in
  synced_file log = synced_header (demo_sink true) :: (synced_rows log).*2 /\
  Forall (fun row => length row = length (synced_header (demo_sink true)))
         (synced_rows log).*2.
Proof.
  intros turns log.
  exact (synced_file_is_table (demo_config true) (1 # 100)
           (Some ["A:x"%string]) (Some 3) None None None None 0 turns eq_refl).
Defined.

Lemma trigger_row_print_k (r s : ExportSink) (p : payload) :
  _print_k s = _print_k r -> trigger_row s p = trigger_row r p.
Proof. intros H. destruct p; unfold trigger_row, k_prefix; rewrite ?H; reflexivity. Qed.

Lemma trigger_rows_snoc (r : ExportSink) (ps : list payload) (p : payload) :
  trigger_rows r (ps ++ [p]) = trigger_rows r ps ++ option_list (trigger_row r p).
Proof.
  unfold trigger_rows. rewrite omap_app. cbn.
  destruct (trigger_row r p); reflexivity.
Qed.

Lemma marker_log_handle (r : ExportSink) (ps : list payload) (p : payload)
  (s : ExportSink) :
  (_synced_writer s = true -> _header_frozen s = true) ->
  _markers_writer s = true ->
  marker_log r ps s -> marker_log r (ps ++ [p]) (handle p s).
Proof.
  intros Hfz Hmw (Hpk & l1 & init & l2 & Hrows & Htr & Hlen & Him).
  destruct (handle_fields p s) as (Hp & _ & _ & _ & _ & Him' & _).
  apply params_proj in Hp as (_ & Hpk' & _).
  destruct (handle_files p s Hfz) as (_ & _ & Hm).
  split; [congruence|].
  exists l1, init, (l2 ++ option_list (trigger_row r p)).
  rewrite Hm, Hmw, Hrows, (trigger_row_print_k r s p Hpk), trigger_rows_snoc,
    <- Htr, <- !app_assoc.
  split; [reflexivity|]. split; [reflexivity|]. split; [exact Hlen|].
  rewrite Him'. exact Him.
Qed.

Lemma marker_log_commit_row (r : ExportSink) (ps : list payload) (k : Z)
  (s : ExportSink) :
  marker_log r ps s -> marker_log r ps (commit_row k s).
Proof.
  intros (Hpk & l1 & init & l2 & Hrows & Htr & Hlen & Him).
  destruct (commit_row_fields k s) as (Hp & _ & _ & _ & _ & Him' & ev & _ & _ & Hw).
  apply params_proj in Hp as (_ & Hpk' & _).
  split; [congruence|]. rewrite Hw, !markers_rows_app, Him'.
  cbn [markers_rows omap list_omap]. rewrite app_nil_r.
  destruct (_initial_marker_emitted s) eqn:Eim; cbn [negb andb].
  - exists l1, init, l2. cbn. rewrite app_nil_r.
    split; [exact Hrows|]. split; [exact Htr|]. split; [exact Hlen|discriminate].
  - rewrite (Him eq_refl) in Hrows. cbn [app] in Hrows.
    destruct (_markers_writer s).
    + eexists (l1 ++ l2), [_], []. cbn [markers_rows omap list_omap].
      rewrite Hrows, !app_nil_r.
      split; [reflexivity|]. split; [exact Htr|]. split; [cbn; lia|discriminate].
    + exists (l1 ++ l2), [], []. cbn. rewrite Hrows, !app_nil_r.
      split; [reflexivity|]. split; [exact Htr|]. split; [lia|discriminate].
Qed.

Lemma marker_log_commit_until (r : ExportSink) (ps : list payload) (k_commit : Z)
  (s : ExportSink) :
  (_synced_writer s = true -> _header_frozen s = true) ->
  marker_log r ps s -> marker_log r ps (_commit_until k_commit s).
Proof.
  apply (commit_until_inv (marker_log r ps)).
  - intros k s'. apply marker_log_commit_row.
  - intros ec s' H. exact H.
Qed.

(** With the markers writer closed nothing is written to the markers CSV. *)
Lemma no_marker_commit_until (k_commit : Z) (s : ExportSink) :
  (_synced_writer s = true -> _header_frozen s = true) ->
  _markers_writer s = false /\ markers_rows (written s) = [] ->
  _markers_writer (_commit_until k_commit s) = false /\
  markers_rows (written (_commit_until k_commit s)) = [].
Proof.
  apply (commit_until_inv (fun s => _markers_writer s = false /\
                                    markers_rows (written s) = [])).
  - intros k s' [Hmw Hnil].
    destruct (commit_row_fields k s') as (Hp & _ & _ & _ & _ & _ & ev & _ & _ & Hw).
    apply params_proj in Hp as (_ & _ & _ & _ & _ & _ & _ & _ & Hmw' & _).
    split; [congruence|]. rewrite Hw, !markers_rows_app, Hnil, Hmw, andb_false_r.
    reflexivity.
  - intros ec s' H. exact H.
Qed.

(** X6.  The markers CSV.  With the markers CSV enabled, every event and
    spike the consumer handles gets its row at once, in the order of
    arrival and whatever its frame index; apart from these rows the file
    holds at most one row, written by a commit.  With the markers CSV
    disabled no row is written. *)
Theorem markers_file_rows cfg delta chans la fp fr las iw now turns :
  let s0 := __init__ cfg delta chans la fp fr las iw now in
  let rows := markers_rows (written (session turns s0)) in
  fst (start s0) = Returned tt ->
  if CSV_MARKER_ENABLE cfg then
    exists l1 init l2,
      rows = l1 ++ init ++ l2 /\
      l1 ++ l2 = trigger_rows s0 (payloads turns) /\ (length init <= 1)%nat
  else rows = [].
Proof.
  intros s0 rows Hstart.
  destruct (started_state cfg delta chans la fp fr las iw now Hstart)
    as (Hb & Hthr & Hsw & Hmw & _ & _ & Hpk & _ & _ & _ & _ & Him & _ & _ & Hw).
  destruct (init_fields cfg delta chans la fp fr las iw now)
    as (_ & _ & _ & _ & Hpk0 & _).
  fold s0 in Hb, Hthr, Hsw, Hmw, Hpk, Him, Hw, Hpk0.
  subst rows. unfold session.
  destruct (start s0) as [[[]|e] s1] eqn:Es; [|discriminate Hstart].
  cbn [snd] in *.
  assert (Hnil : markers_rows (written s1) = []).
  { rewrite Hw. destruct (CSV_MARKER_ENABLE cfg), (CSV_SIGNAL_ENABLE cfg);
      reflexivity. }
  destruct (CSV_MARKER_ENABLE cfg) eqn:Emk.
  - assert (Hlog : marker_log s0 [] s1).
    { split; [congruence|]. exists [], [], []. rewrite Hnil.
      repeat split; cbn; lia. }
    assert (Hrun : (base_inv (run turns s1) /\ _markers_writer (run turns s1) = true)
                   /\ marker_log s0 (payloads turns) (run turns s1)).
    { apply (run_inv (fun ps s' => (base_inv s' /\ _markers_writer s' = true)
                                   /\ marker_log s0 ps s')
               (fun _ _ => True)) with (ps := []); auto using run_ok_True.
      - clear. intros ps s p _ [[Hb Hmw] Hl].
        destruct (handle_fields p s) as (Hp & _).
        apply params_proj in Hp as (_ & _ & _ & _ & _ & _ & _ & _ & Hmw' & _).
        split; [split; [apply base_inv_handle, Hb|congruence]|].
        apply marker_log_handle; [apply Hb|exact Hmw|exact Hl].
      - clear. intros ps s [[Hb Hmw] Hl].
        destruct (commit_until_fields (_k_seen_max s - _L s) s (proj1 Hb)) as (Hp & _).
        apply params_proj in Hp as (_ & _ & _ & _ & _ & _ & _ & _ & Hmw' & _).
        split; [split; [apply base_inv_commit_until, Hb|congruence]|].
        apply marker_log_commit_until; [apply Hb|exact Hl].
      - clear. intros ps s _ [[Hb Hmw] Hl].
        destruct (commit_until_fields (_k_seen_max s) s (proj1 Hb)) as (Hp & _).
        apply params_proj in Hp as (_ & _ & _ & _ & _ & _ & _ & _ & Hmw' & _).
        split; [split; [apply base_inv_commit_until, Hb|congruence]|].
        apply marker_log_commit_until; [apply Hb|exact Hl]. }
    destruct Hrun as [[Hb2 _] Hl2]. set (s2 := run turns s1) in *.
    assert (Hfin : forall s', marker_log s0 (payloads turns) s' ->
              exists l1 init l2,
                markers_rows (written s') = l1 ++ init ++ l2 /\
                l1 ++ l2 = trigger_rows s0 (payloads turns) /\
                (length init <= 1)%nat).
    { intros s' (_ & l1 & init & l2 & H1 & H2 & H3 & _).
      exists l1, init, l2. auto. }
    unfold stop. destruct (negb (_thr s2)); [apply Hfin, Hl2|].
    set (s3 := set_io false (_synced_writer s2) (_markers_writer s2) s2).
    assert (Hl3 : marker_log s0 (payloads turns) s3) by exact Hl2.
    apply (marker_log_commit_until s0 _ (_k_seen_max s3)) in Hl3;
      [|exact (proj1 Hb2)].
    apply Hfin in Hl3. exact Hl3.
  - assert (Hrun : base_inv (run turns s1) /\
                   (_markers_writer (run turns s1) = false /\
                    markers_rows (written (run turns s1)) = [])).
    { apply (run_inv (fun _ s' => base_inv s' /\
                                  (_markers_writer s' = false /\
                                   markers_rows (written s') = []))
               (fun _ _ => True)) with (ps := []); auto using run_ok_True.
      - clear. intros _ s p _ [Hb [Hmw Hnil]].
        destruct (handle_fields p s) as (Hp & _).
        apply params_proj in Hp as (_ & _ & _ & _ & _ & _ & _ & _ & Hmw' & _).
        split; [apply base_inv_handle, Hb|]. split; [congruence|].
        destruct (handle_files p s (proj1 Hb)) as (_ & _ & ->).
        rewrite Hmw, Hnil. reflexivity.
      - clear. intros _ s [Hb H].
        split; [apply base_inv_commit_until, Hb
               |apply no_marker_commit_until; [apply Hb|exact H]].
      - clear. intros _ s _ [Hb H].
        split; [apply base_inv_commit_until, Hb
               |apply no_marker_commit_until; [apply Hb|exact H]]. }
    destruct Hrun as [Hb2 H2]. set (s2 := run turns s1) in *.
    unfold stop. destruct (negb (_thr s2)); [exact (proj2 H2)|].
    set (s3 := set_io false (_synced_writer s2) (_markers_writer s2) s2).
    assert (H3 : _markers_writer s3 = false /\ markers_rows (written s3) = [])
      by exact H2.
    apply (no_marker_commit_until (_k_seen_max s3)) in H3; [|exact (proj1 Hb2)].
    exact (proj2 H3).
Qed.

Lemma markers_file_rows_witness :
  let turns := [demo_sample 1 1; demo_event 0 "TASK_8"; demo_sample 5 2;
                demo_event 3 "TASK_8"] in
  exists l1 init l2,
    markers_rows (written (session turns (demo_sink true))) = l1 ++ init ++ l2 /\
    l1 ++ l2 = trigger_rows (demo_sink true) (payloads turns) /\
    (length init <= 1)%nat.
Proof.
  intros turns.
  exact (markers_file_rows (demo_config true) (1 # 100)
           (Some ["A:x"%string]) (Some 3) None None None None 0 turns eq_refl).
Defined.

End SinkFiles.

(** ** The cells of a row and its event *)

Section SinkCells.

Import PyFloat Exporter SinkFacts.

(** The loop over the pairs of a packet, as a lookup. *)
Lemma fill_row_lookup (channels : list string) (dev : string)
  (pairs : list (string * value)) (key : string) :
  forall row,
    fill_row channels dev pairs row !! key
    = if bool_decide (key ∈ channels) then
        match packet_value dev key pairs with
        | Some v => Some (_fmt_val v)
        | None => row !! key
        end
      else row !! key.
Proof.
  induction pairs as [|[ch v] pairs IH]; intros row.
  - cbn. destruct (bool_decide _); reflexivity.
  - cbn [fill_row packet_value].
    destruct (decide ((dev +:+ ":" +:+ ch)%string ∈ channels)) as [Hin|Hout].
    + rewrite (bool_decide_eq_true_2 _ Hin), IH.
      destruct (decide (key ∈ channels)) as [Hk|Hk].
      2:{ rewrite (bool_decide_eq_false_2 _ Hk). apply lookup_insert_ne.
          intros He. apply Hk. rewrite <- He. exact Hin. }
      rewrite (bool_decide_eq_true_2 _ Hk).
      destruct (packet_value dev key pairs); [reflexivity|].
      destruct (decide ((dev +:+ ":" +:+ ch)%string = key)) as [He|Hne].
      * rewrite (bool_decide_eq_true_2 _ He), He, lookup_insert_eq. reflexivity.
      * rewrite (bool_decide_eq_false_2 _ Hne), lookup_insert_ne by exact Hne.
        reflexivity.
    + rewrite (bool_decide_eq_false_2 _ Hout), IH.
      destruct (decide (key ∈ channels)) as [Hk|Hk].
      * rewrite (bool_decide_eq_true_2 _ Hk).
        destruct (packet_value dev key pairs); [reflexivity|].
        rewrite bool_decide_eq_false_2; [reflexivity|].
        intros He. apply Hout. rewrite He. exact Hk.
      * rewrite (bool_decide_eq_false_2 _ Hk). reflexivity.
Qed.

Lemma has_colon_column (dev ch : string) :
  has_colon (dev +:+ ":" +:+ ch) = true.
Proof.
  induction dev as [|c dev IH]; [reflexivity|].
  simpl. destruct (bool_decide (c = ":"%char)); [reflexivity|exact IH].
Qed.

Lemma packet_value_no_colon (dev key : string) (pairs : list (string * value)) :
  has_colon key = false -> packet_value dev key pairs = None.
Proof.
  intros Hk. induction pairs as [|[ch v] pairs IH]; [reflexivity|].
  cbn [packet_value]. rewrite IH. rewrite bool_decide_eq_false_2; [reflexivity|].
  intros He. rewrite <- He, has_colon_column in Hk. discriminate Hk.
Qed.

Lemma open_rows_on_sample (k : Z) (t_q : Q) (dev : string)
  (pairs : list (string * value)) (s : ExportSink) :
  _open_rows (_on_sample k t_q dev pairs s)
  = <[k := fill_row (_channels s) dev pairs (default ∅ (_open_rows s !! k))]>
      (_open_rows s).
Proof.
  unfold _on_sample, _write_synced_header.
  cbn [_header_frozen _synced_writer _channels set_k_seen_max set_tq_by_k
       set_open_rows _open_rows].
  destruct (negb (_header_frozen s)); [|reflexivity].
  destruct (negb (_synced_writer s) || _header_frozen s); [reflexivity|].
  destruct (_channels s); reflexivity.
Qed.

Lemma open_rows_on_spike (k : Z) (t_q : Q) (label source : string)
  (s : ExportSink) :
  _open_rows (_on_spike k t_q label source s)
  = <[k := <["spike"%string := label]> (default ∅ (_open_rows s !! k))]>
      (_open_rows s).
Proof.
  unfold _on_spike, _write_marker.
  cbn [_markers_writer set_open_rows set_tq_by_k set_k_seen_max].
  destruct (negb (_markers_writer s)); reflexivity.
Qed.

(** A handler, cell by cell. *)
Lemma buffered_cell_handle (p : payload) (s : ExportSink) (k : Z) (key : string) :
  buffered_cell (handle p s) k key
  = cell_after (_channels s) p k key (buffered_cell s k key).
Proof.
  destruct p as [k' t_q dev pairs|k' t_q label source current_after|k' t_q label source];
    unfold buffered_cell; cbn [handle cell_after].
  - rewrite open_rows_on_sample.
    destruct (decide (k = k')) as [->|Hne].
    + rewrite lookup_insert_eq. cbn [default from_option id]. rewrite fill_row_lookup.
      destruct (decide (key ∈ _channels s)) as [Hin|Hout].
      * rewrite (bool_decide_eq_true_2 _ Hin), bool_decide_eq_true_2 by auto.
        destruct (packet_value dev key pairs); reflexivity.
      * rewrite (bool_decide_eq_false_2 _ Hout), bool_decide_eq_false_2
          by (intros [_ H]; contradiction). reflexivity.
    + rewrite lookup_insert_ne by congruence.
      rewrite bool_decide_eq_false_2 by (intros [H _]; contradiction).
      reflexivity.
  - unfold _on_event, _write_marker. cbn [_markers_writer set_event_changes].
    destruct (negb (_markers_writer s)); reflexivity.
  - rewrite open_rows_on_spike.
    destruct (decide (k = k')) as [->|Hne].
    + rewrite lookup_insert_eq. cbn [default from_option id].
      destruct (decide (key = "spike"%string)) as [->|Hk].
      * rewrite lookup_insert_eq, bool_decide_eq_true_2 by auto. reflexivity.
      * rewrite lookup_insert_ne by congruence.
        rewrite bool_decide_eq_false_2 by (intros [_ H]; contradiction).
        reflexivity.
    + rewrite lookup_insert_ne by congruence.
      rewrite bool_decide_eq_false_2 by (intros [H _]; contradiction).
      reflexivity.
Qed.

(** X7.  Latest wins, cell by cell.  A sample packet of device [dev] at
    frame [k] sets, in the buffered row of [k], the cell of each known
    column [dev:ch] it carries to the formatted value of the last pair for
    that column; every other cell, of this or any other frame, keeps what
    it held, so that packets of several devices for one frame fill one
    row, and a column that is not known is ignored.  The spike cell is
    never set by a sample, whatever the device and channel names; it is
    set by a spike, which touches no other cell. *)
Theorem cells_latest_wins (s : ExportSink) (k : Z) (t_q : Q) (k' : Z)
  (key : string) :
  (forall dev pairs,
     buffered_cell (handle (Sample k t_q dev pairs) s) k' key
     = if bool_decide (k' = k /\ key ∈ _channels s) then
         match packet_value dev key pairs with
         | Some v => _fmt_val v
         | None => buffered_cell s k' key
         end
       else buffered_cell s k' key) /\
  (forall dev pairs,
     buffered_cell (handle (Sample k t_q dev pairs) s) k' "spike"
     = buffered_cell s k' "spike") /\
  (forall label source,
     buffered_cell (handle (Spike k t_q label source) s) k' key
     = if bool_decide (k' = k /\ key = "spike"%string) then label
       else buffered_cell s k' key).
Proof.
  split; [|split].
  - intros dev pairs. apply buffered_cell_handle.
  - intros dev pairs. rewrite buffered_cell_handle. cbn [cell_after].
    rewrite (packet_value_no_colon dev "spike" pairs eq_refl).
    destruct (bool_decide _); reflexivity.
  - intros label source. apply buffered_cell_handle.
Qed.

Lemma last_sorted_max (l : list Z) (m : Z) :
  StronglySorted Z.lt l -> last l = Some m -> forall x, x ∈ l -> x <= m.
Proof.
  induction 1 as [|y l Hs IH Hy]; intros Hl x Hx; [inversion Hx|].
  destruct l as [|z l].
  - cbn in Hl. injection Hl as <-. apply list_elem_of_singleton in Hx. lia.
  - change (last (y :: z :: l)) with (last (z :: l)) in Hl.
    apply elem_of_cons in Hx as [->|Hx]; [|apply IH; assumption].
    assert (Hm : m ∈ z :: l).
    { apply list_elem_of_lookup. exists (length l).
      rewrite last_lookup in Hl. exact Hl. }
    rewrite Forall_forall in Hy. specialize (Hy m Hm). lia.
Qed.

(** The pending changes applied in ascending order: the last one stays. *)
Lemma apply_changes_sorted (s : ExportSink) (l : list Z) :
  forall ev (ec : gmap Z string),
    StronglySorted Z.lt l -> (forall kk, kk ∈ l -> is_Some (ec !! kk)) ->
    exists ev' (ec' : gmap Z string),
      foldl (fun s kk =>
               let s := match _event_changes s !! kk with
                        | Some ev => set_sticky_event ev s
                        | None => s
                        end in
               set_event_changes (delete kk (_event_changes s)) s)
            (set_event_changes ec (set_sticky_event ev s)) l
        = set_event_changes ec' (set_sticky_event ev' s) /\
      ((l = [] /\ ev' = ev) \/ (exists kk, last l = Some kk /\ ec !! kk = Some ev')) /\
      (forall kk, ec' !! kk = if bool_decide (kk ∈ l) then None else ec !! kk).
Proof.
  induction l as [|x l IH]; intros ev ec Hs Hin.
  - exists ev, ec. split; [reflexivity|]. split; [left; auto|].
    intros kk. rewrite bool_decide_eq_false_2 by (intros H; inversion H).
    reflexivity.
  - cbn [foldl]. cbn [_event_changes set_event_changes set_sticky_event].
    apply StronglySorted_inv in Hs as [Hs Hx]. rewrite Forall_forall in Hx.
    destruct (Hin x) as [e Hex]; [left|]. rewrite Hex.
    destruct (IH e (delete x ec) Hs) as (ev' & ec' & Hf & Hev & Hec).
    { intros kk Hkk. specialize (Hx kk Hkk).
      rewrite lookup_delete_ne by lia. apply Hin. right. exact Hkk. }
    exists ev', ec'. split; [exact Hf|]. split.
    + right. destruct Hev as [[-> ->]|(kk & Hl & Hkk)].
      * exists x. split; [reflexivity|exact Hex].
      * exists kk. split.
        -- destruct l; [discriminate Hl|exact Hl].
        -- apply lookup_delete_Some in Hkk as [_ Hkk]. exact Hkk.
    + intros kk. rewrite Hec.
      destruct (decide (kk ∈ l)) as [Hl|Hl].
      * rewrite !bool_decide_eq_true_2; [reflexivity|right; exact Hl|exact Hl].
      * rewrite (bool_decide_eq_false_2 _ Hl).
        destruct (decide (kk = x)) as [->|Hne].
        -- rewrite lookup_delete_eq, bool_decide_eq_true_2 by left. reflexivity.
        -- rewrite lookup_delete_ne by congruence.
           rewrite bool_decide_eq_false_2; [reflexivity|].
           intros H. apply elem_of_cons in H as [H|H]; contradiction.
Qed.

(** X8.  Which event a row takes.  When a frame is committed, the sticky
    event becomes the label of the pending change with the greatest frame
    index at or below the frame, whatever the order the changes arrived
    in; the row is written with that label, and every pending change at or
    below the frame is consumed while those above it stay pending. *)
Theorem row_takes_latest_change (k : Z) (s : ExportSink) (kk : Z) (ev : string) :
  _event_changes s !! kk = Some ev -> kk <= k ->
  (forall kk', is_Some (_event_changes s !! kk') -> kk' <= k -> kk' <= kk) ->
  _sticky_event (commit_row k s) = ev /\
  last (synced_rows (written (commit_row k s))) = Some (k, data_row s k ev) /\
  forall kk', _event_changes (commit_row k s) !! kk'
              = if bool_decide (kk' <= k) then None else _event_changes s !! kk'.
Proof.
  intros Hkk Hle Hmax.
  set (l := sorted_keys_le (_event_changes s) k).
  destruct (apply_changes_sorted s l (_sticky_event s) (_event_changes s))
    as (ev' & ec' & Hf & Hev & Hec).
  { apply sorted_keys_le_sorted. }
  { intros x Hx. apply elem_of_sorted_keys_le in Hx as [Hx _]. exact Hx. }
  rewrite <- sink_eta in Hf.
  assert (Hin : kk ∈ l) by (apply elem_of_sorted_keys_le_2; eauto).
  assert (Hev' : ev' = ev).
  { destruct Hev as [[Hnil _]|(m & Hlast & Hm)].
    - rewrite Hnil in Hin. inversion Hin.
    - assert (Hml : m ∈ l).
      { apply list_elem_of_lookup. exists (pred (length l)).
        rewrite last_lookup in Hlast. exact Hlast. }
      apply elem_of_sorted_keys_le in Hml as Hm'. destruct Hm' as [Hsome Hmk].
      assert (kk <= m)
        by (apply (last_sorted_max l m (sorted_keys_le_sorted _ _) Hlast), Hin).
      assert (m <= kk) by (apply Hmax; assumption).
      assert (m = kk) by lia. congruence. }
  subst ev'.
  assert (Hc : commit_row k s =
      let s1 := set_event_changes ec' (set_sticky_event ev s) in
      let s2 :=
        if negb (_initial_marker_emitted s) then
          set_initial_marker_emitted true
            (_write_marker k (buffered_t_q s k) ev EmptyString "sync" s1)
        else s1 in
      set_pending_committed (_pending_committed s + 1)
        (set_tq_by_k (delete k (_tq_by_k s))
           (emit (SyncedRow k (data_row s k ev))
              (set_open_rows (delete k (_open_rows s)) s2)))).
  { unfold commit_row. fold l in Hf.
    change (apply_event_changes k s) with
      (foldl (fun s kk =>
               let s := match _event_changes s !! kk with
                        | Some ev => set_sticky_event ev s
                        | None => s
                        end in
               set_event_changes (delete kk (_event_changes s)) s) s l).
    rewrite Hf. cbn zeta.
    unfold _write_marker, data_row, buffered_t_q.
    cbn [_initial_marker_emitted _sticky_event _tq_by_k _open_rows _delta
         _markers_writer set_event_changes set_sticky_event].
    destruct (_initial_marker_emitted s) eqn:Eim, (_markers_writer s) eqn:Emw;
      cbn; rewrite ?Eim, ?Emw; reflexivity. }
  rewrite Hc. cbn zeta. unfold _write_marker.
  cbn [_markers_writer set_event_changes set_sticky_event].
  assert (Hec' : forall kk', ec' !! kk'
                   = if bool_decide (kk' <= k) then None else _event_changes s !! kk').
  { intros kk'. rewrite Hec.
    destruct (decide (kk' ∈ l)) as [Hl|Hl].
    - rewrite (bool_decide_eq_true_2 _ Hl).
      apply elem_of_sorted_keys_le in Hl as [_ Hl].
      rewrite bool_decide_eq_true_2 by exact Hl. reflexivity.
    - rewrite (bool_decide_eq_false_2 _ Hl).
      destruct (decide (kk' <= k)) as [Hle'|Hgt].
      + rewrite (bool_decide_eq_true_2 _ Hle').
        destruct (_event_changes s !! kk') eqn:E; [|reflexivity].
        exfalso. apply Hl, elem_of_sorted_keys_le_2; eauto.
      + rewrite (bool_decide_eq_false_2 _ Hgt). reflexivity. }
  destruct (_initial_marker_emitted s) eqn:Eim, (_markers_writer s) eqn:Emw;
    cbn; (split; [reflexivity|]); (split; [|exact Hec']);
    rewrite ?synced_rows_app; cbn; apply last_snoc.
Qed.

Lemma row_takes_latest_change_witness :
  let s := run [demo_event 4 "B"; demo_event 2 "A"; demo_event 9 "C";
                demo_sample 5 1] (snd (start (demo_sink true))) in
  _sticky_event (commit_row 5 s) = "B"%string /\
  _event_changes (commit_row 5 s) !! 9 = Some "C"%string.
Proof.
  intros s.
  assert (H1 : _event_changes s !! 4 = Some "B"%string) by (vm_compute; reflexivity).
  assert (H2 : forall kk', is_Some (_event_changes s !! kk') -> kk' <= 5 -> kk' <= 4).
  { intros kk' [v Hv] Hle.
    destruct (decide (kk' = 5)) as [->|Hne]; [vm_compute in Hv; discriminate Hv|].
    lia. }
  destruct (row_takes_latest_change 5 s 4 "B" H1 ltac:(lia) H2) as (Hs & _ & Hec).
  split; [exact Hs|]. rewrite Hec. vm_compute. reflexivity.
Defined.

End SinkCells.

(** ** Construction, start and stop *)

Section SinkLifecycle.

Import PyFloat Exporter SinkFacts.

Lemma init_threshold cfg delta chans la fp fr las iw now :
  let s0 := __init__ cfg delta chans la fp fr las iw now in
  let period := default (FLUSH_PERIOD_SEC cfg) fp in
  let auto := Z.min 2048 (Z.max 64 (py_round (fmul (fdiv 1 delta) period))) in
  _flush_period s0 = period /\
  match match fr with Some n => Some n | None => FLUSH_ROWS cfg end with
  | Some n =>
      if 0 <? n then _flush_rows_threshold s0 = n
      else _flush_rows_threshold s0 = auto
  | None => _flush_rows_threshold s0 = auto
  end.
Proof.
  unfold __init__.
  destruct fr as [n|]; [|destruct (FLUSH_ROWS cfg) as [n|]];
    cbn [_flush_rows_threshold _flush_period]; (split; [reflexivity|]);
    try (destruct (Z.leb_spec n 0), (Z.ltb_spec 0 n); try lia);
    reflexivity.
Qed.

(** X9.  The row threshold of the flush is always positive.  For a positive
    step [delta] (the constructor divides by it), an explicit positive
    threshold, the argument before the configuration, is taken as it is; a
    missing, zero or negative one is replaced by the number of rows of one
    flush period, [round(fs_max * flush_period)] with [fs_max = 1.0 / delta]
    and the period of the argument or else of the configuration, computed
    in doubles and clamped to 64..2048. *)
Theorem flush_rows_threshold_positive cfg delta chans la fp fr las iw now :
  let s0 := __init__ cfg delta chans la fp fr las iw now in
  let period := default (FLUSH_PERIOD_SEC cfg) fp in
  let auto := Z.min 2048 (Z.max 64 (py_round (fmul (fdiv 1 delta) period))) in
  (0 < delta)%Q ->
  0 < _flush_rows_threshold s0 /\
  _flush_period s0 = period /\
  match match fr with Some n => Some n | None => FLUSH_ROWS cfg end with
  | Some n =>
      if 0 <? n then _flush_rows_threshold s0 = n
      else _flush_rows_threshold s0 = auto
  | None => _flush_rows_threshold s0 = auto
  end.
Proof.
  intros s0 period auto _.
  destruct (init_threshold cfg delta chans la fp fr las iw now) as [Hp H].
  fold s0 period auto in Hp, H. split; [|split; [exact Hp|exact H]].
  set (t := _flush_rows_threshold s0) in *. clearbody t.
  assert (Hauto : 64 <= auto) by (unfold auto; lia).
  destruct (match fr with Some n => Some n | None => FLUSH_ROWS cfg end) as [n|];
    [|lia].
  destruct (Z.ltb_spec 0 n); lia.
Qed.

(** A threshold left to the constructor at 100 Hz and the default period
    (25 rows, clamped to 64), an explicit one, and one left to the
    constructor at 250 Hz with a period of 0.43 s: the product of the
    doubles 250.0 and 0.43 is rounded to 107.5, and [round] gives 108. *)
Lemma flush_rows_threshold_positive_witness :
  _flush_rows_threshold (demo_sink true) = 64 /\
  _flush_rows_threshold
    (__init__ (demo_config true) (1 # 100) (Some ["A:x"%string]) (Some 3)
       None (Some 10) None None 0) = 10 /\
  _flush_rows_threshold
    (__init__ (demo_config true) (fdiv 1 250) (Some ["A:x"%string]) (Some 3)
       (Some (b64 (43 # 100))) None None None 0) = 108.
Proof.
  assert (Hd : (0 < 1 # 100)%Q) by reflexivity.
  assert (Hd' : (0 < fdiv 1 250)%Q) by (vm_compute; reflexivity).
  pose proof (flush_rows_threshold_positive (demo_config true) (1 # 100)
                (Some ["A:x"%string]) (Some 3) None None None None 0 Hd)
    as (_ & _ & H1).
  pose proof (flush_rows_threshold_positive (demo_config true) (1 # 100)
                (Some ["A:x"%string]) (Some 3) None (Some 10) None None 0 Hd)
    as (_ & _ & H2).
  pose proof (flush_rows_threshold_positive (demo_config true) (fdiv 1 250)
                (Some ["A:x"%string]) (Some 3) (Some (b64 (43 # 100))) None
                None None 0 Hd')
    as (_ & _ & H3).
  split; [|split; [exact H2|]].
  - etransitivity; [exact H1|]. vm_compute. reflexivity.
  - etransitivity; [exact H3|]. vm_compute. reflexivity.
Defined.

(** X10.  [start()] without channels.  On a sink that is not running,
    [start()] raises exactly when the synced CSV is enabled and no channel
    is known.  It raises after the files are opened and the markers header
    is written, and leaves the sink not running: a [stop()] that follows
    changes nothing, so the writers stay open. *)
Theorem start_without_channels (s : ExportSink) :
  _thr s = false ->
  (fst (start s) = Raised RuntimeError
   <-> _csv_signal_enabled s = true /\ _channels s = []) /\
  (fst (start s) = Raised RuntimeError ->
   let s' := snd (start s) in
   stop s' = s' /\ _synced_writer s' = true /\
   _markers_writer s' = _csv_marker_enabled s /\
   written s' = written s
     ++ (if _csv_marker_enabled s
         then [MarkersHeader ((if _print_k s then ["k"%string] else [])
                                ++ ["t_q"; "event"; "spike"; "source"]%string)]
         else [])).
Proof.
  intros Hthr. unfold start, stop. rewrite Hthr.
  cbn [_markers_writer _synced_writer _print_k _channels set_io].
  destruct (_csv_marker_enabled s) eqn:Em, (_csv_signal_enabled s) eqn:Es;
    cbn [_synced_writer _channels emit set_io];
    try destruct (_channels s) eqn:Ech; cbn [fst snd];
    (split; [split; [try discriminate; auto|intros [H1 H2]; try discriminate; auto]|]);
    try discriminate; intros _; cbn; rewrite ?Hthr, ?Em, ?Es, ?app_nil_r; auto.
Qed.

Lemma start_without_channels_witness :
  let s := __init__ (demo_config true) (1 # 100) None (Some 3)
             None None None None 0 in
  fst (start s) = Raised RuntimeError /\ stop (snd (start s)) = snd (start s).
Proof.
  intros s.
  destruct (start_without_channels s eq_refl) as [Hiff Hafter].
  assert (H : fst (start s) = Raised RuntimeError)
    by (apply Hiff; split; reflexivity).
  split; [exact H|]. apply (Hafter H).
Defined.

Lemma stop_closes (s : ExportSink) :
  _thr (stop s) = false /\
  (_thr s = true -> _synced_writer (stop s) = false /\ _markers_writer (stop s) = false).
Proof.
  unfold stop. destruct (_thr s) eqn:E; cbn [negb].
  - repeat split.
  - split; [exact E|discriminate].
Qed.

Lemma stop_not_running (s : ExportSink) : _thr s = false -> stop s = s.
Proof. intros H. unfold stop. rewrite H. reflexivity. Qed.

(** X11.  [start()] and [stop()] are idempotent: on a sink that a first
    [start()] has set running, a second one returns at once and writes
    nothing; [stop()] closes both writers, and a second [stop()] changes
    nothing. *)
Theorem start_stop_idempotent (s : ExportSink) :
  fst (start s) = Returned tt ->
  let s1 := snd (start s) in
  start s1 = (Returned tt, s1) /\
  _synced_writer (stop s1) = false /\ _markers_writer (stop s1) = false /\
  stop (stop s1) = stop s1.
Proof.
  intros Hstart s1.
  assert (Hthr : _thr s = true \/ _thr s1 = true).
  { destruct (_thr s) eqn:E; [left; reflexivity|right].
    apply (start_fields s E Hstart). }
  assert (Hthr1 : _thr s1 = true).
  { destruct Hthr as [H|H]; [|exact H].
    subst s1. unfold start. rewrite H. exact H. }
  split; [unfold start; rewrite Hthr1; reflexivity|].
  destruct (stop_closes s1) as [Hoff Hio]. destruct (Hio Hthr1) as [H1 H2].
  split; [exact H1|]. split; [exact H2|].
  apply stop_not_running, Hoff.
Qed.

Lemma start_stop_idempotent_witness :
  let s1 := snd (start (demo_sink true)) in
  start s1 = (Returned tt, s1) /\ stop (stop s1) = stop s1.
Proof.
  intros s1.
  destruct (start_stop_idempotent (demo_sink true) eq_refl) as (H1 & _ & _ & H2).
  split; [exact H1|exact H2].
Defined.

(** X12.  The flush cadence.  After every turn of the consumer of a sink
    with a positive row threshold and a positive flush period, fewer rows
    than the threshold are waiting for a flush, and less than a flush
    period has passed since the last one; the two settings are those the
    turn started with. *)
Theorem flush_cadence (pkt : option payload) (now : Q) (s : ExportSink) :
  (_synced_writer s = true -> _header_frozen s = true) ->
  0 < _flush_rows_threshold s -> (0 < _flush_period s)%Q ->
  let s' := run_iteration pkt now s in
  _pending_committed s' < _flush_rows_threshold s' /\
  (now - _last_flush_time s' < _flush_period s')%Q /\
  _flush_rows_threshold s' = _flush_rows_threshold s /\
  _flush_period s' = _flush_period s.
Proof.
  intros Hfz Hthr Hfp. unfold run_iteration.
  set (s1 := match pkt with
             | Some p => handle p (set_last_activity now s)
             | None => s
             end).
  assert (H1 : (_synced_writer s1 = true -> _header_frozen s1 = true) /\
               _flush_rows_threshold s1 = _flush_rows_threshold s /\
               _flush_period s1 = _flush_period s).
  { subst s1. destruct pkt as [p|]; [|auto].
    destruct (handle_fields p (set_last_activity now s)) as (Hp & Hf & _).
    unfold params in Hp.
    injection Hp as _ _ _ _ Hfp' Hthr' _ _ _ _ _ _ _ Hsw _.
    split; [rewrite Hsw; intros H; apply Hf, Hfz, H|]. auto. }
  clearbody s1. destruct H1 as (Hfz1 & Hthr1 & Hfp1).
  set (s2 := _commit_until (_k_seen_max s1 - _L s1) s1).
  assert (H2 : (_synced_writer s2 = true -> _header_frozen s2 = true) /\
               _flush_rows_threshold s2 = _flush_rows_threshold s /\
               _flush_period s2 = _flush_period s).
  { destruct (commit_until_fields (_k_seen_max s1 - _L s1) s1 Hfz1) as (Hp & _ & Hf).
    fold s2 in Hp, Hf. unfold params in Hp.
    injection Hp as _ _ _ _ Hfp' Hthr' _ _ _ _ _ _ _ Hsw _.
    split; [rewrite Hsw, Hf; exact Hfz1|]. split; congruence. }
  clearbody s2. destruct H2 as (Hfz2 & Hthr2 & Hfp2).
  set (s3 := if ltb 0 (_idle_watermark_sec s2) then _ else s2).
  assert (H3 : _flush_rows_threshold s3 = _flush_rows_threshold s /\
               _flush_period s3 = _flush_period s).
  { subst s3. destruct (ltb 0 _); [|auto]. destruct (leb _ _); [|auto].
    destruct (commit_until_fields (_k_seen_max s2) s2 Hfz2) as (Hp & _).
    unfold params in Hp.
    injection Hp as _ _ _ _ Hfp' Hthr' _ _ _ _ _ _ _ _ _.
    cbn [_flush_rows_threshold _flush_period set_last_activity].
    split; congruence. }
  clearbody s3. destruct H3 as (Hthr3 & Hfp3). cbn zeta.
  destruct (leb (_flush_period s3) (now - _last_flush_time s3)) eqn:E1;
    [|destruct (_flush_rows_threshold s3 <=? _pending_committed s3) eqn:E2];
    cbn [orb _pending_committed _last_flush_time _flush_rows_threshold
         _flush_period set_pending_committed set_last_flush_time].
  - rewrite Hthr3, Hfp3. split; [exact Hthr|]. split; [|auto].
    assert (E : (now - now == 0)%Q) by ring. rewrite E. exact Hfp.
  - rewrite Hthr3, Hfp3. split; [exact Hthr|]. split; [|auto].
    assert (E : (now - now == 0)%Q) by ring. rewrite E. exact Hfp.
  - split; [apply Z.leb_gt, E2|]. split; [|auto].
    apply Qnot_le_lt. intros Hle. apply Qle_bool_iff in Hle.
    unfold leb in E1. congruence.
Qed.

Lemma flush_cadence_witness :
  let s := snd (start (demo_sink true)) in
  let s' := run_iteration (fst (demo_sample 1 1)) (1 # 2) s in
  _pending_committed s' < _flush_rows_threshold s' /\
  ((1 # 2) - _last_flush_time s' < _flush_period s')%Q.
Proof.
  intros s s'.
  assert (H1 : _synced_writer s = true -> _header_frozen s = true)
    by (intros _; reflexivity).
  assert (H2 : 0 < _flush_rows_threshold s) by (vm_compute; reflexivity).
  assert (H3 : (0 < _flush_period s)%Q) by (vm_compute; reflexivity).
  destruct (flush_cadence (fst (demo_sample 1 1)) (1 # 2) s H1 H2 H3)
    as (Ha & Hb & _).
  split; [exact Ha|exact Hb].
Defined.

(** X13.  With the synced CSV disabled the sink writes no data row, yet it
    buffers every frame it is given and frees none: after any number of
    turns every frame index at which a sample or a spike was handled is
    still in the buffer. *)
Theorem disabled_signal_buffers_all cfg delta chans la fp fr las iw now turns :
  let s0 := __init__ cfg delta chans la fp fr las iw now in
  let s := run turns (snd (start s0)) in
  CSV_SIGNAL_ENABLE cfg = false ->
  synced_rows (written s) = [] /\
  forall k, k ∈ sample_or_spike_ks (payloads turns) -> is_Some (_tq_by_k s !! k).
Proof.
  intros s0 s Hsig.
  assert (Hstart : fst (start s0) = Returned tt).
  { destruct (init_fields cfg delta chans la fp fr las iw now)
      as (Hthr & Hs & _). fold s0 in Hthr, Hs.
    unfold start. rewrite Hthr. cbn [_synced_writer set_io].
    rewrite Hs, Hsig. destruct (_markers_writer _); reflexivity. }
  destruct (started_state cfg delta chans la fp fr las iw now Hstart)
    as (Hb & _ & Hsw & _ & _ & _ & _ & _ & _ & _ & _ & _ & _ & _ & Hw).
  fold s0 in Hb, Hsw, Hw. rewrite Hsig in Hsw, Hw.
  destruct (no_synced_file_run turns (snd (start s0))) as [Hnil _]; [exact Hsw| |].
  { rewrite Hw. destruct (CSV_MARKER_ENABLE cfg); reflexivity. }
  fold s in Hnil.
  assert (Hrows : synced_rows (written s) = []).
  { apply synced_rows_nil. intros k row Hin.
    assert (Hf : row ∈ synced_file (written s)).
    { unfold synced_file. apply list_elem_of_omap.
      exists (SyncedRow k row). split; [exact Hin|reflexivity]. }
    rewrite Hnil in Hf. inversion Hf. }
  split; [exact Hrows|]. intros k Hk.
  destruct (all_accounted_run turns (snd (start s0)) k Hk) as [Hv|[row Hr]];
    [exact Hv|].
  fold s in Hr. apply elem_of_synced_rows in Hr. rewrite Hrows in Hr. inversion Hr.
Qed.

Lemma disabled_signal_buffers_all_witness :
  let cfg := {| EVENT_KEYMAP := [("0", "REST")]%string; PLOT_DECIMATE_HZ := 0;
                PRINT_K := true; LOOKAHEAD_STEPS := None; LOOKAHEAD_SEC := None;
                FLUSH_PERIOD_SEC := 1 # 4; FLUSH_ROWS := Some 0;
                IDLE_WATERMARK_SEC := 1; CSV_SIGNAL_ENABLE := false;
                CSV_MARKER_ENABLE := true |} in
  let turns := [demo_sample 1 1; demo_sample 9 2; (None, 5%Q)] in
  let s := run turns (snd (start (__init__ cfg (1 # 100) (Some ["A:x"%string])
                                    (Some 3) None None None None 0))) in
  synced_rows (written s) = [] /\ is_Some (_tq_by_k s !! 1).
Proof.
  intros cfg turns s.
  destruct (disabled_signal_buffers_all cfg (1 # 100) (Some ["A:x"%string])
              (Some 3) None None None None 0 turns eq_refl) as [H1 H2].
  split; [exact H1|]. apply H2. left.
Defined.

End SinkLifecycle.

(** ** What a row holds *)

(** A property kept by the commit of a buffered frame and by the cleanup is
    kept by a commit. *)
Section CommitBuffered.

Import PyFloat Exporter SinkFacts.

Variable P : ExportSink -> Prop.
Hypothesis P_row :
  forall k s, is_Some (_tq_by_k s !! k) -> P s -> P (commit_row k s).
Hypothesis P_cleanup : forall ec s, P s -> P (set_event_changes ec s).

Lemma commit_rows_buffered (ks : list Z) :
  forall s, NoDup ks -> (forall k, k ∈ ks -> is_Some (_tq_by_k s !! k)) ->
            P s -> P (foldl (fun s k => commit_row k s) s ks).
Proof.
  induction ks as [|k ks IH]; intros s Hnd Hks Hs; [exact Hs|].
  apply NoDup_cons in Hnd as [Hk Hnd]. cbn [foldl]. apply IH; [exact Hnd| |].
  - intros k' Hk'. destruct (commit_row_fields k s) as (_ & _ & _ & -> & _).
    rewrite lookup_delete_ne by (intros ->; contradiction).
    apply Hks. right. exact Hk'.
  - apply P_row; [apply Hks; left|exact Hs].
Qed.

Lemma commit_until_buffered (k_commit : Z) (s : ExportSink) :
  (_synced_writer s = true -> _header_frozen s = true) ->
  P s -> P (_commit_until k_commit s).
Proof.
  intros Hfz Hs. destruct (commit_until_cases k_commit s Hfz) as [->|[_ ->]];
    [exact Hs|].
  apply P_cleanup, commit_rows_buffered; [| |exact Hs].
  - pose proof (sorted_keys_le_sorted (_tq_by_k s) k_commit) as H.
    generalize dependent (sorted_keys_le (_tq_by_k s) k_commit). intros l H.
    induction H as [|x l Hs' IH Hx]; constructor; [|exact IH].
    intros Hin. rewrite Forall_forall in Hx. specialize (Hx x Hin). lia.
  - intros k Hk. apply elem_of_sorted_keys_le in Hk as [Hk _]. exact Hk.
Qed.

End CommitBuffered.

Section SinkHistory.

Import PyFloat Exporter SinkFacts.

Lemma cell_of_snoc chans ps p k key :
  cell_of chans (ps ++ [p]) k key = cell_after chans p k key (cell_of chans ps k key).
Proof. unfold cell_of. rewrite foldl_app. reflexivity. Qed.

Lemma time_of_snoc ps p k :
  time_of (ps ++ [p]) k = time_after p k (time_of ps k).
Proof. unfold time_of. rewrite foldl_app. reflexivity. Qed.

(** A payload for another frame leaves the cells and the time of a frame. *)
Lemma after_other_frame chans p k :
  frame_of p <> Some k ->
  (forall key old, cell_after chans p k key old = old) /\
  (forall old, time_after p k old = old).
Proof.
  destruct p as [k' ? ? ?|? ? ? ? ?|k' ? ? ?]; cbn [frame_of]; intros H;
    split; intros; cbn [cell_after time_after]; try reflexivity;
    rewrite bool_decide_eq_false_2; try reflexivity;
    first [intros [-> _]; apply H; reflexivity | intros ->; apply H; reflexivity].
Qed.

Lemma frame_of_snoc ps p k :
  k ∈ sample_or_spike_ks (ps ++ [p]) <->
  k ∈ sample_or_spike_ks ps \/ frame_of p = Some k.
Proof.
  rewrite sample_or_spike_ks_snoc.
  destruct p; cbn [frame_of]; split; intros [H|H]; auto;
    try (right; congruence); try discriminate H; try contradiction.
Qed.

(** Before any payload for a frame, its cells are empty and it has no
    time. *)
Lemma fresh_frame chans ps k :
  k ∉ sample_or_spike_ks ps ->
  (forall key, cell_of chans ps k key = EmptyString) /\ time_of ps k = None.
Proof.
  induction ps as [|p ps IH] using rev_ind; intros Hk; [split; reflexivity|].
  assert (Hps : k ∉ sample_or_spike_ks ps).
  { intros H. apply Hk, frame_of_snoc. left. exact H. }
  assert (Hp : frame_of p <> Some k).
  { intros H. apply Hk, frame_of_snoc. right. exact H. }
  destruct (IH Hps) as [Hc Ht]. destruct (after_other_frame chans p k Hp) as [Ha Hb].
  split; [intros key; rewrite cell_of_snoc, Ha; apply Hc|].
  rewrite time_of_snoc, Hb. exact Ht.
Qed.

Lemma tq_after_lookup (p : payload) (tq : gmap Z Q) (k : Z) :
  tq_after p tq !! k = time_after p k (tq !! k).
Proof.
  destruct p as [k' ? ? ?|? ? ? ? ?|k' ? ? ?]; cbn [tq_after time_after];
    try reflexivity;
    (destruct (decide (k = k')) as [->|Hne];
     [rewrite lookup_insert_eq, bool_decide_eq_true_2 by reflexivity; reflexivity
     |rewrite lookup_insert_ne by congruence;
      rewrite bool_decide_eq_false_2 by exact Hne; reflexivity]).
Qed.

Lemma row_of_other_frame r ps p k ev :
  frame_of p <> Some k ->
  row_of r (ps ++ [p]) k ev = row_of r ps k ev.
Proof.
  intros Hp. destruct (after_other_frame (_channels r) p k Hp) as [Ha Hb].
  unfold row_of. rewrite time_of_snoc, Hb, cell_of_snoc, Ha.
  do 3 f_equal. apply map_ext. intros key. rewrite cell_of_snoc. apply Ha.
Qed.

(** The history through a handler that is on time. *)
Lemma history_inv_handle r ps p s :
  on_time s p -> look_inv s -> all_accounted ps s ->
  history_inv r ps s -> history_inv r (ps ++ [p]) (handle p s).
Proof.
  intros Hon Hlook Hacc ((Hpk & Hch & Hd) & Hcell & Htime & Hrows).
  destruct (handle_fields p s) as (Hp & _ & _ & Ht & _).
  apply params_proj in Hp as (_ & Hpk' & _ & _ & _ & Hch' & _ & _ & _ & Hd').
  destruct (handle_files p s (proj1 (proj1 Hlook))) as (_ & Hsr & _).
  assert (Habove : forall k, k ∈ committed_ks s -> frame_of p <> Some k).
  { intros k Hk. pose proof (on_time_above p s Hlook Hon k Hk) as H.
    destruct p; cbn [frame_of]; try discriminate; intros [= ->]; lia. }
  assert (Hfresh : forall k, ¬ is_Some (_tq_by_k s !! k) ->
            frame_of p = Some k -> k ∉ sample_or_spike_ks ps).
  { intros k Hnb Hk Hin. destruct (Hacc k Hin) as [Hb|[row Hrow]]; [exact (Hnb Hb)|].
    assert (Hc : k ∈ committed_ks s).
    { unfold committed_ks. apply list_elem_of_fmap. exists (k, row).
      split; [reflexivity|]. apply elem_of_synced_rows, Hrow. }
    exact (Habove k Hc Hk). }
  assert (Hsome : forall k old, frame_of p = Some k -> is_Some (time_after p k old)).
  { intros k old Hk. destruct p; cbn [frame_of] in Hk; try discriminate Hk;
      injection Hk as ->; cbn [time_after];
      rewrite bool_decide_eq_true_2 by reflexivity; eauto. }
  split; [repeat split; congruence|]. split; [|split].
  - intros k key. rewrite buffered_cell_handle, Hch, Ht, tq_after_lookup, cell_of_snoc.
    rewrite Hcell.
    destruct (decide (frame_of p = Some k)) as [Hk|Hk].
    + rewrite (bool_decide_eq_true_2 _ (Hsome k _ Hk)).
      destruct (decide (is_Some (_tq_by_k s !! k))) as [Hb|Hnb].
      * rewrite (bool_decide_eq_true_2 _ Hb). reflexivity.
      * rewrite (bool_decide_eq_false_2 _ Hnb).
        destruct (fresh_frame (_channels r) ps k (Hfresh k Hnb Hk)) as [-> _].
        reflexivity.
    + destruct (after_other_frame (_channels r) p k Hk) as [Ha Hb].
      rewrite !Ha, Hb. reflexivity.
  - intros k. rewrite Ht, tq_after_lookup, time_of_snoc. intros Hs.
    destruct (decide (is_Some (_tq_by_k s !! k))) as [Hb|Hnb].
    + rewrite (Htime k Hb). reflexivity.
    + assert (Hk : frame_of p = Some k).
      { destruct (decide (frame_of p = Some k)) as [Hk|Hk]; [exact Hk|].
        destruct (after_other_frame (_channels r) p k Hk) as [_ Hb].
        rewrite Hb in Hs. exfalso. exact (Hnb Hs). }
      destruct (fresh_frame (_channels r) ps k (Hfresh k Hnb Hk)) as [_ ->].
      destruct (_tq_by_k s !! k) eqn:E; [exfalso; apply Hnb; eauto|reflexivity].
  - intros k row. rewrite Hsr. intros Hin.
    destruct (Hrows k row Hin) as [ev ->]. exists ev. symmetry.
    apply row_of_other_frame, Habove.
    unfold committed_ks. apply list_elem_of_fmap. exists (k, row_of r ps k ev).
    split; [reflexivity|exact Hin].
Qed.

(** The history through the commit of a buffered frame. *)
Lemma history_inv_commit_row r ps k s :
  is_Some (_tq_by_k s !! k) ->
  history_inv r ps s -> history_inv r ps (commit_row k s).
Proof.
  intros Hk ((Hpk & Hch & Hd) & Hcell & Htime & Hrows).
  destruct (commit_row_fields k s)
    as (Hp & _ & _ & Ht & Ho & _ & ev & _ & _ & Hw).
  apply params_proj in Hp as (_ & Hpk' & _ & _ & _ & Hch' & _ & _ & _ & Hd').
  split; [repeat split; congruence|]. split; [|split].
  - intros k' key. unfold buffered_cell. rewrite Ho, Ht.
    destruct (decide (k' = k)) as [->|Hne].
    + rewrite !lookup_delete_eq.
      rewrite bool_decide_eq_false_2 by (intros [v Hv]; discriminate Hv).
      reflexivity.
    + rewrite !lookup_delete_ne by congruence. apply Hcell.
  - intros k'. rewrite Ht. destruct (decide (k' = k)) as [->|Hne].
    + rewrite lookup_delete_eq. intros [v Hv]. discriminate Hv.
    + rewrite lookup_delete_ne by congruence. apply Htime.
  - intros k' row. rewrite Hw, !synced_rows_app.
    assert (E : forall m : list write,
               m = (if negb (_initial_marker_emitted s) && _markers_writer s
                    then [MarkersRow k (k_prefix s k ++
                            [_fmt_val (Some (FFin (buffered_t_q s k))); ev;
                             EmptyString; "sync"%string])]
                    else []) -> synced_rows m = []).
    { intros m ->. destruct (_ && _); reflexivity. }
    rewrite (E _ eq_refl). cbn [app synced_rows omap list_omap].
    rewrite elem_of_app, list_elem_of_singleton.
    intros [Hin|[= -> ->]]; [apply Hrows, Hin|].
    exists ev. unfold data_row, row_of, k_prefix, buffered_t_q.
    rewrite Hpk, Hch, Hd, <- (Htime k Hk).
    do 3 f_equal.
    + apply map_ext. intros key. rewrite Hcell, bool_decide_eq_true_2 by exact Hk.
      reflexivity.
    + rewrite Hcell, bool_decide_eq_true_2 by exact Hk. reflexivity.
Qed.

Lemma history_inv_commit_until r ps k_commit s :
  (_synced_writer s = true -> _header_frozen s = true) ->
  history_inv r ps s -> history_inv r ps (_commit_until k_commit s).
Proof.
  apply (commit_until_buffered (history_inv r ps)).
  - intros k s'. apply history_inv_commit_row.
  - intros ec s' H. exact H.
Qed.

Lemma look_inv_handle p s : look_inv s -> look_inv (handle p s).
Proof.
  intros (Hb & Hiw & Hc).
  destruct (handle_fields p s) as (Hp & _ & Hk & _).
  apply params_proj in Hp as (_ & _ & HL & Hiw' & _).
  split; [apply base_inv_handle; exact Hb|]. split; [congruence|].
  intros k. rewrite handle_committed, Hk, HL. intros Hin.
  specialize (Hc k Hin). destruct p; lia.
Qed.

Lemma look_inv_commit_until s :
  look_inv s -> look_inv (_commit_until (_k_seen_max s - _L s) s).
Proof.
  intros (Hb & Hiw & Hc).
  destruct (commit_until_fields (_k_seen_max s - _L s) s (proj1 Hb))
    as (Hp & Hk & _).
  apply params_proj in Hp as (_ & _ & HL & Hiw' & _).
  split; [apply base_inv_commit_until; exact Hb|]. split; [congruence|].
  destruct (commit_until_committed (_k_seen_max s - _L s) s (proj1 Hb))
    as (ks & -> & _ & Hks & _).
  intros k. rewrite Hk, HL, elem_of_app. intros [Hin|Hin]; [auto|].
  apply (Hks k Hin).
Qed.

Lemma start_delta (s : ExportSink) : _delta (snd (start s)) = _delta s.
Proof.
  unfold start. destruct (_thr s); [reflexivity|].
  cbn [_markers_writer _synced_writer set_io].
  destruct (_csv_marker_enabled s); cbn [_synced_writer _channels emit set_io];
    (destruct (_csv_signal_enabled s); [|reflexivity]);
    destruct (_channels s); reflexivity.
Qed.

(** X30.  What a row holds.  In a session with the idle watermark off in
    which every sample and spike arrives on time, every row of the synced
    CSV, those of the final commit of [stop()] included, is the row of its
    frame: the frame index if [PRINT_K] is set, the quantized time of the
    last payload received for the frame, for each channel the formatted
    value of the last pair received for it at that frame (an empty cell if
    there was none), the label of the last spike of the frame, and an
    event. *)
Theorem rows_hold_latest_values cfg delta chans la fp fr las iw now turns :
  let s0 := __init__ cfg delta chans la fp fr las iw now in
  fst (start s0) = Returned tt ->
  (_idle_watermark_sec s0 <= 0)%Q ->
  run_ok on_time turns (snd (start s0)) ->
  forall k row,
    (k, row) ∈ synced_rows (written (session turns s0)) ->
    exists ev, row = row_of s0 (payloads turns) k ev.
Proof.
  intros s0 Hstart Hidle Hok.
  destruct (started_state cfg delta chans la fp fr las iw now Hstart)
    as (Hb & Hthr & Hsw & _ & _ & Hch & Hpk & _ & Ht & Ho & _ & _ & _ & Hiw & Hw).
  destruct (init_fields cfg delta chans la fp fr las iw now)
    as (Hthr0 & _ & _ & Hch0 & Hpk0 & _ & _ & _ & _ & _ & _ & _ & Hiw0 & _).
  fold s0 in Hb, Hthr, Hsw, Hch, Hpk, Ht, Ho, Hiw, Hw, Hch0, Hpk0, Hiw0.
  pose proof (start_delta s0) as Hdelta.
  assert (Hnil : synced_rows (written (snd (start s0))) = []).
  { rewrite Hw. destruct (CSV_MARKER_ENABLE cfg), (CSV_SIGNAL_ENABLE cfg);
      reflexivity. }
  assert (Hlook : look_inv (snd (start s0))).
  { split; [exact Hb|]. split.
    - rewrite Hiw, <- Hiw0. apply idle_off, Hidle.
    - unfold committed_ks. rewrite Hnil. intros k' Hin. inversion Hin. }
  assert (Hhist : history_inv s0 [] (snd (start s0))).
  { split; [repeat split; congruence|]. split; [|split].
    - intros k key. unfold buffered_cell. rewrite Ho, Ht, !lookup_empty.
      rewrite bool_decide_eq_false_2 by (intros [v Hv]; discriminate Hv).
      reflexivity.
    - intros k. rewrite Ht, lookup_empty. intros [v Hv]. discriminate Hv.
    - intros k row. rewrite Hnil. intros Hin. inversion Hin. }
  assert (Hacc : all_accounted [] (snd (start s0)))
    by (intros k Hk; inversion Hk).
  assert (Hrun : (look_inv (run turns (snd (start s0))) /\
                  all_accounted (payloads turns) (run turns (snd (start s0)))) /\
                 history_inv s0 (payloads turns) (run turns (snd (start s0)))).
  { apply (run_inv (fun ps s' => (look_inv s' /\ all_accounted ps s')
                                 /\ history_inv s0 ps s') on_time)
      with (ps := []); auto.
    - clear. intros ps s p Hon [[Hl Ha] Hh].
      split; [split; [apply look_inv_handle, Hl
                     |apply all_accounted_handle; [exact I|exact Ha]]|].
      apply history_inv_handle; assumption.
    - clear. intros ps s [[Hl Ha] Hh].
      split; [split; [apply look_inv_commit_until, Hl
                     |apply all_accounted_commit_until, Ha]|].
      apply history_inv_commit_until; [apply Hl|exact Hh].
    - clear. intros ps s Hon [[(_ & Hiw & _) _] _]. congruence. }
  destruct Hrun as [[Hl2 _] Hh2].
  unfold session. destruct (start s0) as [[[]|e] s1] eqn:Es; [|discriminate Hstart].
  cbn [snd] in *. set (s2 := run turns s1) in *.
  unfold stop. destruct (negb (_thr s2)); [apply Hh2|].
  set (s3 := set_io false (_synced_writer s2) (_markers_writer s2) s2).
  assert (Hh3 : history_inv s0 (payloads turns) s3) by exact Hh2.
  apply (history_inv_commit_until s0 _ (_k_seen_max s3)) in Hh3;
    [|exact (proj1 (proj1 Hl2))].
  exact (proj2 (proj2 (proj2 Hh3))).
Qed.

Lemma rows_hold_latest_values_witness :
  let turns := [demo_sample 1 1; demo_sample 5 2; demo_sample 3 3;
                demo_sample 3 4; demo_sample 9 5] in
  exists k row ev,
    (k, row) ∈ synced_rows (written (session turns (demo_sink true))) /\
    row = row_of (demo_sink true) (payloads turns) k ev.
Proof.
  intros turns.
  assert (Hidle : (_idle_watermark_sec (demo_sink true) <= 0)%Q)
    by (vm_compute; discriminate).
  assert (Hok : run_ok on_time turns (snd (start (demo_sink true)))).
  { repeat split; intros p [= <-]; vm_compute; reflexivity. }
  destruct (synced_rows (written (session turns (demo_sink true))))
    as [|[k row] rest] eqn:E; [vm_compute in E; discriminate E|].
  assert (Hin : (k, row) ∈ synced_rows (written (session turns (demo_sink true))))
    by (rewrite E; left).
  destruct (rows_hold_latest_values (demo_config true) (1 # 100)
              (Some ["A:x"%string]) (Some 3) None None None None 0 turns
              eq_refl Hidle Hok k row Hin) as [ev Hrow].
  exists k, row, ev. split; [rewrite <- E; exact Hin|exact Hrow].
Defined.

End SinkHistory.

(* ===================================================================== *)
(** * Further properties of the synchronizer *)
(* ===================================================================== *)

Section SyncQuantizer.

Import PyFloat Sync.

(** On a non-positive float, [int] is the ceiling. *)
Lemma py_int_nonpos (x : Q) : (x <= 0)%Q -> py_int x = - Qfloor (- x).
Proof.
  destruct x as [n d]. unfold Qle, py_int, Qfloor, Qopp. simpl. intros H.
  assert (Hn : n <= 0) by lia.
  rewrite <- (Z.opp_involutive n) at 1.
  rewrite Z.quot_opp_l by lia. f_equal.
  apply Z.quot_div_nonneg; lia.
Qed.

(** Truncation toward zero is monotone. *)
Lemma py_int_mono (x y : Q) : (x <= y)%Q -> py_int x <= py_int y.
Proof.
  intros Hxy.
  destruct (Qlt_le_dec x 0) as [Hx|Hx], (Qlt_le_dec y 0) as [Hy|Hy].
  - rewrite !py_int_nonpos by (apply Qlt_le_weak; assumption).
    assert (Qfloor (- y) <= Qfloor (- x)); [|lia].
    apply Qfloor_resp_le, Qopp_le_compat, Hxy.
  - rewrite py_int_nonpos by (apply Qlt_le_weak; assumption).
    rewrite py_int_floor by assumption.
    assert (0 <= Qfloor (- x)).
    { change 0 with (Qfloor 0). apply Qfloor_resp_le.
      apply (Qopp_le_compat x 0), Qlt_le_weak, Hx. }
    assert (0 <= Qfloor y) by (change 0 with (Qfloor 0); apply Qfloor_resp_le, Hy).
    lia.
  - exfalso. apply (Qlt_irrefl 0).
    apply (Qle_lt_trans _ x); [exact Hx|]. apply (Qle_lt_trans _ y); assumption.
  - rewrite !py_int_floor by assumption. apply Qfloor_resp_le, Hxy.
Qed.

(** ** Rounding to binary64 is monotone *)

Lemma two_power_pos (e : Z) : (0 < 2 ^ e)%Q.
Proof. apply Qpower_0_lt. reflexivity. Qed.

Lemma two_power_plus (a b : Z) : (2 ^ (a + b) == 2 ^ a * 2 ^ b)%Q.
Proof. apply Qpower_plus. discriminate. Qed.

Lemma two_power_Z (n : Z) : 0 <= n -> (inject_Z (2 ^ n) == 2 ^ n)%Q.
Proof. intros Hn. apply (Zpower_Qpower 2 n Hn). Qed.

(** [ilog2 x] is the exponent of the power of two at or below [x]. *)
Lemma ilog2_spec (x : Q) :
  (0 < x)%Q -> (2 ^ ilog2 x <= x)%Q /\ (x < 2 ^ (ilog2 x + 1))%Q.
Proof.
  intros Hx. destruct x as [n d]. unfold ilog2. cbn [Qnum Qden].
  assert (Hn : 0 < n) by (unfold Qlt in Hx; cbn in Hx; lia).
  destruct (Z.log2_spec n Hn) as [Hn1 Hn2].
  destruct (Z.log2_spec (Z.pos d) eq_refl) as [Hd1 Hd2].
  pose proof (Z.log2_nonneg n) as Hln. pose proof (Z.log2_nonneg (Z.pos d)) as Hld.
  set (ln := Z.log2 n) in *. set (ld := Z.log2 (Z.pos d)) in *.
  assert (Hq : (inject_Z n == (n # d) * inject_Z (Z.pos d))%Q).
  { unfold Qeq, Qmult, inject_Z. cbn. lia. }
  assert (Hdpos : (0 < inject_Z (Z.pos d))%Q) by reflexivity.
  rewrite Zle_Qle in Hn1, Hd1. rewrite Zlt_Qlt in Hn2, Hd2.
  rewrite two_power_Z in Hn1, Hd1 by assumption.
  rewrite two_power_Z in Hn2, Hd2 by lia.
  rewrite Hq in Hn1, Hn2.
  set (D := inject_Z (Z.pos d)) in *. set (x := n # d) in *.
  assert (Hup : forall e, e = ln - ld -> (x < 2 ^ (e + 1))%Q).
  { intros e He.
    apply (Qmult_lt_r _ _ D Hdpos).
    apply (Qlt_le_trans _ (2 ^ (ln + 1))); [exact Hn2|].
    replace (ln + 1) with ((e + 1) + ld) by lia.
    rewrite two_power_plus.
    apply Qmult_le_l; [apply two_power_pos|exact Hd1]. }
  destruct (Qle_bool (2 ^ (ln - ld)) x) eqn:Htest.
  - split; [apply Qle_bool_iff; exact Htest|apply Hup; reflexivity].
  - split.
    + apply (Qmult_le_r _ _ D Hdpos).
      apply (Qle_trans _ (2 ^ ln)); [|exact Hn1].
      replace ln with ((ln - ld - 1) + (ld + 1)) at 2 by lia.
      rewrite two_power_plus.
      apply Qmult_le_l; [apply two_power_pos|apply Qlt_le_weak; exact Hd2].
    + replace (ln - ld - 1 + 1) with (ln - ld) by lia.
      apply Qnot_le_lt. intros Hle. apply Qle_bool_iff in Hle. congruence.
Qed.

Lemma ilog2_mono (x y : Q) :
  (0 < x)%Q -> (x <= y)%Q -> ilog2 x <= ilog2 y.
Proof.
  intros Hx Hxy.
  assert (Hy : (0 < y)%Q) by (apply (Qlt_le_trans _ x); assumption).
  destruct (ilog2_spec x Hx) as [Hx1 _], (ilog2_spec y Hy) as [_ Hy2].
  assert (H : ilog2 x < ilog2 y + 1); [|lia].
  apply (Qpower_lt_compat_l_inv 2); [|reflexivity].
  apply (Qle_lt_trans _ x); [exact Hx1|].
  apply (Qle_lt_trans _ y); assumption.
Qed.

(** The significand has at most 53 bits, and exactly 53 above the
    subnormal range. *)
Lemma significand_lt (x : Q) :
  (0 < x)%Q -> (x / 2 ^ ulp_exp x < inject_Z (2 ^ 53))%Q.
Proof.
  intros Hx. apply Qlt_shift_div_r; [apply two_power_pos|].
  destruct (ilog2_spec x Hx) as [_ Hup].
  apply (Qlt_le_trans _ _ _ Hup).
  rewrite two_power_Z by lia. rewrite <- two_power_plus.
  apply Qpower_le_compat_l; [unfold ulp_exp; lia|discriminate].
Qed.

Lemma significand_ge (x : Q) :
  (0 < x)%Q -> -1074 < ulp_exp x ->
  (inject_Z (2 ^ 52) <= x / 2 ^ ulp_exp x)%Q.
Proof.
  intros Hx He. apply Qle_shift_div_l; [apply two_power_pos|].
  destruct (ilog2_spec x Hx) as [Hlo _].
  apply (Qle_trans _ (2 ^ ilog2 x)); [|exact Hlo].
  rewrite two_power_Z by lia. rewrite <- two_power_plus.
  apply Qpower_le_compat_l; [unfold ulp_exp in *; lia|discriminate].
Qed.

(** [round] keeps the integers on either side. *)
Lemma py_round_le_Z (x : Q) (n : Z) : (x <= inject_Z n)%Q -> py_round x <= n.
Proof.
  intros Hx. pose proof (py_round_nearest x) as H.
  apply Qabs_Qle_condition in H as [_ H].
  assert (Hlt : (inject_Z (py_round x) < inject_Z (n + 1))%Q).
  { rewrite inject_Z_plus. change (inject_Z 1) with 1%Q. lra. }
  rewrite <- Zlt_Qlt in Hlt. lia.
Qed.

Lemma py_round_ge_Z (x : Q) (n : Z) : (inject_Z n <= x)%Q -> n <= py_round x.
Proof.
  intros Hx. pose proof (py_round_nearest x) as H.
  apply Qabs_Qle_condition in H as [H _].
  assert (Hlt : (inject_Z (n - 1) < inject_Z (py_round x))%Q).
  { unfold Z.sub. rewrite inject_Z_plus, inject_Z_opp.
    change (inject_Z 1) with 1%Q. lra. }
  rewrite <- Zlt_Qlt in Hlt. lia.
Qed.

Lemma py_round_mono (x y : Q) : (x <= y)%Q -> py_round x <= py_round y.
Proof.
  intros Hxy. pose proof (Qfloor_resp_le x y Hxy) as Hf.
  unfold py_round.
  pose proof (Qfloor_le x) as Hx1. pose proof (Qlt_floor x) as Hx2.
  pose proof (Qfloor_le y) as Hy1. pose proof (Qlt_floor y) as Hy2.
  set (fx := Qfloor x) in *. set (fy := Qfloor y) in *.
  destruct (Z.eq_dec fx fy) as [E|E].
  - rewrite E in *. clearbody fy. clear fx E Hf.
    destruct (Qcompare_spec (x - inject_Z fy) (1 # 2)),
             (Qcompare_spec (y - inject_Z fy) (1 # 2));
      try (destruct (Z.even fy)); try lia; exfalso; lra.
  - assert (fx + 1 <= fy) by lia.
    destruct (Qcompare (x - inject_Z fx) (1 # 2)),
             (Qcompare (y - inject_Z fy) (1 # 2));
      try (destruct (Z.even fx)); try (destruct (Z.even fy)); lia.
Qed.

Lemma b64_pos_nonneg (x : Q) : (0 < x)%Q -> (0 <= b64_pos x)%Q.
Proof.
  intros Hx. unfold b64_pos.
  apply Qmult_le_0_compat; [|apply Qlt_le_weak, two_power_pos].
  change 0%Q with (inject_Z 0). rewrite <- Zle_Qle.
  apply py_round_nonneg. apply Qlt_le_weak, Qlt_shift_div_l.
  - apply two_power_pos.
  - rewrite Qmult_0_l. exact Hx.
Qed.

Lemma b64_pos_mono (x y : Q) :
  (0 < x)%Q -> (x <= y)%Q -> (b64_pos x <= b64_pos y)%Q.
Proof.
  intros Hx Hxy.
  assert (Hy : (0 < y)%Q) by (apply (Qlt_le_trans _ x); assumption).
  pose proof (ilog2_mono x y Hx Hxy) as Hlog.
  assert (He : ulp_exp x <= ulp_exp y) by (unfold ulp_exp; lia).
  unfold b64_pos.
  destruct (Z.eq_dec (ulp_exp x) (ulp_exp y)) as [E|E].
  - rewrite E. apply Qmult_le_compat_r; [|apply Qlt_le_weak, two_power_pos].
    rewrite <- Zle_Qle. apply py_round_mono.
    apply Qmult_le_compat_r; [exact Hxy|].
    apply Qinv_le_0_compat, Qlt_le_weak, two_power_pos.
  - assert (Hlt : ulp_exp x + 1 <= ulp_exp y) by lia.
    assert (Hsub : -1074 < ulp_exp y) by (unfold ulp_exp in *; lia).
    pose proof (py_round_le_Z _ _ (Qlt_le_weak _ _ (significand_lt x Hx))) as Hhi.
    pose proof (py_round_ge_Z _ _ (significand_ge y Hy Hsub)) as Hlo.
    rewrite Zle_Qle in Hhi, Hlo.
    apply (Qle_trans _ (inject_Z (2 ^ 53) * 2 ^ ulp_exp x)).
    { apply Qmult_le_compat_r; [exact Hhi|apply Qlt_le_weak, two_power_pos]. }
    apply (Qle_trans _ (inject_Z (2 ^ 52) * 2 ^ ulp_exp y)).
    2:{ apply Qmult_le_compat_r; [exact Hlo|apply Qlt_le_weak, two_power_pos]. }
    rewrite !two_power_Z by lia. rewrite <- !two_power_plus.
    apply Qpower_le_compat_l; [lia|discriminate].
Qed.

Lemma b64_mono (x y : Q) : (x <= y)%Q -> (b64 x <= b64 y)%Q.
Proof.
  intros Hxy. destruct x as [nx dx], y as [ny dy]. unfold b64. cbn [Qnum].
  assert (Hz : nx * Z.pos dy <= ny * Z.pos dx) by exact Hxy.
  destruct nx as [|px|px], ny as [|py|py]; try lia.
  - apply Qle_refl.
  - apply b64_pos_nonneg. reflexivity.
  - apply b64_pos_mono; [reflexivity|exact Hxy].
  - apply (Qopp_le_compat 0). apply b64_pos_nonneg. reflexivity.
  - apply (Qle_trans _ 0).
    + apply (Qopp_le_compat 0). apply b64_pos_nonneg. reflexivity.
    + apply b64_pos_nonneg. reflexivity.
  - apply Qopp_le_compat. apply b64_pos_mono; [reflexivity|].
    apply Qopp_le_compat. exact Hxy.
Qed.

Lemma b64_nonneg (x : Q) : (0 <= x)%Q -> (0 <= b64 x)%Q.
Proof. intros Hx. exact (b64_mono 0 x Hx). Qed.

Lemma of_int_mono (n m : Z) : n <= m -> (of_int n <= of_int m)%Q.
Proof. intros H. apply b64_mono. rewrite <- Zle_Qle. exact H. Qed.

(** ** The quantizer *)

Lemma _floor_to_decimals_mono (x y : Q) (D : Z) :
  (x <= y)%Q -> (_floor_to_decimals x D <= _floor_to_decimals y D)%Q.
Proof.
  intros Hxy. unfold _floor_to_decimals, floor, fdiv, fmul.
  assert (Hp : (0 <= b64 (10 ^ D))%Q).
  { apply b64_nonneg, Qlt_le_weak, Qpow10_pos. }
  destruct (D <=? 0).
  - apply of_int_mono, Qfloor_resp_le, Hxy.
  - apply b64_mono. unfold Qdiv. apply Qmult_le_compat_r.
    + apply of_int_mono, Qfloor_resp_le, b64_mono.
      apply Qmult_le_compat_r; [exact Hxy|exact Hp].
    + apply Qinv_le_0_compat, Hp.
Qed.

(** X14.  The quantizer is monotone: with a positive step, a later host
    time never gets a smaller grid index or a smaller quantized time,
    whatever the sign of the times and the number of decimals kept. *)
Theorem quantize_monotone (s : SyncManager) (delta t1 t2 : Q) :
  _delta s = Some delta -> (0 < delta)%Q -> (t1 <= t2)%Q ->
  exists k1 tq1 k2 tq2,
    _quantize t1 s = (Returned (k1, tq1), s) /\
    _quantize t2 s = (Returned (k2, tq2), s) /\
    k1 <= k2 /\ (tq1 <= tq2)%Q.
Proof.
  intros Hd Hpos Ht. unfold _quantize. rewrite Hd.
  eexists _, _, _, _. split; [reflexivity|]. split; [reflexivity|].
  assert (Hk : py_int (fadd (fdiv t1 delta) (1 # 2))
               <= py_int (fadd (fdiv t2 delta) (1 # 2))).
  { apply py_int_mono, b64_mono, Qplus_le_l, b64_mono. unfold Qdiv.
    apply Qmult_le_compat_r; [exact Ht|].
    apply Qinv_le_0_compat, Qlt_le_weak, Hpos. }
  split; [exact Hk|].
  apply _floor_to_decimals_mono, b64_mono, Qmult_le_compat_r;
    [apply of_int_mono; exact Hk|apply Qlt_le_weak, Hpos].
Qed.

Lemma quantize_monotone_witness :
  let cfg := mkConfig [] 0 true None None 0 None 0 true true in
  let s := snd (start_session cfg (1 # 100) 5 (__init__ ∅)) in
  exists k1 tq1 k2 tq2,
    _quantize (- (1 # 3)) s = (Returned (k1, tq1), s) /\
    _quantize (1 # 7) s = (Returned (k2, tq2), s) /\
    k1 <= k2 /\ (tq1 <= tq2)%Q.
Proof.
  intros cfg s.
  assert (H1 : (0 < 1 # 100)%Q) by reflexivity.
  assert (H2 : (- (1 # 3) <= 1 # 7)%Q) by discriminate.
  exact (quantize_monotone s (1 # 100) (- (1 # 3)) (1 # 7) eq_refl H1 H2).
Defined.

End SyncQuantizer.

Section SyncDelivery.

Import PyFloat Sync SyncFacts.

Lemma _emit_to_plot_sinks_wiring p s :
  wiring (_emit_to_plot_sinks p s) = wiring s.
Proof.
  unfold _emit_to_plot_sinks.
  destruct p; destruct (_plot_decimate_dt s); try reflexivity.
  destruct (negb _); [reflexivity|].
  destruct (decimate _ _ _ _) as [[|? ?] ?]; reflexivity.
Qed.

Lemma _emit_to_sinks_wiring p s :
  wiring (snd (_emit_to_sinks p s)) = wiring s.
Proof.
  unfold _emit_to_sinks. cbn [_plot_sinks set_queues].
  destruct (_plot_sinks s); cbn [fst snd]; [reflexivity|].
  rewrite _emit_to_plot_sinks_wiring. reflexivity.
Qed.


Lemma trigger_spike_wiring label source now s :
  wiring (snd (trigger_spike label source now s)) = wiring s.
Proof.
  unfold trigger_spike. destruct (bool_decide _); [reflexivity|].
  unfold mbind, M_bind, bind, _host_rel_now, _quantize, ret.
  destruct (_session_t0 s); [|reflexivity].
  destruct (_delta s); [|reflexivity].
  match goal with
  | |- context [_emit_to_sinks ?p ?s'] =>
      pose proof (_emit_to_sinks_wiring p s') as H;
      pose proof (proj1 (_emit_to_sinks_session p s')) as H';
      destruct (_emit_to_sinks p s') as [[[]|e] s2]; [|discriminate H']
  end.
  exact H.
Qed.










End SyncDelivery.

Section SyncSamples.

Import PyFloat Sync SyncFacts.

Lemma set_anchors_id (s : SyncManager) : set_anchors (_anchors s) s = s.
Proof. destruct s; reflexivity. Qed.

Lemma wiring_anchors s s' : wiring s' = wiring s -> _anchors s' = _anchors s.
Proof. unfold wiring. intros [= _ _ _ _ -> _ _ _ _ _]. reflexivity. Qed.

Lemma set_event_anchors label source now s :
  _anchors (snd (set_event label source now s)) = _anchors s.
Proof.
  unfold set_event. destruct (bool_decide (source = _)); [reflexivity|].
  unfold mbind, M_bind, bind, _host_rel_now, _quantize, modify, get, ret.
  destruct (_session_t0 s); [|reflexivity].
  destruct (_delta s); [|reflexivity].
  match goal with
  | |- context [_emit_to_sinks ?p ?s'] =>
      pose proof (_emit_to_sinks_wiring p s') as H;
      pose proof (proj1 (_emit_to_sinks_session p s')) as H';
      destruct (_emit_to_sinks p s') as [[[]|e] s2]; [|discriminate H']
  end.
  cbn [snd] in *. rewrite (wiring_anchors _ _ H).
  destruct (bool_decide _); [destruct (bool_decide _)|]; reflexivity.
Qed.

(** What the consumer does to the anchors. *)
Lemma consume_anchors ts dev pairs now s :
  _anchors (consume ts dev pairs now s) = _anchors s \/
  exists t0 anchor,
    _session_t0 s = Some t0 /\
    _anchors (consume ts dev pairs now s) = <[dev := anchor]> (_anchors s) /\
    match _anchors s !! dev with
    | None => anchor = mkAnchor ts (now - t0) 0 1
    | Some a => anchor = a \/ anchor = mkAnchor ts (now - t0) (epoch a + 1) (scale a)
    end.
Proof.
  unfold consume, _handle_sample_packet, mbind, M_bind, bind, _map_to_host.
  destruct (_session_t0 s) as [t0|]; [|left; reflexivity].
  right. exists t0. eexists. split; [reflexivity|].
  unfold _quantize. cbn [_delta set_anchors]. split.
  - destruct (_delta s); [|reflexivity].
    match goal with
    | |- context [_emit_to_sinks ?p ?s'] =>
        rewrite (wiring_anchors _ _ (_emit_to_sinks_wiring p s'))
    end.
    reflexivity.
  - destruct (_anchors s !! dev) as [a|]; [|reflexivity].
    destruct (ltb _ _); [right|left]; reflexivity.
Qed.

(** The drift scale of every anchor is 1: the mapping is offset-only. *)
Lemma reachable_unit_scale s :
  reachable s -> forall dev a, _anchors s !! dev = Some a -> scale a = 1%Q.
Proof.
  induction 1 as [heap|q s _ IH|q s _ IH|q s _ IH|cfg delta now s _ IH|s _ IH
                  |label source now s _ IH|label source now s _ IH
                  |ts dev pairs now s _ IH]; intros d a Ha.
  - inversion Ha.
  - unfold add_sink_queue in Ha. destruct (bool_decide _); exact (IH d a Ha).
  - unfold add_plot_sink_queue in Ha. destruct (bool_decide _); exact (IH d a Ha).
  - exact (IH d a Ha).
  - unfold start_session in Ha. destruct (_started s); [exact (IH d a Ha)|].
    destruct (negb _); [exact (IH d a Ha)|]. inversion Ha.
  - unfold stop_session in Ha. destruct (negb (_started s)); [exact (IH d a Ha)|].
    inversion Ha.
  - rewrite set_event_anchors in Ha. exact (IH d a Ha).
  - rewrite (wiring_anchors _ _ (trigger_spike_wiring label source now s)) in Ha.
    exact (IH d a Ha).
  - destruct (consume_anchors ts dev pairs now s) as [E|(t0 & anchor & _ & E & Hc)];
      rewrite E in Ha; [exact (IH d a Ha)|].
    destruct (decide (d = dev)) as [->|Hne].
    + rewrite lookup_insert_eq in Ha. injection Ha as <-.
      destruct (_anchors s !! dev) as [a0|] eqn:E0.
      * destruct Hc as [->| ->]; [exact (IH dev a0 E0)|]. cbn. exact (IH dev a0 E0).
      * rewrite Hc. reflexivity.
    + rewrite lookup_insert_ne in Ha by congruence. exact (IH d a Ha).
Qed.

(** X16.  The mapping to host time is offset-only.  Once a device has its
    anchor, and unless its clock jumps backward, the host time of a packet
    is the host time of the anchor plus the device time elapsed since the
    anchor (and 0 if that is negative): the moment the packet arrives plays
    no role, and the manager is left as it was. *)
Theorem map_to_host_offset (s : SyncManager) (dev : string) (ts now t0 : Q)
  (a : DeviceAnchor) :
  reachable s -> _session_t0 s = Some t0 -> _anchors s !! dev = Some a ->
  (dev_ts0 a <= ts + (1 # 1000000000000))%Q ->
  exists t,
    _map_to_host dev ts now s = (Returned t, s) /\
    let est := (host_t0 a + (ts - dev_ts0 a))%Q in
    ((0 <= est)%Q -> (t == est)%Q) /\ ((est < 0)%Q -> (t == 0)%Q).
Proof.
  intros Hr Ht0 Ha Hts.
  pose proof (reachable_unit_scale s Hr dev a Ha) as Hsc.
  unfold _map_to_host. rewrite Ht0, Ha.
  assert (Hj : ltb (ts + (1 # 1000000000000)) (dev_ts0 a) = false).
  { destruct (ltb _ _) eqn:E; [|reflexivity].
    apply ltb_spec in E. exfalso. exact (Qlt_not_le _ _ E Hts). }
  rewrite Hj, Hsc. eexists. split.
  - rewrite (insert_id _ _ _ Ha), set_anchors_id. reflexivity.
  - cbn zeta.
    assert (E : (1 * (ts - dev_ts0 a) + host_t0 a == host_t0 a + (ts - dev_ts0 a))%Q)
      by ring.
    unfold leb. split; intros H.
    + rewrite <- E in H. apply Qle_bool_iff in H. rewrite H. exact E.
    + destruct (Qle_bool 0 _) eqn:Eb; [|reflexivity].
      apply Qle_bool_iff in Eb. rewrite E in Eb.
      exfalso. exact (Qlt_not_le _ _ H Eb).
Qed.

Lemma map_to_host_offset_witness :
  let cfg := mkConfig [("0", "REST")]%string 0 true None None 0 None 0 true true in
  let s := consume 100 "A" [] 7 (snd (start_session cfg (1 # 100) 5 (__init__ ∅))) in
  exists t, _map_to_host "A" 103 50 s = (Returned t, s) /\ (t == 5)%Q.
Proof.
  intros cfg s.
  assert (Hr : reachable s) by (apply r_consume, r_start, r_init).
  assert (Hts : (dev_ts0 (mkAnchor 100 (7 - 5) 0 1) <= 103 + (1 # 1000000000000))%Q)
    by discriminate.
  destruct (map_to_host_offset s "A" 103 50 5 (mkAnchor 100 (7 - 5) 0 1)
              Hr eq_refl eq_refl Hts) as (t & Hrun & Hpos & _).
  exists t. split; [exact Hrun|]. rewrite Hpos; [reflexivity|discriminate].
Defined.

(** X17.  Anchoring.  The first packet of a device, and a packet whose
    device time is behind the anchor's (a clock jump or reset), is mapped
    to the host-relative time of its arrival, and the anchor of the device
    is set to that pair of times; a jump adds 1 to the epoch and keeps the
    scale.  The anchors of the other devices are not touched. *)
Theorem map_to_host_anchors (s : SyncManager) (dev : string) (ts now t0 : Q) :
  _session_t0 s = Some t0 -> (t0 <= now)%Q ->
  match _anchors s !! dev with
  | Some a => (ts + (1 # 1000000000000) < dev_ts0 a)%Q
  | None => True
  end ->
  exists t s',
    _map_to_host dev ts now s = (Returned t, s') /\ (t == now - t0)%Q /\
    _anchors s' !! dev
    = Some (match _anchors s !! dev with
            | Some a => mkAnchor ts (now - t0) (epoch a + 1) (scale a)
            | None => mkAnchor ts (now - t0) 0 1
            end) /\
    forall dev', dev' <> dev -> _anchors s' !! dev' = _anchors s !! dev'.
Proof.
  intros Ht0 Hnow Hcase. unfold _map_to_host. rewrite Ht0.
  assert (Hret : forall sc : Q,
    ((if leb 0 (sc * (ts - ts) + (now - t0)) then sc * (ts - ts) + (now - t0) else 0)
     == now - t0)%Q).
  { intros sc.
    assert (E : (sc * (ts - ts) + (now - t0) == now - t0)%Q) by ring.
    assert (H : (0 <= sc * (ts - ts) + (now - t0))%Q).
    { rewrite E. apply (Qplus_le_l _ _ t0). ring_simplify. exact Hnow. }
    unfold leb. apply Qle_bool_iff in H. rewrite H. exact E. }
  destruct (_anchors s !! dev) as [a|] eqn:Ea.
  - apply ltb_spec in Hcase. rewrite Hcase. cbn [dev_ts0 host_t0 scale].
    eexists _, _. split; [reflexivity|]. split; [apply Hret|].
    cbn [_anchors set_anchors]. split; [apply lookup_insert_eq|].
    intros dev' Hne. apply lookup_insert_ne. congruence.
  - cbn [dev_ts0 host_t0 scale].
    eexists _, _. split; [reflexivity|]. split; [apply Hret|].
    cbn [_anchors set_anchors]. split; [apply lookup_insert_eq|].
    intros dev' Hne. apply lookup_insert_ne. congruence.
Qed.

Lemma map_to_host_anchors_witness :
  let cfg := mkConfig [("0", "REST")]%string 0 true None None 0 None 0 true true in
  let s := consume 100 "A" [] 7 (snd (start_session cfg (1 # 100) 5 (__init__ ∅))) in
  exists t s',
    _map_to_host "A" 2 9 s = (Returned t, s') /\ (t == 4)%Q /\
    _anchors s' !! "A"%string = Some (mkAnchor 2 (9 - 5) 1 1).
Proof.
  intros cfg s.
  assert (H1 : (5 <= 9)%Q) by discriminate.
  destruct (map_to_host_anchors s "A" 2 9 5 eq_refl H1 eq_refl)
    as (t & s' & Hrun & Ht & Ha & _).
  exists t, s'. split; [exact Hrun|]. split; [rewrite Ht; reflexivity|exact Ha].
Defined.





End SyncSamples.

Section SyncPlot.

Import PyFloat Sync SyncFacts.







End SyncPlot.

Section ProducerProofs.

Import Producer.

(** One packet enqueued on a queue within its bound. *)
Lemma enqueue_packet_step {A} (max_queue : Z) (pkt : A) (q : list A) :
  0 < max_queue -> (length q <= Z.to_nat max_queue)%nat ->
  enqueue_packet max_queue pkt q
  = drop (length (q ++ [pkt]) - Z.to_nat max_queue) (q ++ [pkt]).
Proof.
  intros Hmq Hlen. unfold enqueue_packet, _max_queue, put_nowait.
  rewrite (proj2 (Z.leb_le 0 max_queue)) by lia.
  rewrite (proj2 (Z.ltb_lt 0 max_queue)) by lia. cbn [andb].
  rewrite length_app. cbn [length].
  destruct (Z.leb_spec max_queue (Z.of_nat (length q))) as [Hfull|Hroom].
  - assert (E : length q = Z.to_nat max_queue) by lia.
    destruct q as [|x q]; [cbn in E; lia|]. cbn [get_nowait].
    cbn [length] in *.
    destruct (Z.leb_spec max_queue (Z.of_nat (length q))) as [H|H]; [lia|].
    replace (S (length q) + 1 - Z.to_nat max_queue)%nat with 1%nat by lia.
    reflexivity.
  - replace (length q + 1 - Z.to_nat max_queue)%nat with 0%nat by lia.
    reflexivity.
Qed.

Lemma enqueue_all_bounded {A} (max_queue : Z) (pkts : list A) :
  0 < max_queue ->
  forall q, (length q <= Z.to_nat max_queue)%nat ->
    enqueue_all max_queue pkts q
    = drop (length (q ++ pkts) - Z.to_nat max_queue) (q ++ pkts).
Proof.
  intros Hmq. induction pkts as [|p pkts IH]; intros q Hlen.
  - cbn. rewrite app_nil_r.
    replace (length q - Z.to_nat max_queue)%nat with 0%nat by lia. reflexivity.
  - change (enqueue_all max_queue (p :: pkts) q)
      with (enqueue_all max_queue pkts (enqueue_packet max_queue p q)).
    rewrite (enqueue_packet_step max_queue p q Hmq Hlen).
    remember (length (q ++ [p]) - Z.to_nat max_queue)%nat as d eqn:Ed.
    rewrite length_app in Ed. cbn [length] in Ed.
    assert (Hd : (d <= length (q ++ [p]))%nat)
      by (rewrite length_app; cbn [length]; lia).
    rewrite IH by (rewrite length_drop, length_app; cbn [length]; lia).
    rewrite <- drop_app_le by exact Hd.
    rewrite <- app_assoc. cbn [app]. rewrite drop_drop. f_equal.
    rewrite length_drop, !length_app. cbn [length]. lia.
Qed.

(** X20.  Drop-oldest.  A manager built with [max_queue > 0] keeps, of the
    packets enqueued while nothing is taken off the queue, the [max_queue]
    most recent ones in their order; one built with [max_queue <= 0] keeps
    them all. *)
Theorem enqueue_keeps_most_recent {A} (max_queue : Z) (pkts : list A) :
  enqueue_all max_queue pkts []
  = if 0 <? max_queue then drop (length pkts - Z.to_nat max_queue) pkts else pkts.
Proof.
  destruct (Z.ltb_spec 0 max_queue) as [Hpos|Hneg].
  - rewrite (enqueue_all_bounded max_queue pkts Hpos []) by (cbn; lia).
    reflexivity.
  - assert (Hstep : forall (q : list A) p, enqueue_packet max_queue p q = q ++ [p]).
    { intros q p. unfold enqueue_packet, _max_queue, put_nowait.
      destruct (Z.leb_spec 0 max_queue) as [H0|H0].
      - assert (max_queue = 0) as -> by lia. reflexivity.
      - reflexivity. }
    assert (Hall : forall q, enqueue_all max_queue pkts q = q ++ pkts).
    { induction pkts as [|p pkts IH]; intros q; [rewrite app_nil_r; reflexivity|].
      change (enqueue_all max_queue (p :: pkts) q)
        with (enqueue_all max_queue pkts (enqueue_packet max_queue p q)).
      rewrite Hstep, IH, <- app_assoc. reflexivity. }
    apply Hall.
Qed.

End ProducerProofs.

(* ===================================================================== *)
(** * Further properties of the device timebases *)
(* ===================================================================== *)

Section TimebaseMore.

Import ShimmerTimebase.

(** X21.  Between two consecutive calls for a key the timebase advances by
    the difference of the raw ticks modulo the counter modulus, whatever
    the state it starts from: by less than two seconds each time, so that a
    silence of a whole counter period or more goes unnoticed. *)
Theorem device_time_s_elapsed (key : string) (raw1 raw2 : Z) (S : STATE) :
  in_counter_range raw1 -> in_counter_range raw2 ->
  let r1 := device_time_s raw1 key S in
  let r2 := device_time_s raw2 key (snd r1) in
  (fst r2 - fst r1 == seconds_of_ticks ((raw2 - raw1) mod _COUNTER_MOD))%Q /\
  (fst r2 - fst r1 < 2)%Q.
Proof.
  intros H1 H2. cbn zeta. rewrite !device_time_s_unfold. cbn [fst snd].
  rewrite lookup_insert_eq. cbn [default from_option id].
  set (st := default fresh_entry (S !! key)).
  assert (Hshape : exists x o,
            step_entry raw1 st = (o + (raw1 - x), mkEntry (Some x) (Some raw1) o)).
  { unfold step_entry. destruct (start st) as [s0|]; eexists _, _; reflexivity. }
  destruct Hshape as (x & o & Hstep). rewrite Hstep. cbn [fst snd].
  assert (Hd : fst (step_entry raw2 (mkEntry (Some x) (Some raw1) o))
               - (o + (raw1 - x)) = (raw2 - raw1) mod _COUNTER_MOD).
  { unfold step_entry. cbn [fst snd start last offset].
    unfold in_counter_range, _COUNTER_MOD in *.
    destruct (Z.ltb_spec raw2 raw1).
    - replace (raw2 - raw1) with ((raw2 - raw1 + 65536) + (-1) * 65536) by lia.
      rewrite Z.mod_add by lia.
      rewrite (Z.mod_small (raw2 - raw1 + 65536)) by lia. lia.
    - rewrite (Z.mod_small (raw2 - raw1)) by lia. lia. }
  set (a := fst (step_entry raw2 (mkEntry (Some x) (Some raw1) o))) in *.
  set (b := o + (raw1 - x)) in *. clearbody a b.
  assert (Hm : 0 <= (raw2 - raw1) mod _COUNTER_MOD < 65536)
    by (apply Z.mod_pos_bound; reflexivity).
  rewrite <- Hd in *. unfold seconds_of_ticks, _TICK_RATE_HZ.
  split.
  - unfold Qeq, Qminus, Qplus, Qopp. simpl. lia.
  - unfold Qlt, Qminus, Qplus, Qopp. simpl. lia.
Qed.

Lemma device_time_s_elapsed_witness :
  let r1 := device_time_s 65530 "shimmer" ∅ in
  let r2 := device_time_s 4 "shimmer" (snd r1) in
  (fst r2 - fst r1 == 10 # 32768)%Q.
Proof.
  intros r1 r2.
  assert (H1 : in_counter_range 65530) by (unfold in_counter_range, _COUNTER_MOD; lia).
  assert (H2 : in_counter_range 4) by (unfold in_counter_range, _COUNTER_MOD; lia).
  destruct (device_time_s_elapsed "shimmer" 65530 4 ∅ H1 H2) as [H _].
  exact H.
Defined.

(** What a call returns depends on the entry of its key only. *)
Lemma device_time_s_local (key : string) (raw : Z) (S S' : STATE) :
  S !! key = S' !! key ->
  fst (device_time_s raw key S) = fst (device_time_s raw key S') /\
  snd (device_time_s raw key S) !! key = snd (device_time_s raw key S') !! key.
Proof.
  intros H. rewrite !device_time_s_unfold. cbn [fst snd]. rewrite H.
  split; [reflexivity|]. rewrite !lookup_insert_eq. reflexivity.
Qed.

Lemma device_time_s_other (key key' : string) (raw : Z) (S : STATE) :
  key' <> key -> snd (device_time_s raw key' S) !! key = S !! key.
Proof.
  intros H. rewrite device_time_s_unfold. cbn [snd].
  apply lookup_insert_ne. exact H.
Qed.

Lemma run_local (key : string) (calls : list (string * Z)) :
  forall S S' : STATE,
    S !! key = S' !! key ->
    results_for key (fst (run calls S))
    = results_for key (fst (run (filter (fun c => fst c = key) calls) S')).
Proof.
  induction calls as [|[key' raw] rest IH]; intros S S' H; [reflexivity|].
  rewrite run_cons. unfold results_for. cbn [fst].
  destruct (decide (key' = key)) as [->|Hne].
  - rewrite (filter_cons_True (fun c : string * Z => fst c = key)) by reflexivity.
    rewrite run_cons. cbn [fst].
    rewrite !(filter_cons_True (fun r : string * Q => fst r = key)) by reflexivity.
    destruct (device_time_s_local key raw S S' H) as [E1 E2].
    cbn [map snd]. rewrite E1. f_equal. apply IH, E2.
  - rewrite (filter_cons_False (fun c : string * Z => fst c = key)) by exact Hne.
    rewrite (filter_cons_False (fun r : string * Q => fst r = key)) by exact Hne.
    apply IH. rewrite device_time_s_other by exact Hne. exact H.
Qed.

(** X22.  The devices do not interfere, and [reset] concerns one key.  The
    seconds returned for a key are those the calls for this key alone
    would have given; after [reset(key)] the next call for the key returns
    0, while the other keys go on as if nothing had happened. *)
Theorem timebase_keys_independent (key : string) (calls : list (string * Z))
  (S : STATE) :
  results_for key (fst (run calls S))
  = results_for key (fst (run (filter (fun c => fst c = key) calls) S)) /\
  (forall raw, (fst (device_time_s raw key (reset key S)) == 0)%Q) /\
  (forall key', key' <> key ->
     results_for key' (fst (run calls (reset key S)))
     = results_for key' (fst (run calls S))).
Proof.
  split; [apply run_local; reflexivity|]. split.
  - intros raw. rewrite device_time_s_unfold. unfold reset. cbn [fst].
    rewrite lookup_insert_eq. cbn. unfold seconds_of_ticks, Qeq. simpl. lia.
  - intros key' Hne.
    rewrite (run_local key' calls (reset key S) S).
    + symmetry. apply run_local. reflexivity.
    + unfold reset. apply lookup_insert_ne. congruence.
Qed.

End TimebaseMore.

Section UnicornProofs.

Import PyFloat UnicornTimebase.

Lemma next_tick_calm (stamp : option Q) (s : UnicornLSLTimebase) :
  _anchored s = true ->
  match stamp with
  | Some wall => (wall - _last_wall s < _soft_gap_sec s)%Q
  | None => True
  end ->
  next_tick stamp s
  = (_t_curr s,
     mkTimebase (_fs s) (_dt s) true (_t_curr s + _dt s)
       (default (_last_wall s) stamp) (_soft_gap_sec s)).
Proof.
  intros Ha Hc. unfold next_tick. rewrite Ha. cbn [negb].
  destruct stamp as [wall|]; cbn [default from_option id].
  - assert (E : leb (_soft_gap_sec s) (wall - _last_wall s) = false).
    { unfold leb. destruct (Qle_bool _ _) eqn:E; [|reflexivity].
      apply Qle_bool_iff in E. exfalso. exact (Qlt_not_le _ _ Hc E). }
    rewrite E. cbn. rewrite Ha. reflexivity.
  - rewrite Ha. reflexivity.
Qed.

Lemma ticks_chain (stamps : list (option Q)) :
  forall s,
    _anchored s = true -> calm (_soft_gap_sec s) (_last_wall s) stamps ->
    head (ticks stamps s)
    = match stamps with [] => None | _ :: _ => Some (_t_curr s) end /\
    forall i a b,
      ticks stamps s !! i = Some a -> ticks stamps s !! S i = Some b ->
      b = (a + _dt s)%Q.
Proof.
  induction stamps as [|stamp rest IH]; intros s Ha Hc.
  - split; [reflexivity|]. intros i a b H. inversion H.
  - cbn [ticks].
    assert (Hstep : match stamp with
                    | Some wall => (wall - _last_wall s < _soft_gap_sec s)%Q
                    | None => True
                    end /\
                    calm (_soft_gap_sec s) (default (_last_wall s) stamp) rest).
    { destruct stamp as [wall|]; cbn in Hc |- *; [exact Hc|split; [exact I|exact Hc]]. }
    destruct Hstep as [H1 H2].
    rewrite (next_tick_calm stamp s Ha H1).
    set (s' := mkTimebase _ _ _ _ _ _).
    destruct (IH s' eq_refl H2) as [Hh Hch].
    split; [reflexivity|].
    intros [|i] a b Hi Hsi.
    + injection Hi as <-.
      change (ticks rest s' !! 0%nat = Some b) in Hsi.
      rewrite <- head_lookup, Hh in Hsi.
      destruct rest; [discriminate Hsi|]. injection Hsi as <-. reflexivity.
    + exact (Hch i a b Hi Hsi).
Qed.

(** X23.  The Unicorn timebase removes the jitter.  After
    [prime_from_first_stamp(base)], as long as no stamp handed to
    [next_tick] is a soft gap (0.25 s) or more after the stamp handed
    before it, the first tick is [base] and every tick is the one before
    plus the step [dt], whatever the stamps are; the step is [1/fs] of the
    nominal rate, or 1/250 when that rate is not positive, and it is
    positive, so the ticks strictly increase. *)
Theorem ticks_uniform (fs_hz base : Q) (stamps : list (option Q)) :
  let s := prime_from_first_stamp base (__init__ fs_hz) in
  calm (1 # 4) base stamps ->
  head (ticks stamps s)
  = match stamps with [] => None | _ :: _ => Some base end /\
  (forall i a b,
     ticks stamps s !! i = Some a -> ticks stamps s !! S i = Some b ->
     b = (a + _dt s)%Q) /\
  _dt s = (1 / (if ltb 0 fs_hz then fs_hz else 250))%Q /\ (0 < _dt s)%Q.
Proof.
  intros s Hc. destruct (ticks_chain stamps s eq_refl Hc) as [Hh Hch].
  split; [exact Hh|]. split; [exact Hch|]. split; [reflexivity|].
  cbn. destruct (ltb 0 fs_hz) eqn:E.
  - apply ltb_spec in E. unfold Qdiv. rewrite Qmult_1_l.
    apply Qinv_lt_0_compat, E.
  - reflexivity.
Qed.

Lemma ticks_uniform_witness :
  let stamps := [Some (1001 # 100); None; Some (1021 # 100)]%Q in
  let s := prime_from_first_stamp 10 (__init__ 250) in
  head (ticks stamps s) = Some 10%Q /\
  forall i a b,
    ticks stamps s !! i = Some a -> ticks stamps s !! S i = Some b ->
    b = (a + _dt s)%Q.
Proof.
  intros stamps s.
  assert (Hc : calm (1 # 4) 10 stamps) by (cbn; repeat split).
  destruct (ticks_uniform 250 10 stamps Hc) as (Hh & Hch & _).
  split; [exact Hh|exact Hch].
Defined.

(** X24.  The soft realign.  A stamp that is a soft gap or more after the
    stamp seen before it moves the timebase to that stamp, wherever the
    ticks have got to: the tick returned is the stamp itself, and as long
    as the stamps that follow are calm the ticks go on from there by the
    step.  A timebase that was never primed primes itself on the stamp it
    is given, or on 0 when it is given none. *)
Theorem ticks_after_realign (s : UnicornLSLTimebase) (wall : Q)
  (rest : list (option Q)) :
  _anchored s = true -> (_soft_gap_sec s <= wall - _last_wall s)%Q ->
  calm (_soft_gap_sec s) wall rest ->
  head (ticks (Some wall :: rest) s) = Some wall /\
  (forall i a b,
     ticks (Some wall :: rest) s !! i = Some a ->
     ticks (Some wall :: rest) s !! S i = Some b -> b = (a + _dt s)%Q) /\
  forall stamp fs_hz,
    fst (next_tick stamp (__init__ fs_hz)) = default 0%Q stamp.
Proof.
  intros Ha Hgap Hc.
  assert (Hstep : next_tick (Some wall) s
                  = (wall, mkTimebase (_fs s) (_dt s) true (wall + _dt s) wall
                             (_soft_gap_sec s))).
  { unfold next_tick. rewrite Ha. cbn [negb].
    unfold leb. apply Qle_bool_iff in Hgap. rewrite Hgap. cbn. rewrite Ha.
    reflexivity. }
  cbn [ticks]. rewrite Hstep.
  set (s' := mkTimebase _ _ _ _ _ _).
  destruct (ticks_chain rest s' eq_refl Hc) as [Hh Hch].
  split; [reflexivity|]. split.
  - intros [|i] a b Hi Hsi.
    + injection Hi as <-.
      change (ticks rest s' !! 0%nat = Some b) in Hsi.
      rewrite <- head_lookup, Hh in Hsi.
      destruct rest; [discriminate Hsi|]. injection Hsi as <-. reflexivity.
    + exact (Hch i a b Hi Hsi).
  - intros [w|] fs_hz; unfold next_tick; cbn [__init__ _anchored negb]; cbn.
    + destruct (leb _ _); reflexivity.
    + reflexivity.
Qed.

Lemma ticks_after_realign_witness :
  let s := snd (next_tick None (prime_from_first_stamp 10 (__init__ 250))) in
  let stamps := [Some 11; Some (1101 # 100); None]%Q in
  head (ticks stamps s) = Some 11%Q /\
  forall i a b,
    ticks stamps s !! i = Some a -> ticks stamps s !! S i = Some b ->
    b = (a + _dt s)%Q.
Proof.
  intros s stamps.
  assert (Hgap : (_soft_gap_sec s <= 11 - _last_wall s)%Q) by discriminate.
  assert (Hc : calm (_soft_gap_sec s) 11 [Some (1101 # 100); None]%Q)
    by (cbn; repeat split).
  destruct (ticks_after_realign s 11 [Some (1101 # 100); None]%Q eq_refl Hgap Hc)
    as (H1 & H2 & _).
  split; [exact H1|exact H2].
Defined.

End UnicornProofs.

(* ===================================================================== *)
(** * Properties of the configuration helpers *)
(* ===================================================================== *)

Section HelpersProofs.

Import PyFloat Helpers.

Variable strip : string -> string.

(** [cols] has no duplicate and [seen] is its set. *)
Lemma add_column_inv (key : string) (st : list string * gset string) :
  NoDup (fst st) /\ (forall k, k ∈ snd st <-> k ∈ fst st) ->
  (NoDup (fst (add_column key st)) /\
   (forall k, k ∈ snd (add_column key st) <-> k ∈ fst (add_column key st))) /\
  (forall k, k ∈ fst (add_column key st) <-> k ∈ fst st \/ k = key).
Proof.
  intros [Hnd Hseen]. unfold add_column.
  destruct (decide (key ∈ snd st)) as [Hin|Hout].
  - rewrite bool_decide_eq_true_2 by exact Hin.
    split; [split; assumption|].
    intros k. split; [auto|]. intros [H| ->]; [exact H|apply Hseen, Hin].
  - rewrite bool_decide_eq_false_2 by exact Hout. cbn [fst snd].
    split; [split|].
    + apply NoDup_app. split; [exact Hnd|]. split; [|apply NoDup_singleton].
      intros x Hx Hx'. apply list_elem_of_singleton in Hx'. subst.
      apply Hout, Hseen, Hx.
    + intros k. rewrite elem_of_union, elem_of_singleton, elem_of_app,
        list_elem_of_singleton, Hseen. tauto.
    + intros k. rewrite elem_of_app, list_elem_of_singleton. tauto.
Qed.

Lemma add_columns_inv (dev : string) (chs : list string) :
  forall st : list string * gset string,
    NoDup (fst st) /\ (forall k, k ∈ snd st <-> k ∈ fst st) ->
    let st' := foldl (fun st ch => add_column (dev +:+ ":" +:+ ch)%string st) st chs in
    (NoDup (fst st') /\ (forall k, k ∈ snd st' <-> k ∈ fst st')) /\
    (forall k, k ∈ fst st' <->
               k ∈ fst st \/ exists ch, ch ∈ chs /\ k = (dev +:+ ":" +:+ ch)%string).
Proof.
  induction chs as [|ch chs IH]; intros st Hinv; cbn zeta.
  - cbn [foldl]. split; [exact Hinv|].
    intros k. split; [auto|]. intros [H|(ch & Hch & _)]; [exact H|inversion Hch].
  - cbn [foldl].
    destruct (add_column_inv (dev +:+ ":" +:+ ch)%string st Hinv) as [Hinv1 Hmem1].
    destruct (IH _ Hinv1) as [Hinv2 Hmem2]. split; [exact Hinv2|].
    intros k. rewrite Hmem2, Hmem1. split.
    + intros [[H| ->]|(c & Hc & ->)]; [left; exact H|right..].
      * exists ch. split; [left|reflexivity].
      * exists c. split; [right; exact Hc|reflexivity].
    + intros [H|(c & Hc & ->)]; [left; left; exact H|].
      apply elem_of_cons in Hc as [->|Hc]; [left; right; reflexivity|].
      right. exists c. split; [exact Hc|reflexivity].
Qed.

Lemma collect_instance_inv (inst : instance) (st : list string * gset string) :
  NoDup (fst st) /\ (forall k, k ∈ snd st <-> k ∈ fst st) ->
  (NoDup (fst (collect_instance strip inst st)) /\
   (forall k, k ∈ snd (collect_instance strip inst st)
              <-> k ∈ fst (collect_instance strip inst st))) /\
  (forall k, k ∈ fst (collect_instance strip inst st)
             <-> k ∈ fst st \/ exports strip inst k).
Proof.
  intros Hinv. unfold collect_instance, exports.
  destruct (ENABLED inst); cbn [negb].
  2:{ split; [exact Hinv|]. intros k. split; [auto|].
      intros [H|(H & _)]; [exact H|discriminate H]. }
  destruct (EXPORT_ENABLE inst) as [[|]|]; cbn [default from_option id negb].
  2,3: (split; [exact Hinv|]; intros k; split; [auto|];
        intros [H|(_ & H & _)]; [exact H|discriminate H]).
  destruct (decide (strip (DEVICE_NAME inst) = EmptyString)) as [He|Hne].
  { rewrite bool_decide_eq_true_2 by exact He.
    split; [exact Hinv|]. intros k. split; [auto|].
    intros [H|(_ & _ & H & _)]; [exact H|contradiction]. }
  rewrite bool_decide_eq_false_2 by exact Hne.
  destruct (add_columns_inv (strip (DEVICE_NAME inst))
              (enabled_channels (CHANNELS inst)) st Hinv) as [Hinv' Hmem].
  cbn zeta in Hinv', Hmem.
  destruct (enabled_channels (CHANNELS inst)) as [|c cs] eqn:Ech.
  - split; [exact Hinv|]. intros k. split; [auto|].
    intros [H|(_ & _ & _ & ch & Hch & _)]; [exact H|inversion Hch].
  - split; [exact Hinv'|]. intros k. rewrite Hmem. split.
    + intros [H|H]; [left; exact H|right]. repeat split; auto.
    + intros [H|(_ & _ & _ & H)]; [left; exact H|right; exact H].
Qed.

Lemma collect_instances_inv (l : list instance) :
  forall st : list string * gset string,
    NoDup (fst st) /\ (forall k, k ∈ snd st <-> k ∈ fst st) ->
    let st' := foldl (fun st inst => collect_instance strip inst st) st l in
    NoDup (fst st') /\
    (forall k, k ∈ fst st' <->
               k ∈ fst st \/ exists inst, inst ∈ l /\ exports strip inst k).
Proof.
  induction l as [|inst l IH]; intros st Hinv; cbn zeta.
  - cbn [foldl]. split; [apply Hinv|].
    intros k. split; [auto|]. intros [H|(i & Hi & _)]; [exact H|inversion Hi].
  - cbn [foldl]. destruct (collect_instance_inv inst st Hinv) as [Hinv1 Hmem1].
    destruct (IH _ Hinv1) as [Hnd Hmem2]. split; [exact Hnd|].
    intros k. rewrite Hmem2, Hmem1. split.
    + intros [[H|H]|(i & Hi & H)]; [left; exact H|right..].
      * exists inst. split; [left|exact H].
      * exists i. split; [right; exact Hi|exact H].
    + intros [H|(i & Hi & H)]; [left; left; exact H|].
      apply elem_of_cons in Hi as [->|Hi]; [left; right; exact H|].
      right. exists i. split; [exact Hi|exact H].
Qed.

(** X25.  The known channels.  [collect_known_channels_from_config] returns
    each column once, and a column [dev:ch] is returned exactly when some
    instance is enabled, has [EXPORT_ENABLE] set and true, has the
    non-empty stripped device name [dev], and has [ch] among its enabled
    channels. *)
Theorem known_channels_spec (cfg : devices) :
  NoDup (collect_known_channels_from_config strip cfg) /\
  forall key,
    key ∈ collect_known_channels_from_config strip cfg <->
    exists inst, inst ∈ instances cfg /\ exports strip inst key.
Proof.
  unfold collect_known_channels_from_config.
  destruct (collect_instances_inv (instances cfg) ([], ∅)) as [Hnd Hmem].
  { split; [constructor|]. intros k. cbn. rewrite elem_of_empty.
    split; [contradiction|]. intros H. inversion H. }
  split; [exact Hnd|]. intros key. rewrite Hmem. split.
  - intros [H|H]; [inversion H|exact H].
  - intros H. right. exact H.
Qed.

Lemma py_max_spec (l : list Q) :
  forall x, (x <= py_max x l)%Q /\ Forall (fun y => (y <= py_max x l)%Q) l /\
            py_max x l ∈ x :: l.
Proof.
  induction l as [|y l IH]; intros x; cbn [py_max foldl].
  - split; [apply Qle_refl|]. split; [constructor|left].
  - fold (py_max (if ltb x y then y else x) l).
    destruct (IH (if ltb x y then y else x)) as (H1 & H2 & H3).
    assert (Hxy : (x <= (if ltb x y then y else x))%Q /\
                  (y <= (if ltb x y then y else x))%Q).
    { destruct (ltb x y) eqn:E.
      - apply ltb_spec in E. split; [apply Qlt_le_weak, E|apply Qle_refl].
      - split; [apply Qle_refl|]. apply Qnot_lt_le. intros H.
        apply ltb_spec in H. congruence. }
    destruct Hxy as [Hx Hy]. split; [eapply Qle_trans; eassumption|].
    split; [constructor; [eapply Qle_trans; eassumption|exact H2]|].
    apply elem_of_cons in H3 as [H3|H3]; [|right; right; exact H3].
    rewrite H3. destruct (ltb x y); [right; left|left].
Qed.

(** X26.  The maximal rate.  [compute_fs_max_from_config] returns a rate
    that no enabled instance exceeds, a missing [EXPORT_ENABLE] counting
    as true here; the rate is that of one of these instances, or 250 when
    none of them has a numeric [FS]. *)
Theorem fs_max_spec (cfg : devices) :
  let r := compute_fs_max_from_config cfg in
  (forall inst f,
     inst ∈ instances cfg -> ENABLED inst = true ->
     EXPORT_ENABLE inst <> Some false -> FS inst = Some f -> (f <= r)%Q) /\
  ((fs_values cfg = [] /\ r = 250%Q) \/
   exists inst, inst ∈ instances cfg /\ ENABLED inst = true /\
                EXPORT_ENABLE inst <> Some false /\ FS inst = Some r).
Proof.
  intros r.
  assert (Hval : forall f, f ∈ fs_values cfg <->
            exists inst, inst ∈ instances cfg /\ ENABLED inst = true /\
                         EXPORT_ENABLE inst <> Some false /\ FS inst = Some f).
  { intros f. unfold fs_values. rewrite list_elem_of_omap. unfold counts_for_fs.
    split; intros (inst & Hin & H); exists inst; (split; [exact Hin|]).
    - destruct (ENABLED inst); [|discriminate H].
      destruct (EXPORT_ENABLE inst) as [[|]|]; cbn in H;
        try discriminate H; repeat split; auto; discriminate.
    - destruct H as (-> & He & Hf).
      destruct (EXPORT_ENABLE inst) as [[|]|]; cbn; auto. contradiction. }
  subst r. unfold compute_fs_max_from_config.
  destruct (fs_values cfg) as [|x l] eqn:E.
  - split; [|left; auto]. intros inst f Hin He Hx Hf. exfalso.
    assert (H : f ∈ []) by (apply Hval; eauto). inversion H.
  - destruct (py_max_spec l x) as (H1 & H2 & H3). split.
    + intros inst f Hin He Hx Hf.
      assert (H : f ∈ x :: l) by (apply Hval; eauto).
      apply elem_of_cons in H as [->|H]; [exact H1|].
      rewrite Forall_forall in H2. apply H2, H.
    + right. apply Hval, H3.
Qed.

End HelpersProofs.

Section RtFilterProofs.

Import PyFloat RtFilter.

(** X27.  No invalid filter is asked for.  Whatever the specification,
    [_parse_spec] leaves the band-pass enabled only if it was enabled and
    0 < low < high < fs/2 with an order of at least 1, and returns a notch
    frequency that is 0, 50 or 60, and 0 unless the quality factor is
    positive; the order, the band edges and the quality factor are passed
    on as given, or with their defaults. *)
Theorem parse_spec_valid (fs_hz : Q) (sp : spec) :
  let '(bp_enable, bp_order, low_hz, high_hz, notch, notch_q) :=
    _parse_spec fs_hz sp in
  (bp_enable = true ->
   BANDPASS_ENABLE sp = Some true /\
   (0 < low_hz)%Q /\ (low_hz < high_hz)%Q /\ (high_hz < fs_hz / 2)%Q /\
   1 <= bp_order) /\
  (notch = 0 \/ ((notch = 50 \/ notch = 60) /\ NOTCH sp = Some notch /\
                 (0 < notch_q)%Q)) /\
  bp_order = default 4 (BANDPASS_ORDER sp) /\
  low_hz = default (1 # 10)%Q (LOW_HZ sp) /\
  high_hz = default 10%Q (HIGH_HZ sp) /\
  notch_q = default 30%Q (NOTCH_Q sp).
Proof.
  unfold _parse_spec. cbn zeta.
  set (en := default false (BANDPASS_ENABLE sp)).
  set (ord := default 4 (BANDPASS_ORDER sp)).
  set (low := default (1 # 10)%Q (LOW_HZ sp)).
  set (high := default 10%Q (HIGH_HZ sp)).
  set (nq := default 30%Q (NOTCH_Q sp)).
  split; [|split; [|repeat split]].
  - destruct en eqn:Een; cbn [andb negb]; [|discriminate].
    destruct (ltb 0 low) eqn:E1; cbn [andb negb]; [|discriminate].
    destruct (ltb low high) eqn:E2; cbn [andb negb]; [|discriminate].
    destruct (ltb high (fs_hz / 2)) eqn:E3; cbn [andb negb]; [|discriminate].
    destruct (Z.leb_spec 1 ord); cbn [negb]; [|discriminate].
    intros _. apply ltb_spec in E1, E2, E3. repeat split; auto.
    subst en. destruct (BANDPASS_ENABLE sp) as [[|]|]; try discriminate Een.
    reflexivity.
  - destruct (NOTCH sp) as [n|] eqn:En; cbn [default from_option id];
      [|left; reflexivity].
    destruct (Z.eqb_spec n 0) as [->|H0]; cbn [orb negb andb];
      [left; reflexivity|].
    destruct (Z.eqb_spec n 50) as [->|H50]; cbn [orb negb andb].
    { destruct (leb nq 0) eqn:E; [left; reflexivity|right].
      split; [left; reflexivity|]. split; [reflexivity|].
      apply Qnot_le_lt. intros H. apply Qle_bool_iff in H.
      unfold leb in E. congruence. }
    destruct (Z.eqb_spec n 60) as [->|H60]; cbn [orb negb andb];
      [|left; reflexivity].
    destruct (leb nq 0) eqn:E; [left; reflexivity|right].
    split; [right; reflexivity|]. split; [reflexivity|].
    apply Qnot_le_lt. intros H. apply Qle_bool_iff in H.
    unfold leb in E. congruence.
Qed.

End RtFilterProofs.

(* ===================================================================== *)
(** * The wiring of [main]: known channels into the export sink *)
(* ===================================================================== *)

Section MainProofs.

Import PyFloat Helpers Exporter SinkFacts.

Variable strip : string -> string.

Lemma known_channels_have_colon (cfg : devices) (key : string) :
  key ∈ collect_known_channels_from_config strip cfg -> has_colon key = true.
Proof.
  unfold collect_known_channels_from_config.
  destruct (collect_instances_inv strip (instances cfg) ([], ∅)) as [_ Hmem].
  { split; [constructor|]. intros k. cbn. rewrite elem_of_empty.
    split; [contradiction|]. intros H. inversion H. }
  intros Hin. apply Hmem in Hin as [Hin|(inst & _ & _ & _ & _ & ch & _ & ->)];
    [inversion Hin|]. apply has_colon_column.
Qed.

(** X28.  [main] gives the export sink a proper header.  With the channels
    that [collect_known_channels_from_config] returns, when there is at
    least one, [ExportSink.start()] does not raise, and the header of the
    synced CSV has no column name twice: the channel columns are distinct,
    and none of them is [k], [t_q], [spike] or [event]. *)
Theorem main_header_distinct (devs : devices) (cfg : Config) (delta now : Q) :
  let chans := collect_known_channels_from_config strip devs in
  let s0 := __init__ cfg delta (Some chans) None None None None None now in
  chans <> [] ->
  fst (start s0) = Returned tt /\ NoDup (synced_header s0).
Proof.
  intros chans s0 Hne.
  destruct (init_fields cfg delta (Some chans) None None None None None now)
    as (Hthr & Hsig & Hmk & Hch & Hpk & _).
  fold s0 in Hthr, Hsig, Hmk, Hch, Hpk. cbn [default from_option id] in Hch.
  split.
  - unfold start. rewrite Hthr. cbn [_markers_writer _synced_writer set_io].
    destruct (_csv_marker_enabled s0); cbn [_synced_writer _channels emit set_io];
      (destruct (_csv_signal_enabled s0); [|reflexivity]);
      rewrite Hch; (destruct chans; [contradiction|reflexivity]).
  - unfold synced_header. rewrite Hch.
    assert (Hnd : NoDup chans).
    { subst chans. unfold collect_known_channels_from_config.
      apply (collect_instances_inv strip (instances devs) ([], ∅)).
      split; [constructor|]. intros k. cbn. rewrite elem_of_empty.
      split; [contradiction|]. intros H. inversion H. }
    assert (Hcol : forall key, key ∈ chans -> has_colon key = true)
      by (intros key; apply known_channels_have_colon).
    assert (Hfix : forall c : string, has_colon c = false -> c ∉ chans).
    { intros c Hc Hin. rewrite (Hcol c Hin) in Hc. discriminate Hc. }
    assert (Htail : NoDup (["t_q"%string] ++ chans ++ ["spike"; "event"]%string)).
    { apply NoDup_app. split; [apply NoDup_singleton|]. split.
      - intros x Hx Hx'. apply list_elem_of_singleton in Hx. subst x.
        apply elem_of_app in Hx' as [Hx'|Hx']; [(refine (Hfix _ _ Hx'); reflexivity)|].
        apply elem_of_cons in Hx' as [Hx'|Hx']; [discriminate Hx'|].
        apply list_elem_of_singleton in Hx'. discriminate Hx'.
      - apply NoDup_app. split; [exact Hnd|]. split.
        + intros x Hx Hx'.
          apply elem_of_cons in Hx' as [->|Hx']; [(refine (Hfix _ _ Hx); reflexivity)|].
          apply list_elem_of_singleton in Hx'. subst x. (refine (Hfix _ _ Hx); reflexivity).
        + apply NoDup_cons. split; [|apply NoDup_singleton].
          intros H. apply list_elem_of_singleton in H. discriminate H. }
    destruct (_print_k s0); [|exact Htail].
    apply NoDup_app. split; [apply NoDup_singleton|]. split; [|exact Htail].
    intros x Hx Hx'. apply list_elem_of_singleton in Hx. subst x.
    apply elem_of_cons in Hx' as [Hx'|Hx']; [discriminate Hx'|].
    apply elem_of_app in Hx' as [Hx'|Hx']; [(refine (Hfix _ _ Hx'); reflexivity)|].
    apply elem_of_cons in Hx' as [Hx'|Hx']; [discriminate Hx'|].
    apply list_elem_of_singleton in Hx'. discriminate Hx'.
Qed.

End MainProofs.

Section MainScenario.

Import PyFloat Helpers Exporter SinkFacts.

Lemma main_header_distinct_witness :
  let devs := [("shimmer"%string,
                [mkInstance true (Some true) "A"
                   (ChDict [("x"%string, true); ("y"%string, false)])
                   (Some 128%Q);
                 mkInstance true None "B" (ChList ["z"%string]) (Some 512%Q)])] in
  let chans := collect_known_channels_from_config (fun s => s) devs in
  chans = ["A:x"%string] /\
  NoDup (synced_header (__init__ (demo_config true) (1 # 128) (Some chans)
                          None None None None None 0)).
Proof.
  intros devs chans.
  assert (Hne : chans <> []) by discriminate.
  destruct (main_header_distinct (fun s => s) devs (demo_config true) (1 # 128) 0 Hne)
    as [_ H].
  split; [reflexivity|exact H].
Defined.

End MainScenario.

(* ===================================================================== *)
(** * Properties of the GSR decoding *)
(* ===================================================================== *)

Section GsrProofs.

Import PyFloat ShimmerGsr.

Lemma range_code_range (raw : Z) : 0 <= range_code raw <= 3.
Proof.
  unfold range_code.
  assert (E : Z.land (Z.shiftr raw 14) 3 = Z.shiftr raw 14 mod 4)
    by (change 3 with (Z.ones 2); rewrite Z.land_ones by lia; reflexivity).
  rewrite E. pose proof (Z.mod_pos_bound (Z.shiftr raw 14) 4 eq_refl). lia.
Qed.

Lemma adc_range (raw : Z) : 0 <= adc raw <= 16383.
Proof.
  unfold adc.
  assert (E : Z.land raw 16383 = raw mod 16384)
    by (change 16383 with (Z.ones 14); rewrite Z.land_ones by lia; reflexivity).
  rewrite E. pose proof (Z.mod_pos_bound raw 16384 eq_refl). lia.
Qed.

(** X29.  The decoding of a GSR sample.  The two bit fields never leave
    their ranges, 0..3 for the range code and 0..16383 for the ADC count,
    and together they are the 16-bit raw value; so the feedback resistor is
    always one of the four of the table, and the fallback of the lookup is
    never taken.  A sample is valid exactly when its input voltage is
    strictly between 0 and the bias, and a valid sample always decodes to a
    positive conductance. *)
Theorem gsr_decoding (VREF_GSR V_BIAS : Q) (raw : Z) :
  (0 <= range_code raw <= 3 /\ 0 <= adc raw <= 16383) /\
  (0 <= raw < 65536 -> raw = range_code raw * 16384 + adc raw) /\
  (r_feedback raw, range_code raw) ∈
    [(40200, 0); (287000, 1); (1000000, 2); (3300000, 3)] /\
  (is_Some (gsr_uS VREF_GSR V_BIAS raw)
   <-> (0 < vin VREF_GSR raw)%Q /\ (vin VREF_GSR raw < V_BIAS)%Q) /\
  (forall g, gsr_uS VREF_GSR V_BIAS raw = Some g -> (0 < g)%Q).
Proof.
  pose proof (range_code_range raw) as Hrc. pose proof (adc_range raw) as Hadc.
  split; [split; assumption|]. split; [|split; [|split]].
  - intros Hraw. unfold range_code, adc.
    assert (E1 : Z.land (Z.shiftr raw 14) 3 = (raw / 16384) mod 4).
    { change 3 with (Z.ones 2). rewrite Z.land_ones, Z.shiftr_div_pow2 by lia.
      reflexivity. }
    assert (E2 : Z.land raw 16383 = raw mod 16384)
      by (change 16383 with (Z.ones 14); rewrite Z.land_ones by lia; reflexivity).
    rewrite E1, E2.
    rewrite (Z.mod_small (raw / 16384)).
    + pose proof (Z.div_mod raw 16384). lia.
    + split; [apply Z.div_pos; lia|apply Z.div_lt_upper_bound; lia].
  - unfold r_feedback.
    assert (H : range_code raw = 0 \/ range_code raw = 1 \/ range_code raw = 2
                \/ range_code raw = 3) by lia.
    destruct H as [-> | [-> | [-> | ->]]]; cbn;
      rewrite !elem_of_cons; auto 6.
  - unfold gsr_uS. cbn zeta.
    destruct (ltb 0 (vin VREF_GSR raw)) eqn:E1; cbn [andb].
    + destruct (ltb (vin VREF_GSR raw) V_BIAS) eqn:E2.
      * apply ltb_spec in E1, E2. split; [auto|]. intros _. eexists. reflexivity.
      * split; [intros [g Hg]; discriminate Hg|].
        intros [_ H]. apply ltb_spec in H. congruence.
    + split; [intros [g Hg]; discriminate Hg|].
      intros [H _]. apply ltb_spec in H. congruence.
  - intros g. unfold gsr_uS. cbn zeta.
    destruct (ltb 0 (vin VREF_GSR raw) && ltb (vin VREF_GSR raw) V_BIAS);
      [|discriminate].
    intros [= <-].
    set (r_skin := (inject_Z (r_feedback raw) * (V_BIAS / vin VREF_GSR raw - 1))%Q).
    assert (Hden : (0 < (if ltb r_skin (1 # 1000000000000)
                         then 1 # 1000000000000 else r_skin))%Q).
    { destruct (ltb r_skin (1 # 1000000000000)) eqn:E; [reflexivity|].
      apply (Qlt_le_trans _ (1 # 1000000000000)); [reflexivity|].
      apply Qnot_lt_le. intros H. apply ltb_spec in H. congruence. }
    unfold Qdiv. apply Qmult_lt_0_compat; [reflexivity|].
    apply Qinv_lt_0_compat, Hden.
Qed.

End GsrProofs.
